(** * The TCP layer of libtins (src/tcp.cpp): a shallow embedding

    The development follows src/tcp.cpp function by function.  Octets are
    [Byte.byte]; the C++ fixed-width integers are [Z] with their wrap-around
    written out ([u32], [to_u8]); raw memory (the buffers handed to the
    decoder and to the serializer) is a [list byte] addressed by offset.
    Code that can throw, fail an [assert] or loop returns an [outcome]. *)

From Stdlib Require Import String.
From Stdlib Require Import ZArith List Bool Lia.
From Stdlib Require Import Strings.Byte.
Import ListNotations.

Local Open Scope Z_scope.

(** ** Machine integers and octets *)

Definition u32 (z : Z) : Z := z mod 2 ^ 32.

(** The value of a [uint8_t]. *)
Definition u8 (b : byte) : Z := Z.of_N (Byte.to_N b).

(** Conversion of an integer to [uint8_t] (truncation to the low 8 bits). *)
Definition to_u8 (z : Z) : byte :=
  match Byte.of_N (Z.to_N (z mod 256)) with
  | Some b => b
  | None => x00
  end.

(** ** Outcomes of the C++ code *)

Inductive outcome (A : Type) : Type :=
| Done (a : A)              (* normal return *)
| Throw (what : string)     (* std::runtime_error(what) *)
| Abort                     (* failed assert, or an access outside the buffer *)
| Timeout.                  (* the fuel of a loop ran out *)

Arguments Done {A} a.
Arguments Throw {A} what.
Arguments Abort {A}.
Arguments Timeout {A}.

Definition bind {A B : Type} (m : outcome A) (k : A -> outcome B) : outcome B :=
  match m with
  | Done a => k a
  | Throw e => Throw e
  | Abort => Abort
  | Timeout => Timeout
  end.

Notation "x <- m ;; k" := (bind m (fun x => k))
  (at level 61, m at next level, right associativity).
Notation "' p <- m ;; k" := (bind m (fun p => k))
  (at level 61, p pattern, m at next level, right associativity).

(** ** Raw memory *)

(** [buffer[i]]. *)
Definition peek (buffer : list byte) (i : Z) : byte :=
  nth (Z.to_nat i) buffer x00.

(** [memcpy(buffer + pos, src, |src|)] into a region of [length buffer]
    octets; writing outside the region is a fault. *)
Definition store (buffer : list byte) (pos : Z) (src : list byte)
  : outcome (list byte) :=
  if (0 <=? pos) && (pos + Z.of_nat (length src) <=? Z.of_nat (length buffer))
  then Done (firstn (Z.to_nat pos) buffer ++ src
             ++ skipn (Z.to_nat pos + length src) buffer)
  else Abort.

(** [memcpy(dst, src, n)] seen from the source side: the first [n] octets. *)
Definition memcpy_from (src : list byte) (n : Z) : list byte :=
  firstn (Z.to_nat n) src.

(** ** Byte order *)

Module Utils.

(** Modelled from the spec: utils.h is not part of the sources.  The header
    fields are kept in wire order (big-endian) in memory and the accessors
    convert both ways (spec, sections 3 and 6).  [net_order_s v] is the
    memory image of a [uint16_t] that holds [Utils::net_to_host_s(v)]. *)
Definition net_order_s (v : Z) : byte * byte :=
  (to_u8 (Z.shiftr v 8), to_u8 v).

(** Modelled from the spec: [Utils::net_to_host_s] applied to the
    [uint16_t] with the memory image [m]. *)
Definition host_s (m : byte * byte) : Z :=
  Z.shiftl (u8 (fst m)) 8 + u8 (snd m).

(** Modelled from the spec: the memory image of a [uint32_t] that holds
    [Utils::net_to_host_l(v)]. *)
Definition net_order_l (v : Z) : list byte :=
  [to_u8 (Z.shiftr v 24); to_u8 (Z.shiftr v 16); to_u8 (Z.shiftr v 8); to_u8 v].

(** Modelled from the spec: [Utils::net_to_host_l] applied to the
    [uint32_t] whose memory image are the first four octets of [m]. *)
Definition host_l (m : list byte) : Z :=
  Z.shiftl (u8 (nth 0 m x00)) 24 + Z.shiftl (u8 (nth 1 m x00)) 16
  + Z.shiftl (u8 (nth 2 m x00)) 8 + u8 (nth 3 m x00).

End Utils.

(** ** The fixed header *)

(** Modelled from the spec: struct tcphdr is declared in tcp.h, which is not
    part of the sources.  The spec gives the standard TCP field order: source
    port, destination port, sequence number, acknowledgement number, the
    data offset in the high four bits of octet 12, the eight flags in octet
    13, window, checksum, urgent pointer; 20 octets in all.  Each field holds
    its memory image. *)
Record tcphdr : Type := mk_tcphdr {
  h_sport : byte * byte;
  h_dport : byte * byte;
  h_seq : (byte * byte) * (byte * byte);
  h_ack_seq : (byte * byte) * (byte * byte);
  h_doff_res1 : byte;                 (* doff:4 (high), res1:4 (low) *)
  h_flags : byte;                     (* cwr ece urg ack psh rst syn fin *)
  h_window : byte * byte;
  h_check : byte * byte;
  h_urg_ptr : byte * byte
}.

Definition sizeof_tcphdr : Z := 20.

(** [std::memset(&_tcp, 0, sizeof(tcphdr))]. *)
Definition tcphdr_zero : tcphdr :=
  mk_tcphdr (x00, x00) (x00, x00) ((x00, x00), (x00, x00))
            ((x00, x00), (x00, x00)) x00 x00 (x00, x00) (x00, x00) (x00, x00).

(** The 20 octets of the struct, in address order. *)
Definition tcphdr_bytes (h : tcphdr) : list byte :=
  [fst (h_sport h); snd (h_sport h); fst (h_dport h); snd (h_dport h);
   fst (fst (h_seq h)); snd (fst (h_seq h));
   fst (snd (h_seq h)); snd (snd (h_seq h));
   fst (fst (h_ack_seq h)); snd (fst (h_ack_seq h));
   fst (snd (h_ack_seq h)); snd (snd (h_ack_seq h));
   h_doff_res1 h; h_flags h;
   fst (h_window h); snd (h_window h);
   fst (h_check h); snd (h_check h);
   fst (h_urg_ptr h); snd (h_urg_ptr h)].

(** [std::memcpy(&_tcp, buffer, sizeof(tcphdr))]. *)
Definition tcphdr_of_bytes (buffer : list byte) : tcphdr :=
  let b := peek buffer in
  mk_tcphdr (b 0, b 1) (b 2, b 3) ((b 4, b 5), (b 6, b 7))
            ((b 8, b 9), (b 10, b 11)) (b 12) (b 13)
            (b 14, b 15) (b 16, b 17) (b 18, b 19).

(** The bit-field [doff]. *)
Definition get_doff (h : tcphdr) : Z := Z.shiftr (u8 (h_doff_res1 h)) 4.

(** [_tcp.doff = v]: the four bits of the field take the low four bits of
    [v]; [res1] is kept. *)
Definition set_doff (v : Z) (h : tcphdr) : tcphdr :=
  mk_tcphdr (h_sport h) (h_dport h) (h_seq h) (h_ack_seq h)
            (to_u8 (Z.lor (Z.land (u8 (h_doff_res1 h)) 15)
                          (Z.shiftl (v mod 16) 4)))
            (h_flags h) (h_window h) (h_check h) (h_urg_ptr h).

Definition set_sport (m : byte * byte) (h : tcphdr) : tcphdr :=
  mk_tcphdr m (h_dport h) (h_seq h) (h_ack_seq h) (h_doff_res1 h)
            (h_flags h) (h_window h) (h_check h) (h_urg_ptr h).

Definition set_dport (m : byte * byte) (h : tcphdr) : tcphdr :=
  mk_tcphdr (h_sport h) m (h_seq h) (h_ack_seq h) (h_doff_res1 h)
            (h_flags h) (h_window h) (h_check h) (h_urg_ptr h).

Definition set_window (m : byte * byte) (h : tcphdr) : tcphdr :=
  mk_tcphdr (h_sport h) (h_dport h) (h_seq h) (h_ack_seq h) (h_doff_res1 h)
            (h_flags h) m (h_check h) (h_urg_ptr h).

Definition set_check (m : byte * byte) (h : tcphdr) : tcphdr :=
  mk_tcphdr (h_sport h) (h_dport h) (h_seq h) (h_ack_seq h) (h_doff_res1 h)
            (h_flags h) (h_window h) m (h_urg_ptr h).

(** ** Options *)

(** Modelled from the spec: enum Options is declared in tcp.h, which is not
    part of the sources; the values are those of the spec (section 3), with
    the names tcp.cpp uses.  The decoder casts any octet to the enum, so a
    kind is an integer. *)
Definition EOL : Z := 0.
Definition NOP : Z := 1.
Definition MSS : Z := 2.
Definition WSCALE : Z := 3.
Definition SACK_OK : Z := 4.
Definition SACK : Z := 5.
Definition TSOPT : Z := 8.
Definition ALTCHK : Z := 14.

(** struct TCPOption: [option], [length] (a [uint8_t]) and the owned buffer
    [value], a null pointer ([None]) when the option was added with length
    zero. *)
Record TCPOption : Type := mk_TCPOption {
  opt_option : Z;
  opt_length : byte;
  opt_value : option (list byte)
}.

(** ** The segment *)

(** Modelled from the spec: the members of class TCP are declared in tcp.h,
    which is not part of the sources.  [_options_size] and
    [_total_options_size] are the derived sizes raw_size and padded_size of
    section 3 of the spec, integers without a bound of their own;
    [inner_pdu] is the payload of the nested RawPDU, if there is one. *)
Record TCP : Type := mk_TCP {
  _tcp : tcphdr;
  _options : list TCPOption;
  _options_size : Z;
  _total_options_size : Z;
  inner_pdu : option (list byte)
}.

Definition DEFAULT_WINDOW : Z := 32678.

Definition with_tcp (h : tcphdr) (t : TCP) : TCP :=
  mk_TCP h (_options t) (_options_size t) (_total_options_size t) (inner_pdu t).

Definition dport (new_dport : Z) (t : TCP) : TCP :=
  with_tcp (set_dport (Utils.net_order_s new_dport) (_tcp t)) t.

Definition sport (new_sport : Z) (t : TCP) : TCP :=
  with_tcp (set_sport (Utils.net_order_s new_sport) (_tcp t)) t.

Definition window (new_window : Z) (t : TCP) : TCP :=
  with_tcp (set_window (Utils.net_order_s new_window) (_tcp t)) t.

Definition check (new_check : Z) (t : TCP) : TCP :=
  with_tcp (set_check (Utils.net_order_s new_check) (_tcp t)) t.

Definition data_offset (new_doff : Z) (t : TCP) : TCP :=
  with_tcp (set_doff new_doff (_tcp t)) t.

(** Modelled from the spec: the getters are defined in tcp.h, which is not
    part of the sources; they return the fields in host order. *)
Definition get_dport (t : TCP) : Z := Utils.host_s (h_dport (_tcp t)).
Definition get_sport (t : TCP) : Z := Utils.host_s (h_sport (_tcp t)).
Definition get_window (t : TCP) : Z := Utils.host_s (h_window (_tcp t)).
Definition get_check (t : TCP) : Z := Utils.host_s (h_check (_tcp t)).
Definition get_data_offset (t : TCP) : Z := get_doff (_tcp t).

(** [TCP::TCP(uint16_t dport, uint16_t sport)]. *)
Definition TCP_ports (dport_ sport_ : Z) : TCP :=
  let t := mk_TCP tcphdr_zero [] 0 0 None in
  let t := dport dport_ t in
  let t := sport sport_ t in
  let t := data_offset (sizeof_tcphdr / 4) t in
  window DEFAULT_WINDOW t.

(** [TCP::add_option(Options tcp_option, uint8_t length, const uint8_t *data)];
    [data] is the memory [data] points to (empty for a null pointer). *)
Definition add_option (tcp_option : Z) (length : byte) (data : list byte)
                      (t : TCP) : TCP :=
  let new_data :=
    if u8 length =? 0 then None else Some (memcpy_from data (u8 length)) in
  let options := _options t ++ [mk_TCPOption tcp_option length new_data] in
  let options_size := _options_size t + (u8 length + 2) in
  let padding := u8 (to_u8 (Z.land options_size 3)) in
  let total :=
    if padding =? 0 then options_size else options_size - padding + 4 in
  mk_TCP (_tcp t) options options_size total (inner_pdu t).

(** [TCP::header_size()], a [uint32_t]. *)
Definition header_size (t : TCP) : Z :=
  u32 (sizeof_tcphdr + _total_options_size t).

(** [TCP::search_option]: the first option of that kind. *)
Definition search_option (opt : Z) (t : TCP) : option TCPOption :=
  find (fun o => opt_option o =? opt) (_options t).

(** ** The decoder: [TCP::TCP(const uint8_t *buffer, uint32_t total_sz)] *)

Definition err_header : string :=
  "Not enough size for an TCP header in the buffer.".
Definition err_option : string :=
  "Not enough size for a TCP header in the buffer.".

(** The variables of the option scan: the cursor [index], the array
    [args] and the object under construction. *)
Record scan_state : Type := mk_scan {
  index : Z;
  args0 : byte;
  args1 : byte;
  scanned : TCP
}.

Section OptionScan.

(** The memory at [buffer + sizeof(tcphdr)] and the size of the options
    region. *)
Variable buffer : list byte.
Variable header_end : Z.

(** The body of the [for] loop for one [i]: the bound check, then
    [args[i] = buffer[index++]]. *)
Definition read_arg (i : Z) (s : scan_state) : outcome scan_state :=
  if index s =? header_end then Throw err_option
  else
    let b := peek buffer (index s) in
    Done (mk_scan (u32 (index s + 1))
                  (if i =? 0 then b else args0 s)
                  (if i =? 0 then args1 s else b)
                  (scanned s)).

(** [for(unsigned i(0); i < 2 && args[0] != NOP; ++i)], unrolled. *)
Definition read_args (s : scan_state) : outcome scan_state :=
  if u8 (args0 s) =? NOP then Done s
  else
    s1 <- read_arg 0 s ;;
    if u8 (args0 s1) =? NOP then Done s1 else read_arg 1 s1.

(** One turn of the [while] loop. *)
Definition scan_body (s : scan_state) : outcome scan_state :=
  s <- read_args s ;;
  if negb (u8 (args0 s) =? NOP) && negb (u8 (args0 s) =? EOL) then
    let a1 := to_u8 (u8 (args1 s) - 2) in
    if u32 (header_end - index s) <? u8 a1 then Throw err_option
    else
      Done (mk_scan (u32 (index s + u8 a1)) (args0 s) a1
              (add_option (u8 (args0 s)) a1
                          (skipn (Z.to_nat (index s)) buffer) (scanned s)))
  else if u8 (args0 s) =? EOL then
    Done (mk_scan header_end (args0 s) (args1 s) (scanned s))
  else
    Done (mk_scan (index s) x00 (args1 s) (scanned s)).

(** [while(index < header_end)]. *)
Fixpoint scan_loop (fuel : nat) (s : scan_state) : outcome scan_state :=
  if index s <? header_end then
    match fuel with
    | O => Timeout
    | S fuel' => s' <- scan_body s ;; scan_loop fuel' s'
    end
  else Done s.

End OptionScan.

(** Modelled from the spec: rawpdu.h is not part of the sources; a RawPDU
    built from [(buffer, total_sz)] holds a copy of [total_sz] octets. *)
Definition RawPDU (buffer : list byte) (total_sz : Z) : list byte :=
  memcpy_from buffer total_sz.

Definition set_inner_pdu (p : option (list byte)) (t : TCP) : TCP :=
  mk_TCP (_tcp t) (_options t) (_options_size t) (_total_options_size t) p.

(** The state of the scan when the [while] loop is entered. *)
Definition scan_init (tcp : tcphdr) : scan_state :=
  mk_scan 0 x00 x00 (mk_TCP tcp [] 0 0 None).

(** The size of the options region the header declares:
    [(data_offset() * sizeof(uint32_t)) - sizeof(tcphdr)] as a [uint32_t]. *)
Definition header_end_of (tcp : tcphdr) : Z :=
  u32 (get_doff tcp * 4 - sizeof_tcphdr).

(** The constructor from a buffer; [total_sz] is the number of octets of
    [buffer].  The [catch] block releases the options and rethrows, so a
    thrown exception is the whole result.  Every turn of the scan consumes
    an octet, so [length buffer] turns are enough ([TCP_buffer_returns]). *)
Definition TCP_buffer (buffer : list byte) : outcome TCP :=
  let total_sz := Z.of_nat (length buffer) in
  if total_sz <? sizeof_tcphdr then Throw err_header
  else
    let tcp := tcphdr_of_bytes buffer in
    let buffer := skipn (Z.to_nat sizeof_tcphdr) buffer in
    let total_sz := u32 (total_sz - sizeof_tcphdr) in
    let header_end := header_end_of tcp in
    '(t, index) <-
       (if header_end <=? total_sz then
          s <- scan_loop buffer header_end (length buffer) (scan_init tcp) ;;
          Done (scanned s, index s)
        else Done (scanned (scan_init tcp), 0)) ;;
    let buffer := skipn (Z.to_nat index) buffer in
    let total_sz := u32 (total_sz - index) in
    if total_sz =? 0 then Done t
    else Done (set_inner_pdu (Some (RawPDU buffer total_sz)) t).

(** ** The serializer *)

(** [TCPOption::write(uint8_t *buffer)]: [buffer] is the destination region,
    [pos] the offset the pointer stands at; the result is the region and the
    returned pointer. *)
Definition TCPOption_write (o : TCPOption) (buffer : list byte) (pos : Z)
  : outcome (list byte * Z) :=
  if opt_option o =? 1 then
    b <- store buffer pos [to_u8 (opt_option o)] ;;
    Done (b, pos + 1)
  else
    b <- store buffer pos [to_u8 (opt_option o)] ;;
    b <- store b (pos + 1) [to_u8 (u8 (opt_length o) + 2)] ;;
    b <- match opt_value o with
         | Some v => store b (pos + 2) (memcpy_from v (u8 (opt_length o)))
         | None => Done b
         end ;;
    Done (b, pos + u8 (peek b (pos + 1))).

(** [for(it = _options.begin(); ...) buffer = it->write(buffer);]. *)
Fixpoint write_options (opts : list TCPOption) (buffer : list byte) (pos : Z)
  : outcome (list byte * Z) :=
  match opts with
  | [] => Done (buffer, pos)
  | o :: opts' =>
      '(b, p) <- TCPOption_write o buffer pos ;;
      write_options opts' b p
  end.

(** [while(padding < _total_options_size) { *(buffer++) = 1; padding++; }]
    with [padding] a [uint8_t]. *)
Fixpoint write_padding (fuel : nat) (padding : byte) (total : Z)
                       (buffer : list byte) (pos : Z)
  : outcome (list byte * Z) :=
  if u8 padding <? total then
    match fuel with
    | O => Timeout
    | S fuel' =>
        b <- store buffer pos [x01] ;;
        write_padding fuel' (to_u8 (u8 padding + 1)) total b (pos + 1)
    end
  else Done (buffer, pos).

(** [while (checksum >> 16) checksum = (checksum & 0xffff) + (checksum >> 16);] *)
Fixpoint fold_carries (fuel : nat) (checksum : Z) : outcome Z :=
  if Z.shiftr checksum 16 =? 0 then Done checksum
  else
    match fuel with
    | O => Timeout
    | S fuel' =>
        fold_carries fuel' (Z.land checksum 65535 + Z.shiftr checksum 16)
    end.

(** Modelled from the spec: ip.h and pdu.h are not part of the sources.  The
    parent layer either is an IP layer, which exposes its two addresses, or
    is some other layer. *)
Record IP : Type := mk_IP { src_addr : Z; dst_addr : Z }.

(** Modelled from the spec: the layers a parent pointer can point to. *)
Inductive PDU : Type :=
| IP_layer (ip : IP)
| Other_layer.

(** [dynamic_cast<const Tins::IP*>(parent)]; [None] is the null pointer. *)
Definition dynamic_cast_IP (parent : option PDU) : option IP :=
  match parent with
  | Some (IP_layer ip) => Some ip
  | _ => None
  end.

(** Modelled from the spec: [Constants::IP::PROTO_TCP] of constants.h,
    protocol number 6. *)
Definition PROTO_TCP : Z := 6.

(** Modelled from the spec: [PDU::size()] is the size of this header plus
    that of the nested payload. *)
Definition size (t : TCP) : Z :=
  u32 (header_size t
       + match inner_pdu t with
         | Some p => Z.of_nat (length p)
         | None => 0
         end).

Section Serialization.

(** The checksum primitives of utils.h, which is not part of the sources:
    [Utils::pseudoheader_checksum(source, dest, len, flag)] and
    [Utils::do_checksum(start, end)] over the octets from [start] to
    [end]. *)
Variable pseudoheader_checksum : Z -> Z -> Z -> Z -> Z.
Variable do_checksum : list byte -> Z.

(** The checksum written at line 318: [~checksum] as a [uint16_t]. *)
Definition computed_check (ip : IP) (t : TCP) (buffer : list byte)
  : outcome (byte * byte) :=
  checksum <- fold_carries 2
    (u32 (pseudoheader_checksum (src_addr ip) (dst_addr ip) (size t)
                                PROTO_TCP
          + do_checksum buffer)) ;;
  Done (Utils.net_order_s (u32 (Z.lnot checksum))).

(** [TCP::write_serialization(uint8_t *buffer, uint32_t total_sz,
    const PDU *parent)]: [buffer] is the destination region on entry and
    [total_sz] its length; the result is the region on return and the
    object, whose [_tcp] the function changes.  The padding loop is given
    256 turns: its [uint8_t] counter reaches a total below 256 within 255
    turns and never reaches a larger one. *)
Definition write_serialization (t : TCP) (buffer : list byte)
                               (parent : option PDU)
  : outcome (list byte * TCP) :=
  let total_sz := Z.of_nat (length buffer) in
  if total_sz <? header_size t then Abort
  else
    let tcp_start := 0 in
    let tcp :=
      set_doff ((sizeof_tcphdr + _total_options_size t) / 4) (_tcp t) in
    '(buffer, pos) <- write_options (_options t) buffer
                                    (tcp_start + sizeof_tcphdr) ;;
    '(buffer, pos) <-
       (if _options_size t <? _total_options_size t then
          write_padding 256 (to_u8 (_options_size t))
                        (_total_options_size t) buffer pos
        else Done (buffer, pos)) ;;
    let ip_packet := dynamic_cast_IP parent in
    buffer <- store buffer tcp_start (tcphdr_bytes tcp) ;;
    buffer <-
      match ip_packet with
      | Some ip =>
          if Utils.host_s (h_check tcp) =? 0 then
            c <- computed_check ip t buffer ;;
            store buffer (tcp_start + 16) [fst c; snd c]
          else Done buffer
      | None => Done buffer
      end ;;
    Done (buffer, with_tcp (set_check (x00, x00) tcp) t).

(** Modelled from the spec: [PDU::serialize] belongs to the chaining
    framework, which is not part of the sources.  It provides a region of
    [size()] octets (zero-filled here), the nested payload is serialized
    behind the header, and then this layer writes itself. *)
Definition serialize (t : TCP) (parent : option PDU)
  : outcome (list byte * TCP) :=
  let payload := match inner_pdu t with Some p => p | None => [] end in
  write_serialization t
    (repeat x00 (Z.to_nat (header_size t)) ++ payload) parent.

End Serialization.

(** Modelled from the spec: the checksum primitives the serializer is linked
    with are in utils.cpp, which is not part of the sources.  The spec
    (sections 4.3 and 6) describes them as the sum of the 16-bit big-endian
    words of a byte range, and the sum of the words of the two addresses,
    the protocol number and the segment length.  They instantiate the
    parameters of [write_serialization] in the closed examples below. *)
Fixpoint ones_complement_sum (bytes : list byte) : Z :=
  match bytes with
  | [] => 0
  | [b] => Z.shiftl (u8 b) 8
  | hi :: lo :: rest => u32 (Utils.host_s (hi, lo) + ones_complement_sum rest)
  end.

(** Modelled from the spec: the pseudo-header sum of section 4.3, over the
    16-bit words of the two addresses, the protocol number and the length. *)
Definition pseudo_header_sum (source dest len flag : Z) : Z :=
  u32 (Z.shiftr source 16 + Z.land source 65535
       + Z.shiftr dest 16 + Z.land dest 65535 + flag + len).

(** ** Copying: [copy_fields], the copy constructor, [operator=], [clone_pdu] *)

(** The body of the loop of [copy_fields] for one option. *)
Definition copy_option (o : TCPOption) : TCPOption :=
  mk_TCPOption (opt_option o) (opt_length o)
    match opt_value o with
    | Some v => Some (memcpy_from v (u8 (opt_length o)))
    | None => None
    end.

(** [TCP::copy_fields(const TCP *other)] run on the object [this]: the
    header is overwritten, the copies are pushed behind the options [this]
    already holds, the two counters are overwritten. *)
Definition copy_fields (other this : TCP) : TCP :=
  mk_TCP (_tcp other)
         (_options this ++ map copy_option (_options other))
         (_options_size other)
         (_total_options_size other)
         (inner_pdu this).

(** Modelled from the spec: the copy constructor and the assignment of the
    base class PDU (pdu.cpp, not part of the sources) give the destination
    its own copy of the nested payload. *)
Definition PDU_copy (other this : TCP) : TCP :=
  set_inner_pdu (inner_pdu other) this.

(** The members of an object whose constructor body has not run yet: the
    option list is default-constructed, the header and the counters are not
    initialised (zero here; [copy_fields] overwrites them). *)
Definition TCP_members : TCP := mk_TCP tcphdr_zero [] 0 0 None.

(** [TCP::TCP(const TCP &other)]. *)
Definition TCP_copy (other : TCP) : TCP :=
  copy_fields other (PDU_copy other TCP_members).

(** [TCP::operator=(const TCP &other)] on the object [this]. *)
Definition operator_assign (other this : TCP) : TCP :=
  copy_fields other (PDU_copy other this).

(** [TCP::clone_pdu()]: [new TCP()], then [copy_fields(this)].  The default
    arguments of the constructor are in tcp.h, which is not part of the
    sources; both ports are taken as 0. *)
Definition clone_pdu (this : TCP) : TCP :=
  copy_fields this (TCP_ports 0 0).

(** ** Typed options *)

(** [TCP::add_sack_option(const std::list<uint32_t> &edges)]. *)
Definition add_sack_option (edges : list Z) (t : TCP) : TCP :=
  let value :=
    if (0 <? Z.of_nat (length edges))
    then flat_map Utils.net_order_l edges
    else [] in
  add_option SACK (to_u8 (4 * Z.of_nat (length edges))) value t.

(** The loop of [search_sack_option]: [n] words read from [ptr] on. *)
Fixpoint read_edges (n : nat) (ptr : list byte) : list Z :=
  match n with
  | O => []
  | S n' => Utils.host_l ptr :: read_edges n' (skipn 4 ptr)
  end.

(** [TCP::search_sack_option(std::list<uint32_t> *edges)]: the returned
    flag and the list [*edges] on return. *)
Definition search_sack_option (edges : list Z) (t : TCP) : bool * list Z :=
  match search_option SACK t with
  | None => (false, edges)
  | Some option =>
      if negb (u8 (opt_length option) mod 4 =? 0) then (false, edges)
      else
        let ptr := match opt_value option with Some v => v | None => [] end in
        (true,
         edges ++ read_edges (Z.to_nat (u8 (opt_length option) / 4)) ptr)
  end.

(** [TCP::add_mss_option] and [TCP::add_winscale_option]. *)
Definition add_mss_option (value : Z) (t : TCP) : TCP :=
  let m := Utils.net_order_s value in
  add_option MSS x02 [fst m; snd m] t.

Definition add_winscale_option (value : byte) (t : TCP) : TCP :=
  add_option WSCALE x01 [value] t.

(** ** The derived sizes, as the spec words them *)

(** The sum of [length + 2] over the stored options. *)
Definition raw_size (opts : list TCPOption) : Z :=
  fold_right (fun o acc => u8 (opt_length o) + 2 + acc) 0 opts.

(** [n] rounded up to the next multiple of 4. *)
Definition round_up4 (n : Z) : Z := 4 * ((n + 3) / 4).

(** The counters of a segment agree with its option list. *)
Definition sizes_ok (t : TCP) : Prop :=
  _options_size t = raw_size (_options t)
  /\ _total_options_size t = round_up4 (raw_size (_options t)).

(** A sequence of insertions: kind, length and the memory [data] points to. *)
Definition add_options (adds : list (Z * byte * list byte)) (t : TCP) : TCP :=
  fold_left (fun t a => add_option (fst (fst a)) (snd (fst a)) (snd a) t)
            adds t.

(** ** Reading the serialized octets *)

(** The checksum field of a serialized segment: octets 16 and 17. *)
Definition check_bytes (bytes : list byte) : byte * byte :=
  (peek bytes 16, peek bytes 17).

(** The serialized segment with its checksum field put to zero: what the
    checksum is computed over. *)
Definition zero_check (bytes : list byte) : list byte :=
  firstn 16 bytes ++ [x00; x00] ++ skipn 18 bytes.

(** An option whose buffer holds no more than [length] octets; such are the
    options [add_option] stores. *)
Definition value_fits (o : TCPOption) : Prop :=
  match opt_value o with
  | Some v => Z.of_nat (length v) <= u8 (opt_length o)
  | None => True
  end.

(** ** The option scan, seen from outside *)

(** The loop heads the scan passes through: [scan_reaches s s'] when the
    [while] loop, started in [s], stands in [s'] after some turns. *)
Inductive scan_reaches (buffer : list byte) (header_end : Z)
  : scan_state -> scan_state -> Prop :=
| reaches_here (s : scan_state) : scan_reaches buffer header_end s s
| reaches_turn (s s' s'' : scan_state) :
    index s < header_end ->
    scan_body buffer header_end s = Done s' ->
    scan_reaches buffer header_end s' s'' ->
    scan_reaches buffer header_end s s''.

(** The octets [TCPOption::write] produces for an option that is not a
    NO_OP: kind, total length, value. *)
Definition encode_option (o : TCPOption) : list byte :=
  [to_u8 (opt_option o); to_u8 (u8 (opt_length o) + 2)]
  ++ match opt_value o with Some v => v | None => [] end.

Definition encode_options (opts : list TCPOption) : list byte :=
  flat_map encode_option opts.

(** The options [write] lays out as an entry of [length + 2] octets, the
    options the decoder stores among them: the kind is not NO_OP, the total
    length fits its octet and the value has [length] octets (a null pointer
    for length zero). *)
Definition plain (o : TCPOption) : Prop :=
  opt_option o <> NOP
  /\ u8 (opt_length o) + 2 < 256
  /\ match opt_value o with
     | Some v => Z.of_nat (length v) = u8 (opt_length o)
     | None => u8 (opt_length o) = 0
     end.

(** What holds at every loop head of the scan of [buffer], the memory
    behind the fixed header [tcp], over a region of [header_end] octets. *)
Record scan_inv (buffer : list byte) (header_end : Z) (tcp : tcphdr)
                (s : scan_state) : Prop := mk_scan_inv {
  inv_index : 0 <= index s <= header_end;
  inv_args0 : u8 (args0 s) <> NOP;
  inv_sizes : sizes_ok (scanned s);
  inv_consumed : _options_size (scanned s) <= index s;
  inv_encoded :
    _options_size (scanned s) = index s ->
    firstn (Z.to_nat (index s)) buffer = encode_options (_options (scanned s));
  inv_plain : Forall plain (_options (scanned s));
  inv_tcp : _tcp (scanned s) = tcp;
  inv_inner : inner_pdu (scanned s) = None
}.

(** ** Flags: [get_flag] and [set_flag] *)

(** Modelled from the spec: enum Flags is declared in tcp.h, which is not
    part of the sources.  The eight flags are those of section 3 of the
    spec; [Flag_other] stands for any other value of the enumeration type,
    for which the [switch] statements have no case. *)
Inductive Flags : Type :=
| FIN | SYN | RST | PSH | ACK | URG | ECE | CWR | Flag_other.

(** Modelled from the spec: the one-bit fields of struct tcphdr (tcp.h) are
    the bits of octet 13 in the standard order, fin in bit 0 up to cwr in
    bit 7.  Reading the field at bit [i] gives 0 or 1. *)
Definition get_bitfield (i : Z) (h : tcphdr) : byte :=
  if Z.testbit (u8 (h_flags h)) i then x01 else x00.

(** Modelled from the spec: the assignment of a [uint8_t] to the one-bit
    field at bit [i] keeps the low bit of the value. *)
Definition set_bitfield (i : Z) (value : byte) (h : tcphdr) : tcphdr :=
  mk_tcphdr (h_sport h) (h_dport h) (h_seq h) (h_ack_seq h) (h_doff_res1 h)
            (to_u8 (if Z.odd (u8 value)
                    then Z.setbit (u8 (h_flags h)) i
                    else Z.clearbit (u8 (h_flags h)) i))
            (h_window h) (h_check h) (h_urg_ptr h).

(** [TCP::get_flag(Flags tcp_flag)]. *)
Definition get_flag (tcp_flag : Flags) (t : TCP) : byte :=
  match tcp_flag with
  | FIN => get_bitfield 0 (_tcp t)
  | SYN => get_bitfield 1 (_tcp t)
  | RST => get_bitfield 2 (_tcp t)
  | PSH => get_bitfield 3 (_tcp t)
  | ACK => get_bitfield 4 (_tcp t)
  | URG => get_bitfield 5 (_tcp t)
  | ECE => get_bitfield 6 (_tcp t)
  | CWR => get_bitfield 7 (_tcp t)
  | Flag_other => x00
  end.

(** [TCP::set_flag(Flags tcp_flag, uint8_t value)]. *)
Definition set_flag (tcp_flag : Flags) (value : byte) (t : TCP) : TCP :=
  match tcp_flag with
  | FIN => with_tcp (set_bitfield 0 value (_tcp t)) t
  | SYN => with_tcp (set_bitfield 1 value (_tcp t)) t
  | RST => with_tcp (set_bitfield 2 value (_tcp t)) t
  | PSH => with_tcp (set_bitfield 3 value (_tcp t)) t
  | ACK => with_tcp (set_bitfield 4 value (_tcp t)) t
  | URG => with_tcp (set_bitfield 5 value (_tcp t)) t
  | ECE => with_tcp (set_bitfield 6 value (_tcp t)) t
  | CWR => with_tcp (set_bitfield 7 value (_tcp t)) t
  | Flag_other => t
  end.

(** ** More typed options *)

(** [TCP::add_sack_permitted_option()] and
    [TCP::search_sack_permitted_option()], whose result is the pointer
    [search_option] returns, converted to [bool]. *)
Definition add_sack_permitted_option (t : TCP) : TCP :=
  add_option SACK_OK x00 [] t.

Definition search_sack_permitted_option (t : TCP) : bool :=
  match search_option SACK_OK t with
  | Some _ => true
  | None => false
  end.

(** [TCP::add_timestamp_option(uint32_t value, uint32_t reply)].  The eight
    octets handed to [add_option] are the memory of the local [uint64_t],
    whose high word is the converted [reply] and whose low word is the
    converted [value]: on a little-endian host the low word comes first in
    memory, on a big-endian host the high word.  [little_endian] tells which
    host the code runs on. *)
Definition add_timestamp_option (little_endian : bool) (value reply : Z)
                                (t : TCP) : TCP :=
  let buffer :=
    if little_endian
    then Utils.net_order_l value ++ Utils.net_order_l reply
    else Utils.net_order_l reply ++ Utils.net_order_l value in
  add_option TSOPT x08 buffer t.

(** [TCP::search_timestamp_option(uint32_t *value, uint32_t *reply)]:
    [None] when the function returns false, otherwise the two values it
    writes through its arguments. *)
Definition search_timestamp_option (t : TCP) : option (Z * Z) :=
  match search_option TSOPT t with
  | None => None
  | Some option =>
      if negb (u8 (opt_length option) =? 8) then None
      else
        let ptr := match opt_value option with Some v => v | None => [] end in
        Some (Utils.host_l ptr, Utils.host_l (skipn 4 ptr))
  end.

(** [TCP::payload(uint8_t *new_payload, uint32_t new_payload_size)]. *)
Definition payload (new_payload : list byte) (new_payload_size : Z)
                   (t : TCP) : TCP :=
  set_inner_pdu (Some (RawPDU new_payload new_payload_size)) t.

(** ** The stored form of an option *)

(** The form in which the decoder stores an entry: the kind is an octet
    other than NO_OP and END_OF_OPTIONS, and the value is a buffer of
    [length] octets, or the null pointer when [length] is zero. *)
Definition stored_form (o : TCPOption) : Prop :=
  0 <= opt_option o < 256
  /\ opt_option o <> NOP
  /\ opt_option o <> EOL
  /\ match opt_value o with
     | Some v => Z.of_nat (length v) = u8 (opt_length o)
                 /\ u8 (opt_length o) <> 0
     | None => u8 (opt_length o) = 0
     end.

(** The octets of an options region that the scan passes without storing
    anything: NO_OP octets, and behind them possibly an END_OF_OPTIONS
    octet followed by at least one more octet. *)
Definition filler (fill : list byte) : Prop :=
  exists pad : nat,
    fill = repeat x01 pad
    \/ exists (b : byte) (junk : list byte),
         fill = repeat x01 pad ++ x00 :: b :: junk.

(** ** Example inputs *)

(** A fixed header with ports 443 and 80, the given octet 12 (data offset
    and reserved bits) and the given checksum field. *)
Definition example_header (doff_res1 : byte) (chk : byte * byte) : list byte :=
  [x01; xbb; x00; x50; x00; x00; x00; x01; x00; x00; x00; x02;
   doff_res1; x12; x7f; xa6; fst chk; snd chk; x00; x00].

(** * Properties *)

(** ** Octets and machine integers *)

Lemma u8_range (b : byte) : 0 <= u8 b < 256.
Proof.
  unfold u8. pose proof (Byte.to_N_bounded b) as H. lia.
Qed.

Lemma to_u8_u8 (b : byte) : to_u8 (u8 b) = b.
Proof.
  unfold to_u8. pose proof (u8_range b) as H.
  rewrite Z.mod_small by exact H. unfold u8.
  rewrite N2Z.id, Byte.of_to_N. reflexivity.
Qed.

Lemma u8_to_u8 (z : Z) : u8 (to_u8 z) = z mod 256.
Proof.
  unfold to_u8, u8.
  pose proof (Z.mod_pos_bound z 256 ltac:(lia)) as H.
  destruct (Byte.of_N (Z.to_N (z mod 256))) as [b|] eqn:E.
  - apply Byte.to_of_N in E. rewrite E. lia.
  - apply Byte.of_N_None_iff in E. lia.
Qed.

Lemma u32_small (z : Z) : 0 <= z < 2 ^ 32 -> u32 z = z.
Proof. intros H. unfold u32. apply Z.mod_small. exact H. Qed.

Lemma get_doff_range (h : tcphdr) : 0 <= get_doff h <= 15.
Proof.
  unfold get_doff. pose proof (u8_range (h_doff_res1 h)) as H.
  rewrite Z.shiftr_div_pow2 by lia. change (2 ^ 4) with 16.
  split.
  - apply Z.div_pos; lia.
  - apply Z.lt_succ_r. apply Z.div_lt_upper_bound; lia.
Qed.

(** ** Decoding a buffer that is too short for the fixed header *)

Lemma TCP_buffer_short (buffer : list byte) :
  Z.of_nat (length buffer) < 20 -> TCP_buffer buffer = Throw err_header.
Proof.
  intros H. unfold TCP_buffer, sizeof_tcphdr.
  destruct (Z.ltb_spec (Z.of_nat (length buffer)) 20) as [_|Hge];
    [reflexivity|lia].
Qed.

(** C8: a buffer of fewer than 20 octets is refused with the exception of
    line 54; the result is the exception alone, it carries no segment and
    no options. *)
Theorem TCP_buffer_too_short (buffer : list byte) :
  Z.of_nat (length buffer) < 20 ->
  TCP_buffer buffer = Throw err_header
  /\ ~ (exists t, TCP_buffer buffer = Done t).
Proof.
  intros H. rewrite (TCP_buffer_short buffer H).
  split; [reflexivity|]. intros [t Ht]. discriminate Ht.
Qed.

Lemma TCP_buffer_too_short_witness :
  Z.of_nat (length [x00; x50; x01; xbb]) < 20
  /\ TCP_buffer [x00; x50; x01; xbb] = Throw err_header.
Proof.
  split; [simpl; lia|].
  apply (TCP_buffer_too_short [x00; x50; x01; xbb]). simpl; lia.
Defined.

(** ** Decoding a buffer whose data offset claims absent option octets *)

(** C2, as the code has it: when the header declares more option octets
    than the buffer holds behind the fixed header, the guard of line 64
    skips the scan; the decoder returns a segment without options whose
    payload is everything behind the fixed header. *)
Theorem TCP_buffer_options_missing (buffer : list byte) :
  20 <= Z.of_nat (length buffer) ->
  Z.of_nat (length buffer) - 20
    < get_doff (tcphdr_of_bytes buffer) * 4 - 20 ->
  TCP_buffer buffer =
    Done (mk_TCP (tcphdr_of_bytes buffer) [] 0 0
            (if Z.of_nat (length buffer) =? 20 then None
             else Some (skipn 20 buffer))).
Proof.
  remember (Z.of_nat (length buffer)) as n eqn:En.
  remember (get_doff (tcphdr_of_bytes buffer)) as doff eqn:Ed.
  intros Hn Hlt.
  unfold TCP_buffer, sizeof_tcphdr, header_end_of, sizeof_tcphdr.
  rewrite <- En, <- Ed.
  pose proof (get_doff_range (tcphdr_of_bytes buffer)) as Hd.
  rewrite <- Ed in Hd.
  destruct (Z.ltb_spec n 20) as [Hc|_]; [lia|].
  rewrite (u32_small (n - 20)) by lia.
  rewrite (u32_small (doff * 4 - 20)) by lia.
  destruct (Z.leb_spec (doff * 4 - 20) (n - 20)) as [Hc|_]; [lia|].
  cbn [bind scan_init scanned]. rewrite Z.sub_0_r.
  rewrite (u32_small (n - 20)) by lia.
  destruct (Z.eqb_spec (n - 20) 0) as [E|E].
  - replace (n =? 20) with true by (symmetry; apply Z.eqb_eq; lia).
    reflexivity.
  - replace (n =? 20) with false by (symmetry; apply Z.eqb_neq; lia).
    unfold set_inner_pdu, RawPDU, memcpy_from. cbn.
    rewrite firstn_all2; [reflexivity|].
    rewrite length_skipn. lia.
Qed.

Lemma TCP_buffer_options_missing_witness :
  TCP_buffer (example_header x60 (x12, x34) ++ [x02; x04]) =
    Done (mk_TCP (tcphdr_of_bytes (example_header x60 (x12, x34)))
                 [] 0 0 (Some [x02; x04])).
Proof.
  apply (TCP_buffer_options_missing
           (example_header x60 (x12, x34) ++ [x02; x04]));
    vm_compute; [discriminate | reflexivity].
Defined.

(** C2 as stated fails: a 20-octet buffer whose data offset is 6 claims four
    option octets that are not there, and the decoder returns a segment. *)
Lemma TCP_buffer_options_missing_returns :
  20 <= Z.of_nat (length (example_header x60 (x12, x34)))
  /\ Z.of_nat (length (example_header x60 (x12, x34))) - 20
     < get_doff (tcphdr_of_bytes (example_header x60 (x12, x34))) * 4 - 20
  /\ TCP_buffer (example_header x60 (x12, x34))
     = Done (mk_TCP (tcphdr_of_bytes (example_header x60 (x12, x34)))
                   [] 0 0 None)
  /\ ~ (exists what,
          TCP_buffer (example_header x60 (x12, x34)) = Throw what).
Proof.
  vm_compute. repeat split; try discriminate.
  intros [what H]. discriminate H.
Qed.

(** ** The derived sizes after insertions *)

Lemma raw_size_app (l1 l2 : list TCPOption) :
  raw_size (l1 ++ l2) = raw_size l1 + raw_size l2.
Proof.
  induction l1 as [|o l1 IH]; simpl; [reflexivity|].
  fold (raw_size (l1 ++ l2)). fold (raw_size l1). lia.
Qed.

Lemma raw_size_nonneg (l : list TCPOption) : 0 <= raw_size l.
Proof.
  induction l as [|o l IH]; simpl; [lia|].
  fold (raw_size l). pose proof (u8_range (opt_length o)). lia.
Qed.

Lemma round_up4_spec (n : Z) :
  0 <= round_up4 n - n <= 3 /\ round_up4 n mod 4 = 0.
Proof.
  unfold round_up4. split.
  - Z.div_mod_to_equations. lia.
  - rewrite Z.mul_comm. apply Z.mod_mul. lia.
Qed.

(** What line 287 and line 288 compute is the rounding of the spec. *)
Lemma padding_round_up4 (n : Z) :
  (if u8 (to_u8 (Z.land n 3)) =? 0 then n
   else n - u8 (to_u8 (Z.land n 3)) + 4) = round_up4 n.
Proof.
  change 3 with (Z.ones 2). rewrite Z.land_ones by lia.
  change (2 ^ 2) with 4.
  pose proof (Z.mod_pos_bound n 4 ltac:(lia)) as Hm.
  rewrite u8_to_u8, Z.mod_small by lia.
  unfold round_up4.
  destruct (Z.eqb_spec (n mod 4) 0) as [E|E];
    Z.div_mod_to_equations; lia.
Qed.

Lemma add_option_fields (tcp_option : Z) (len : byte) (data : list byte)
                        (t : TCP) :
  _options_size (add_option tcp_option len data t)
    = _options_size t + (u8 len + 2)
  /\ _total_options_size (add_option tcp_option len data t)
    = round_up4 (_options_size t + (u8 len + 2))
  /\ _options (add_option tcp_option len data t)
    = _options t
      ++ [mk_TCPOption tcp_option len
            (if u8 len =? 0 then None else Some (memcpy_from data (u8 len)))]
  /\ _tcp (add_option tcp_option len data t) = _tcp t
  /\ inner_pdu (add_option tcp_option len data t) = inner_pdu t.
Proof.
  unfold add_option. cbn [_options_size _total_options_size _options _tcp inner_pdu].
  rewrite padding_round_up4. repeat split.
Qed.

Lemma add_option_sizes_ok (tcp_option : Z) (len : byte) (data : list byte)
                          (t : TCP) :
  sizes_ok t -> sizes_ok (add_option tcp_option len data t).
Proof.
  intros [Hr Hp].
  destruct (add_option_fields tcp_option len data t) as (E1 & E2 & E3 & _).
  unfold sizes_ok. rewrite E1, E2, E3, raw_size_app, <- Hr.
  cbn [raw_size fold_right opt_length]. split; [lia|f_equal; lia].
Qed.

Lemma add_options_sizes_ok (adds : list (Z * byte * list byte)) (t : TCP) :
  sizes_ok t -> sizes_ok (add_options adds t).
Proof.
  revert t. induction adds as [|a adds IH]; intros t H; [exact H|].
  cbn [add_options fold_left]. apply IH. apply add_option_sizes_ok. exact H.
Qed.

Lemma TCP_ports_sizes_ok (dport_ sport_ : Z) : sizes_ok (TCP_ports dport_ sport_).
Proof. split; reflexivity. Qed.

(** C6: after any sequence of insertions into a segment whose counters
    agree with its options (a freshly constructed one, for instance),
    [_options_size] is the sum of [length + 2] over the stored options,
    [_total_options_size] is that sum rounded up to the next multiple of 4,
    their difference lies between 0 and 3 and the padded size is a multiple
    of 4.  One insertion is the sequence of length one. *)
Theorem add_option_size_invariant (adds : list (Z * byte * list byte))
                                  (t : TCP) :
  sizes_ok t ->
  _options_size (add_options adds t) = raw_size (_options (add_options adds t))
  /\ _total_options_size (add_options adds t)
     = round_up4 (_options_size (add_options adds t))
  /\ 0 <= _total_options_size (add_options adds t)
          - _options_size (add_options adds t) <= 3
  /\ _total_options_size (add_options adds t) mod 4 = 0.
Proof.
  intros H. destruct (add_options_sizes_ok adds t H) as [Hr Hp].
  rewrite Hp, Hr.
  pose proof (round_up4_spec (raw_size (_options (add_options adds t)))).
  tauto.
Qed.

Lemma add_option_size_invariant_witness :
  _options_size (add_options [(MSS, x02, [x05; xb4]); (WSCALE, x01, [x07])]
                             (TCP_ports 80 443)) = 7
  /\ _total_options_size
       (add_options [(MSS, x02, [x05; xb4]); (WSCALE, x01, [x07])]
                    (TCP_ports 80 443)) = 8.
Proof.
  destruct (add_option_size_invariant
              [(MSS, x02, [x05; xb4]); (WSCALE, x01, [x07])]
              (TCP_ports 80 443) (TCP_ports_sizes_ok 80 443))
    as (Hr & Hp & _).
  split; [rewrite Hr | rewrite Hp, Hr]; vm_compute; reflexivity.
Defined.

(** The bounds alone hold after an insertion into any segment at all. *)
Lemma add_option_padding_bounds (tcp_option : Z) (len : byte)
                                (data : list byte) (t : TCP) :
  0 <= _total_options_size (add_option tcp_option len data t)
       - _options_size (add_option tcp_option len data t) <= 3
  /\ _total_options_size (add_option tcp_option len data t) mod 4 = 0.
Proof.
  destruct (add_option_fields tcp_option len data t) as (E1 & E2 & _).
  rewrite E2, E1. apply round_up4_spec.
Qed.

(** ** Copying *)

Lemma copy_option_id (o : TCPOption) : value_fits o -> copy_option o = o.
Proof.
  destruct o as [k l [v|]]; unfold value_fits, copy_option, memcpy_from;
    cbn [opt_value opt_length opt_option]; intros H; [|reflexivity].
  rewrite firstn_all2 by lia. reflexivity.
Qed.

Lemma map_copy_option_id (opts : list TCPOption) :
  Forall value_fits opts -> map copy_option opts = opts.
Proof.
  induction 1 as [|o opts Ho _ IH]; simpl; [reflexivity|].
  rewrite copy_option_id, IH by exact Ho. reflexivity.
Qed.

(** The copy constructor and [clone_pdu] start from an empty option list:
    the copy holds the options of the source, and nothing else. *)
Lemma TCP_copy_options (other : TCP) :
  Forall value_fits (_options other) ->
  _options (TCP_copy other) = _options other
  /\ _options (clone_pdu other) = _options other.
Proof.
  intros H. unfold TCP_copy, clone_pdu, copy_fields.
  cbn [_options PDU_copy set_inner_pdu TCP_members TCP_ports app].
  rewrite map_copy_option_id by exact H. split; reflexivity.
Qed.

(** The assignment does not empty the destination first: the copies are
    appended to what it holds, and the counters are those of the source. *)
Lemma operator_assign_options (other this : TCP) :
  _options (operator_assign other this)
    = _options this ++ map copy_option (_options other)
  /\ _options_size (operator_assign other this) = _options_size other
  /\ _total_options_size (operator_assign other this)
     = _total_options_size other.
Proof. repeat split. Qed.

(** C5, the failing input: a segment holding an MSS option is assigned a
    segment holding a window-scale option.  Afterwards the destination
    holds both options, not the one option of the source, while its
    counters are those of the source (3 and 4) and no longer those of its
    own list (7 and 8). *)
Theorem operator_assign_keeps_old_options :
  _options (operator_assign (add_winscale_option x07 (TCP_ports 22 1024))
                            (add_mss_option 1460 (TCP_ports 80 443)))
  = [mk_TCPOption MSS x02 (Some [x05; xb4]);
     mk_TCPOption WSCALE x01 (Some [x07])]
  /\ _options (add_winscale_option x07 (TCP_ports 22 1024))
     = [mk_TCPOption WSCALE x01 (Some [x07])]
  /\ _options_size
       (operator_assign (add_winscale_option x07 (TCP_ports 22 1024))
                        (add_mss_option 1460 (TCP_ports 80 443))) = 3
  /\ raw_size
       (_options
          (operator_assign (add_winscale_option x07 (TCP_ports 22 1024))
                           (add_mss_option 1460 (TCP_ports 80 443)))) = 7.
Proof. vm_compute. repeat split. Qed.

(** ** The SACK option *)

Lemma find_app_None {A : Type} (f : A -> bool) (l1 l2 : list A) :
  find f l1 = None -> find f (l1 ++ l2) = find f l2.
Proof.
  induction l1 as [|a l1 IH]; simpl; [reflexivity|].
  destruct (f a); [discriminate | exact IH].
Qed.

Lemma host_l_net_order_l (e : Z) (rest : list byte) :
  0 <= e < 2 ^ 32 -> Utils.host_l (Utils.net_order_l e ++ rest) = e.
Proof.
  intros He. unfold Utils.host_l, Utils.net_order_l.
  cbn [app nth]. rewrite !u8_to_u8, !Z.shiftl_mul_pow2, !Z.shiftr_div_pow2 by lia.
  change (2 ^ 32) with 4294967296 in He.
  change (2 ^ 24) with 16777216. change (2 ^ 16) with 65536.
  change (2 ^ 8) with 256.
  Z.div_mod_to_equations. lia.
Qed.

Lemma read_edges_net_order (edges : list Z) (rest : list byte) :
  Forall (fun e => 0 <= e < 2 ^ 32) edges ->
  read_edges (length edges) (flat_map Utils.net_order_l edges ++ rest) = edges.
Proof.
  induction 1 as [|e edges He _ IH]; [reflexivity|].
  cbn [length read_edges flat_map]. rewrite <- app_assoc.
  rewrite host_l_net_order_l by exact He.
  f_equal. exact IH.
Qed.

Lemma length_flat_map_net_order_l (edges : list Z) :
  length (flat_map Utils.net_order_l edges) = (4 * length edges)%nat.
Proof.
  induction edges as [|e edges IH]; [reflexivity|].
  cbn [flat_map]. rewrite length_app, IH. simpl. lia.
Qed.

(** C7: on a segment that holds no SACK option yet, adding one with the
    list [edges] (32-bit values, 4 times their number below 256) and
    searching it appends exactly [edges], in order, to the caller's list; and
    the search of a SACK option whose stored length is no multiple of 4
    returns false and leaves the caller's list alone. *)
Theorem sack_option_round_trip (edges out : list Z) (t : TCP) :
  search_option SACK t = None ->
  Forall (fun e => 0 <= e < 2 ^ 32) edges ->
  4 * Z.of_nat (length edges) < 256 ->
  search_sack_option out (add_sack_option edges t) = (true, out ++ edges)
  /\ (forall (t' : TCP) (o : TCPOption),
        search_option SACK t' = Some o ->
        u8 (opt_length o) mod 4 <> 0 ->
        search_sack_option out t' = (false, out)).
Proof.
  intros Hnone Hedges Hlen. split.
  - unfold search_sack_option, add_sack_option, search_option.
    destruct (add_option_fields SACK (to_u8 (4 * Z.of_nat (length edges)))
                (if 0 <? Z.of_nat (length edges)
                 then flat_map Utils.net_order_l edges else []) t)
      as (_ & _ & -> & _).
    rewrite find_app_None by exact Hnone.
    cbn [find opt_option]. rewrite Z.eqb_refl. cbn [opt_length opt_value].
    rewrite !u8_to_u8.
    rewrite !(Z.mod_small (4 * Z.of_nat (length edges)) 256) by lia.
    rewrite Z.mul_comm, Z.mod_mul by lia. cbn [Z.eqb negb].
    rewrite Z.div_mul by lia. rewrite Nat2Z.id.
    destruct edges as [|e edges]; [reflexivity|].
    replace (Z.of_nat (length (e :: edges)) * 4 =? 0) with false
      by (symmetry; apply Z.eqb_neq; cbn [length]; lia).
    replace (0 <? Z.of_nat (length (e :: edges))) with true
      by (symmetry; apply Z.ltb_lt; cbn [length]; lia).
    unfold memcpy_from. rewrite firstn_all2.
    + rewrite <- (app_nil_r (flat_map _ _)).
      rewrite read_edges_net_order by exact Hedges. reflexivity.
    + rewrite length_flat_map_net_order_l. lia.
  - intros t' o Hfind Hmod. unfold search_sack_option. rewrite Hfind.
    destruct (Z.eqb_spec (u8 (opt_length o) mod 4) 0) as [E|_];
      [contradiction | reflexivity].
Qed.

Lemma sack_option_round_trip_witness :
  search_sack_option [] (add_sack_option [100; 200; 300; 400]
                                         (TCP_ports 80 443))
  = (true, [100; 200; 300; 400]).
Proof.
  refine (proj1 (sack_option_round_trip [100; 200; 300; 400] []
                   (TCP_ports 80 443) _ _ _)).
  - reflexivity.
  - repeat constructor; lia.
  - simpl; lia.
Defined.

(** ** Writes into the destination region *)

Lemma store_inv (buffer : list byte) (pos : Z) (src out : list byte) :
  store buffer pos src = Done out ->
  0 <= pos
  /\ pos + Z.of_nat (length src) <= Z.of_nat (length buffer)
  /\ out = firstn (Z.to_nat pos) buffer ++ src
           ++ skipn (Z.to_nat pos + length src) buffer.
Proof.
  unfold store.
  destruct (Z.leb_spec 0 pos); cbn [andb]; [|discriminate].
  destruct (Z.leb_spec (pos + Z.of_nat (length src)) (Z.of_nat (length buffer)));
    [|discriminate].
  intros [= <-]. repeat split; assumption.
Qed.

Lemma store_length (buffer : list byte) (pos : Z) (src out : list byte) :
  store buffer pos src = Done out -> length out = length buffer.
Proof.
  intros H. apply store_inv in H. destruct H as (H0 & H1 & ->).
  rewrite !length_app, length_firstn, length_skipn. lia.
Qed.

Lemma store_in_range (buffer : list byte) (pos : Z) (src : list byte) :
  0 <= pos ->
  pos + Z.of_nat (length src) <= Z.of_nat (length buffer) ->
  store buffer pos src
  = Done (firstn (Z.to_nat pos) buffer ++ src
          ++ skipn (Z.to_nat pos + length src) buffer).
Proof.
  intros H0 H1. unfold store.
  destruct (Z.leb_spec 0 pos); [|lia].
  destruct (Z.leb_spec (pos + Z.of_nat (length src)) (Z.of_nat (length buffer)));
    [reflexivity|lia].
Qed.

Lemma host_s_zero (m : byte * byte) :
  Utils.host_s m = 0 -> m = (x00, x00).
Proof.
  destruct m as [a b]. unfold Utils.host_s. cbn [fst snd].
  rewrite Z.shiftl_mul_pow2 by lia. change (2 ^ 8) with 256.
  pose proof (u8_range a) as Ra. pose proof (u8_range b) as Rb. intros H.
  assert (Ha : u8 a = 0) by lia. assert (Hb : u8 b = 0) by lia.
  rewrite <- (to_u8_u8 a), <- (to_u8_u8 b), Ha, Hb. reflexivity.
Qed.

Lemma bind_Done_inv {A B : Type} (m : outcome A) (k : A -> outcome B) (r : B) :
  bind m k = Done r -> exists a, m = Done a /\ k a = Done r.
Proof.
  destruct m as [a| | |]; cbn [bind]; try discriminate.
  intros H. exists a. split; [reflexivity | exact H].
Qed.

Lemma set_doff_check (v : Z) (h : tcphdr) : h_check (set_doff v h) = h_check h.
Proof. reflexivity. Qed.

(** ** Writing the options *)

(** A write that replaces the octets [old] standing behind [pre]. *)
Lemma store_app (pre old post src : list byte) :
  length old = length src ->
  store (pre ++ old ++ post) (Z.of_nat (length pre)) src
  = Done (pre ++ src ++ post).
Proof.
  intros Hlen. rewrite store_in_range.
  - rewrite Nat2Z.id. rewrite firstn_app, firstn_all, Nat.sub_diag.
    cbn [firstn]. rewrite app_nil_r.
    rewrite skipn_app, skipn_all2 by lia. cbn [app].
    replace (length pre + length src - length pre)%nat with (length old) by lia.
    rewrite skipn_app, skipn_all, Nat.sub_diag. reflexivity.
  - lia.
  - rewrite !length_app. lia.
Qed.

Lemma peek_app (pre post : list byte) (b : byte) :
  peek (pre ++ b :: post) (Z.of_nat (length pre)) = b.
Proof. unfold peek. rewrite Nat2Z.id. apply nth_middle. Qed.

(** [write] on an option the decoder stores puts the octets of the entry in
    place of [old] and returns the pointer behind them. *)
Lemma TCPOption_write_plain (o : TCPOption) (pre old post : list byte) :
  plain o ->
  Z.of_nat (length old) = u8 (opt_length o) + 2 ->
  TCPOption_write o (pre ++ old ++ post) (Z.of_nat (length pre))
  = Done (pre ++ encode_option o ++ post,
          Z.of_nat (length pre) + (u8 (opt_length o) + 2)).
Proof.
  intros (Hk & Hfit & Hv) Hold.
  pose proof (u8_range (opt_length o)) as Rl.
  destruct old as [|o0 [|o1 ov]]; cbn [length] in Hold; try lia.
  unfold TCPOption_write, encode_option.
  destruct (Z.eqb_spec (opt_option o) 1) as [E|_]; [contradiction|].
  change (pre ++ (o0 :: o1 :: ov) ++ post)
    with (pre ++ [o0] ++ (o1 :: ov ++ post)).
  rewrite store_app by reflexivity. cbn [bind].
  set (k := to_u8 (opt_option o)).
  set (l := to_u8 (u8 (opt_length o) + 2)).
  replace (pre ++ [k] ++ o1 :: ov ++ post)
    with ((pre ++ [k]) ++ [o1] ++ (ov ++ post))
    by (rewrite <- app_assoc; reflexivity).
  replace (Z.of_nat (length pre) + 1) with (Z.of_nat (length (pre ++ [k])))
    by (rewrite length_app; cbn [length]; lia).
  rewrite store_app by reflexivity. cbn [bind].
  assert (Hl : u8 l = u8 (opt_length o) + 2).
  { unfold l. rewrite u8_to_u8. apply Z.mod_small. lia. }
  assert (Hpeek : forall rest, peek ((pre ++ [k]) ++ [l] ++ rest)
                                    (Z.of_nat (length (pre ++ [k]))) = l).
  { intros rest. apply (peek_app (pre ++ [k]) rest l). }
  destruct (opt_value o) as [v|].
  - unfold memcpy_from. rewrite firstn_all2 by lia.
    replace ((pre ++ [k]) ++ [l] ++ ov ++ post)
      with ((pre ++ [k; l]) ++ ov ++ post)
      by (rewrite <- !app_assoc; reflexivity).
    replace (Z.of_nat (length pre) + 2)
      with (Z.of_nat (length (pre ++ [k; l])))
      by (rewrite length_app; cbn [length]; lia).
    rewrite store_app by lia. cbn [bind].
    replace ((pre ++ [k; l]) ++ v ++ post)
      with ((pre ++ [k]) ++ [l] ++ (v ++ post))
      by (rewrite <- !app_assoc; reflexivity).
    rewrite Hpeek, Hl. rewrite <- !app_assoc. reflexivity.
  - cbn [bind].
    assert (ov = []) as ->
      by (destruct ov; [reflexivity | cbn [length] in Hold; lia]).
    rewrite Hpeek, Hl. rewrite <- !app_assoc. reflexivity.
Qed.

Lemma write_options_plain (opts : list TCPOption) (pre old post : list byte) :
  Forall plain opts ->
  Z.of_nat (length old) = raw_size opts ->
  write_options opts (pre ++ old ++ post) (Z.of_nat (length pre))
  = Done (pre ++ encode_options opts ++ post,
          Z.of_nat (length pre) + raw_size opts).
Proof.
  intros Hplain. revert pre old.
  induction Hplain as [|o opts Ho _ IH]; intros pre old Hold;
    cbn [write_options raw_size fold_right encode_options flat_map] in *.
  - destruct old; [|cbn [length] in Hold; lia].
    rewrite Z.add_0_r. reflexivity.
  - fold (raw_size opts) in *. fold (encode_options opts).
    pose proof (raw_size_nonneg opts) as Hnn.
    pose proof (u8_range (opt_length o)) as Rl.
    rewrite <- (firstn_skipn (Z.to_nat (u8 (opt_length o) + 2)) old).
    set (old1 := firstn (Z.to_nat (u8 (opt_length o) + 2)) old).
    set (old2 := skipn (Z.to_nat (u8 (opt_length o) + 2)) old).
    assert (H1 : Z.of_nat (length old1) = u8 (opt_length o) + 2).
    { unfold old1. rewrite length_firstn. lia. }
    assert (H2 : Z.of_nat (length old2) = raw_size opts).
    { unfold old2. rewrite length_skipn. lia. }
    rewrite <- (app_assoc old1 old2 post).
    rewrite (TCPOption_write_plain o pre old1 (old2 ++ post) Ho H1).
    cbn [bind].
    replace (pre ++ encode_option o ++ old2 ++ post)
      with ((pre ++ encode_option o) ++ old2 ++ post)
      by (rewrite <- app_assoc; reflexivity).
    assert (Henc : Z.of_nat (length (encode_option o))
                   = u8 (opt_length o) + 2).
    { unfold encode_option. rewrite length_app. cbn [length].
      destruct Ho as (_ & _ & Hv). destruct (opt_value o); cbn [length]; lia. }
    replace (Z.of_nat (length pre) + (u8 (opt_length o) + 2))
      with (Z.of_nat (length (pre ++ encode_option o)))
      by (rewrite length_app; lia).
    rewrite (IH (pre ++ encode_option o) old2 H2).
    rewrite <- !app_assoc. do 2 f_equal.
    rewrite length_app. lia.
Qed.

(** ** The carry fold of the checksum *)

(** The loop of lines 316 and 317 ends within two turns on any 32-bit sum and
    leaves a 16-bit value. *)
Lemma fold_carries_returns (c : Z) :
  0 <= c < 2 ^ 32 ->
  exists c', fold_carries 2 c = Done c' /\ 0 <= c' < 2 ^ 16.
Proof.
  intros Hc.
  assert (Hstep : forall x, Z.land x 65535 = x mod 65536).
  { intros x. change 65535 with (Z.ones 16).
    rewrite Z.land_ones by lia. reflexivity. }
  assert (Hsh : forall x, Z.shiftr x 16 = x / 65536).
  { intros x. rewrite Z.shiftr_div_pow2 by lia. reflexivity. }
  cbn [fold_carries]. rewrite !Hsh, !Hstep.
  destruct (Z.eqb_spec (c / 65536) 0) as [E0|E0].
  { exists c. split; [reflexivity|].
    change (2 ^ 16) with 65536. Z.div_mod_to_equations. lia. }
  set (c1 := c mod 65536 + c / 65536).
  assert (H1 : 0 <= c1 <= 131070).
  { unfold c1. change (2 ^ 32) with 4294967296 in Hc.
    Z.div_mod_to_equations. lia. }
  destruct (Z.eqb_spec (c1 / 65536) 0) as [E1|E1].
  { exists c1. split; [reflexivity|].
    change (2 ^ 16) with 65536. Z.div_mod_to_equations. lia. }
  set (c2 := c1 mod 65536 + c1 / 65536).
  assert (H2 : 0 <= c2 < 65536).
  { unfold c2. Z.div_mod_to_equations. lia. }
  replace (c2 / 65536 =? 0) with true.
  - exists c2. split; [reflexivity | exact H2].
  - symmetry. apply Z.eqb_eq. apply Z.div_small. exact H2.
Qed.

Lemma u32_range (z : Z) : 0 <= u32 z < 2 ^ 32.
Proof. unfold u32. apply Z.mod_pos_bound. lia. Qed.

Section SerializationFacts.

Variable pseudoheader_checksum : Z -> Z -> Z -> Z -> Z.
Variable do_checksum : list byte -> Z.

Local Notation "'checksum_of'" :=
  (computed_check pseudoheader_checksum do_checksum).
Local Notation "'write_ser'" :=
  (write_serialization pseudoheader_checksum do_checksum).
Local Notation "'ser'" := (serialize pseudoheader_checksum do_checksum).

(** Computing the checksum always returns. *)
Lemma computed_check_returns (ip : IP) (t : TCP) (buffer : list byte) :
  exists c, checksum_of ip t buffer = Done c.
Proof.
  unfold computed_check.
  destruct (fold_carries_returns
              (u32 (pseudoheader_checksum (src_addr ip) (dst_addr ip)
                      (size t) PROTO_TCP + do_checksum buffer))
              (u32_range _)) as (c' & -> & _).
  cbn [bind]. eexists. reflexivity.
Qed.

(** C9, as the code has it: the constructor takes the destination port
    first, and the wire has the source port first.  The segment built with
    (80, 443) has destination port 80 and source port 443; it serializes,
    under any parent, to 20 octets that begin 01 BB 00 50; octet 12 is 50
    (data offset 5); [header_size()] is 20 and the window is 32678. *)
Theorem TCP_ports_80_443_serialized (parent : option PDU) :
  exists bytes t',
    ser (TCP_ports 80 443) parent = Done (bytes, t')
    /\ firstn 4 bytes = [x01; xbb; x00; x50]
    /\ length bytes = 20%nat
    /\ peek bytes 12 = x50
    /\ get_data_offset t' = 5
    /\ header_size (TCP_ports 80 443) = 20
    /\ get_window (TCP_ports 80 443) = 32678
    /\ get_dport (TCP_ports 80 443) = 80
    /\ get_sport (TCP_ports 80 443) = 443.
Proof.
  assert (Hser : exists c1 c2 t',
            ser (TCP_ports 80 443) parent
            = Done ([x01; xbb; x00; x50; x00; x00; x00; x00; x00; x00; x00;
                     x00; x50; x00; x7f; xa6; c1; c2; x00; x00], t')
            /\ get_data_offset t' = 5).
  { unfold serialize, write_serialization.
    destruct (dynamic_cast_IP parent) as [ip|] eqn:Ecast.
    - cbn -[computed_check].
      repeat match goal with
      | |- context [Z.ltb ?a ?b] =>
          let r := eval vm_compute in (Z.ltb a b) in change (Z.ltb a b) with r
      | |- context [store ?a ?b ?c] =>
          let r := eval vm_compute in (store a b c) in
          change (store a b c) with r
      end.
      cbn -[computed_check].
      match goal with
      | |- context [computed_check _ _ ?ip ?t ?b] =>
          destruct (computed_check_returns ip t b) as [[c1 c2] ->]
      end.
      cbn. do 3 eexists. split; reflexivity.
    - cbn. do 3 eexists. split; reflexivity. }
  destruct Hser as (c1 & c2 & t' & Hser & Hdoff).
  exists [x01; xbb; x00; x50; x00; x00; x00; x00; x00; x00; x00;
          x00; x50; x00; x7f; xa6; c1; c2; x00; x00], t'.
  repeat split; try assumption; reflexivity.
Qed.

End SerializationFacts.

(** C9 as stated fails: the octets do not begin 00 50 01 BB. *)
Lemma TCP_ports_80_443_not_dport_first :
  exists bytes t',
    serialize pseudo_header_sum ones_complement_sum (TCP_ports 80 443) None
    = Done (bytes, t')
    /\ firstn 4 bytes <> [x00; x50; x01; xbb].
Proof.
  do 2 eexists. split; [vm_compute; reflexivity | discriminate].
Qed.

(** The octets 00 50 01 BB are those of the segment built the other way
    round, with destination port 443 and source port 80. *)
Lemma TCP_ports_443_80_serialized :
  exists bytes t',
    serialize pseudo_header_sum ones_complement_sum (TCP_ports 443 80) None
    = Done (bytes, t')
    /\ firstn 4 bytes = [x00; x50; x01; xbb].
Proof.
  do 2 eexists. split; [vm_compute; reflexivity | reflexivity].
Qed.

(** ** The checksum field in the serialized octets *)

Section ChecksumFacts.

Variable pseudoheader_checksum : Z -> Z -> Z -> Z -> Z.
Variable do_checksum : list byte -> Z.

Local Notation "'checksum_of'" :=
  (computed_check pseudoheader_checksum do_checksum).
Local Notation "'write_ser'" :=
  (write_serialization pseudoheader_checksum do_checksum).

(** What a returning [write_serialization] leaves in octets 16 and 17 and
    in the stored header. *)
Lemma write_serialization_check (t : TCP) (buffer : list byte)
                                (parent : option PDU)
                                (out : list byte) (t' : TCP) :
  write_ser t buffer parent = Done (out, t') ->
  h_check (_tcp t') = (x00, x00)
  /\ _options t' = _options t
  /\ _options_size t' = _options_size t
  /\ _total_options_size t' = _total_options_size t
  /\ inner_pdu t' = inner_pdu t
  /\ match dynamic_cast_IP parent with
     | Some ip =>
         if get_check t =? 0
         then checksum_of ip t (zero_check out) = Done (check_bytes out)
         else check_bytes out = h_check (_tcp t)
     | None => check_bytes out = h_check (_tcp t)
     end.
Proof.
  unfold write_serialization.
  destruct (Z.of_nat (length buffer) <? header_size t); [discriminate|].
  intros H.
  apply bind_Done_inv in H. destruct H as ([b1 p1] & _ & H).
  apply bind_Done_inv in H. destruct H as ([b2 p2] & _ & H).
  apply bind_Done_inv in H. destruct H as (b3 & Hhdr & H).
  apply bind_Done_inv in H. destruct H as (b4 & Hchk & H).
  injection H as <- <-.
  split; [reflexivity|]. do 4 (split; [reflexivity|]).
  apply store_inv in Hhdr. destruct Hhdr as (_ & Hlen & ->).
  cbn [Z.to_nat firstn app length Nat.add tcphdr_bytes] in Hchk, Hlen |- *.
  rewrite !set_doff_check in *.
  unfold get_check.
  destruct (dynamic_cast_IP parent) as [ip|].
  - destruct (Z.eqb_spec (Utils.host_s (h_check (_tcp t))) 0) as [E|E].
    + apply host_s_zero in E.
      apply bind_Done_inv in Hchk. destruct Hchk as ([c1 c2] & Hc & Hst).
      apply store_inv in Hst. destruct Hst as (_ & _ & ->).
      rewrite E in Hc |- *. cbn [fst snd] in Hc |- *.
      unfold zero_check, check_bytes, peek. cbn. exact Hc.
    + injection Hchk as <-.
      unfold check_bytes, peek. cbn.
      destruct (h_check (_tcp t)); reflexivity.
  - injection Hchk as <-.
    unfold check_bytes, peek. cbn.
    destruct (h_check (_tcp t)); reflexivity.
Qed.

End ChecksumFacts.

(** ** The serializer returns *)

(** The padding loop on a counter that starts below a total below 256: it
    returns after [total - padding] turns. *)
Lemma write_padding_returns (fuel : nat) (padding : byte) (total : Z)
                            (buffer : list byte) (pos : Z) :
  u8 padding <= total < 256 ->
  total - u8 padding <= Z.of_nat fuel ->
  0 <= pos ->
  pos + (total - u8 padding) <= Z.of_nat (length buffer) ->
  exists b,
    write_padding fuel padding total buffer pos
    = Done (b, pos + (total - u8 padding))
    /\ length b = length buffer.
Proof.
  revert padding buffer pos.
  induction fuel as [|fuel IH]; intros padding buffer pos Ht Hf Hp Hlen;
    cbn [write_padding].
  - destruct (Z.ltb_spec (u8 padding) total) as [Hlt|Hge]; [lia|].
    exists buffer. split; [|reflexivity]. do 2 f_equal. lia.
  - destruct (Z.ltb_spec (u8 padding) total) as [Hlt|Hge].
    + rewrite store_in_range by (cbn [length]; lia). cbn [bind].
      pose proof (u8_range padding) as Rp.
      assert (Hnext : u8 (to_u8 (u8 padding + 1)) = u8 padding + 1).
      { rewrite u8_to_u8. apply Z.mod_small. lia. }
      set (b1 := firstn (Z.to_nat pos) buffer ++ [x01]
                 ++ skipn (Z.to_nat pos + length [x01]) buffer).
      assert (Hb1 : length b1 = length buffer).
      { unfold b1. rewrite !length_app, length_firstn, length_skipn.
        cbn [length]. lia. }
      destruct (IH (to_u8 (u8 padding + 1)) b1 (pos + 1)) as (b & Hw & Hb);
        try (rewrite ?Hnext, ?Hb1; lia).
      exists b. rewrite Hw, Hnext. split; [|congruence].
      do 2 f_equal. lia.
    + exists buffer. split; [|reflexivity]. do 2 f_equal. lia.
Qed.

Lemma encode_options_length (opts : list TCPOption) :
  Forall plain opts ->
  Z.of_nat (length (encode_options opts)) = raw_size opts.
Proof.
  induction 1 as [|o opts Ho _ IH];
    cbn [encode_options flat_map raw_size fold_right length]; [reflexivity|].
  fold (encode_options opts). fold (raw_size opts).
  rewrite length_app. unfold encode_option at 1. rewrite length_app.
  cbn [length]. destruct Ho as (_ & _ & Hv).
  destruct (opt_value o); cbn [length]; lia.
Qed.

Section SerializerReturns.

Variable pseudoheader_checksum : Z -> Z -> Z -> Z -> Z.
Variable do_checksum : list byte -> Z.

Local Notation "'write_ser'" :=
  (write_serialization pseudoheader_checksum do_checksum).

(** On a segment whose counters agree with its options, all of them laid
    out by [write] as entries, with fewer than 256 option octets, and a
    region of at least [header_size()] octets, [write_serialization]
    returns: no assertion fails, no write leaves the region and the padding
    loop ends. *)
Lemma write_serialization_returns (t : TCP) (buffer : list byte)
                                  (parent : option PDU) :
  Forall plain (_options t) ->
  sizes_ok t ->
  _total_options_size t < 256 ->
  header_size t <= Z.of_nat (length buffer) ->
  exists out t', write_ser t buffer parent = Done (out, t').
Proof.
  intros Hplain [Hraw Htot] Hsmall Hfit.
  pose proof (raw_size_nonneg (_options t)) as Hnn.
  pose proof (round_up4_spec (raw_size (_options t))) as [Hround _].
  rewrite <- Htot, <- Hraw in Hround. rewrite <- Hraw in Hnn.
  assert (Hhs : header_size t = 20 + _total_options_size t).
  { unfold header_size, sizeof_tcphdr. apply u32_small.
    change (2 ^ 32) with 4294967296. lia. }
  rewrite Hhs in Hfit.
  unfold write_serialization. rewrite Hhs.
  destruct (Z.ltb_spec (Z.of_nat (length buffer)) (20 + _total_options_size t))
    as [Hshort|_]; [lia|].
  (* the options *)
  set (pre := firstn 20 buffer).
  set (old := firstn (Z.to_nat (_options_size t)) (skipn 20 buffer)).
  set (post := skipn (Z.to_nat (_options_size t)) (skipn 20 buffer)).
  assert (Hsplit : buffer = pre ++ old ++ post).
  { unfold pre, old, post. rewrite !firstn_skipn. reflexivity. }
  assert (Hpre : length pre = 20%nat).
  { unfold pre. rewrite length_firstn. lia. }
  assert (Hold : Z.of_nat (length old) = _options_size t).
  { unfold old. rewrite length_firstn, length_skipn. lia. }
  clearbody pre old post. subst buffer.
  change (0 + sizeof_tcphdr) with 20.
  assert (Hwo : write_options (_options t) (pre ++ old ++ post) 20
                = Done (pre ++ encode_options (_options t) ++ post,
                        20 + raw_size (_options t))).
  { replace 20 with (Z.of_nat (length pre)) by lia.
    apply write_options_plain; [assumption | lia]. }
  rewrite Hwo. cbn [bind].
  set (b1 := pre ++ encode_options (_options t) ++ post).
  assert (Hb1 : length b1 = length (pre ++ old ++ post)).
  { unfold b1. rewrite !length_app.
    pose proof (encode_options_length (_options t) Hplain). lia. }
  clearbody b1. clear Hwo.
  remember (length (pre ++ old ++ post)) as N eqn:HN.
  (* the padding *)
  assert (Hpad : exists b2 p2,
            (if _options_size t <? _total_options_size t
             then write_padding 256 (to_u8 (_options_size t))
                    (_total_options_size t) b1
                    (20 + raw_size (_options t))
             else Done (b1, 20 + raw_size (_options t)))
            = Done (b2, p2) /\ length b2 = N).
  { destruct (Z.ltb_spec (_options_size t) (_total_options_size t))
      as [Hlt|Hge]; [|exists b1; eexists; split; [reflexivity | exact Hb1]].
    assert (Hu : u8 (to_u8 (_options_size t)) = _options_size t).
    { rewrite u8_to_u8. apply Z.mod_small. lia. }
    destruct (write_padding_returns 256 (to_u8 (_options_size t))
                (_total_options_size t) b1
                (20 + raw_size (_options t)))
      as (b2 & Hw & Hb2); try (rewrite ?Hu, ?Hb1; lia).
    exists b2. eexists. split; [exact Hw | congruence]. }
  destruct Hpad as (b2 & p2 & -> & Hb2). cbn [bind].
  (* the header and the checksum *)
  rewrite store_in_range by (cbn [length tcphdr_bytes]; lia). cbn [bind].
  match goal with
  | |- context [Done (firstn ?n b2 ++ ?h ++ ?r)] =>
      set (b3 := firstn n b2 ++ h ++ r)
  end.
  assert (Hb3 : length b3 = N).
  { unfold b3. rewrite !length_app, length_firstn, length_skipn.
    cbn [length tcphdr_bytes]. lia. }
  destruct (dynamic_cast_IP parent) as [ip|]; [|do 2 eexists; reflexivity].
  destruct (Utils.host_s _ =? 0); [|do 2 eexists; reflexivity].
  destruct (computed_check_returns pseudoheader_checksum do_checksum ip t b3)
    as [c ->].
  cbn [bind]. rewrite store_in_range by (cbn [length]; lia).
  cbn [bind]. do 2 eexists. reflexivity.
Qed.

End SerializerReturns.

Section ChecksumClaim.

Variable pseudoheader_checksum : Z -> Z -> Z -> Z -> Z.
Variable do_checksum : list byte -> Z.

Local Notation "'checksum_of'" :=
  (computed_check pseudoheader_checksum do_checksum).
Local Notation "'write_ser'" :=
  (write_serialization pseudoheader_checksum do_checksum).

(** C4, as the code has it: on a segment whose counters agree with its
    options and a region of at least [header_size()] octets,
    [write_serialization] returns, and the checksum is computed (over the
    serialized octets with a zero checksum field) and written if and only if
    the stored field is zero and the parent is an IP layer; in every other
    case octets 16 and 17 are the stored field as it is: zero when the field
    is zero, the caller's value when the caller set one, also under a parent
    that is no IP layer.  The stored field is zero afterwards, so the next
    pass under an IP parent computes the checksum again. *)
Theorem write_serialization_checksum (t : TCP) (buffer : list byte)
                                     (parent : option PDU) :
  Forall plain (_options t) ->
  sizes_ok t ->
  _total_options_size t < 256 ->
  header_size t <= Z.of_nat (length buffer) ->
  exists out t',
    write_ser t buffer parent = Done (out, t')
    /\ get_check t' = 0
    /\ match dynamic_cast_IP parent with
       | Some ip =>
           if get_check t =? 0
           then checksum_of ip t (zero_check out) = Done (check_bytes out)
           else check_bytes out = h_check (_tcp t)
       | None => check_bytes out = h_check (_tcp t)
       end
    /\ (forall (ip : IP) (buffer2 : list byte),
          dynamic_cast_IP parent = Some ip ->
          header_size t' <= Z.of_nat (length buffer2) ->
          exists out2 t2,
            write_ser t' buffer2 parent = Done (out2, t2)
            /\ checksum_of ip t' (zero_check out2) = Done (check_bytes out2)).
Proof.
  intros Hplain Hsizes Hsmall Hfit.
  destruct (write_serialization_returns pseudoheader_checksum do_checksum
              t buffer parent Hplain Hsizes Hsmall Hfit) as (out & t' & H).
  exists out, t'. split; [exact H|].
  destruct (write_serialization_check _ _ _ _ _ _ _ H)
    as (Hz & Ho & Hos & Htot & _ & Hout).
  assert (Hg : get_check t' = 0) by (unfold get_check; rewrite Hz; reflexivity).
  split; [exact Hg|]. split; [exact Hout|].
  intros ip buffer2 Hip Hfit2.
  destruct (write_serialization_returns pseudoheader_checksum do_checksum
              t' buffer2 parent) as (out2 & t2 & H2).
  - rewrite Ho. exact Hplain.
  - unfold sizes_ok. rewrite Ho, Hos, Htot. exact Hsizes.
  - rewrite Htot. exact Hsmall.
  - exact Hfit2.
  - exists out2, t2. split; [exact H2|].
    destruct (write_serialization_check _ _ _ _ _ _ _ H2)
      as (_ & _ & _ & _ & _ & Hout2).
    rewrite Hip, Hg in Hout2. exact Hout2.
Qed.

End ChecksumClaim.

Lemma write_serialization_checksum_witness :
  exists out t',
    write_serialization pseudo_header_sum ones_complement_sum
      (TCP_ports 80 443) (repeat x00 20)
      (Some (IP_layer (mk_IP 167772161 167772162)))
    = Done (out, t')
    /\ get_check t' = 0
    /\ computed_check pseudo_header_sum ones_complement_sum
         (mk_IP 167772161 167772162) (TCP_ports 80 443) (zero_check out)
       = Done (check_bytes out).
Proof.
  destruct (write_serialization_checksum pseudo_header_sum ones_complement_sum
              (TCP_ports 80 443) (repeat x00 20)
              (Some (IP_layer (mk_IP 167772161 167772162))))
    as (out & t' & H & Hg & Hc & _).
  - constructor.
  - apply TCP_ports_sizes_ok.
  - reflexivity.
  - vm_compute. discriminate.
  - exists out, t'. repeat split; assumption.
Defined.

(** The example of the spec: under a parent with the addresses 10.0.0.1 and
    10.0.0.2 the segment of the constructor gets the checksum 1A 31, the
    complement of the folded sum of the pseudo-header and the 20 octets. *)
Lemma write_serialization_checksum_example :
  exists t',
    write_serialization pseudo_header_sum ones_complement_sum
      (TCP_ports 80 443) (repeat x00 20)
      (Some (IP_layer (mk_IP 167772161 167772162)))
    = Done ([x01; xbb; x00; x50; x00; x00; x00; x00; x00; x00; x00; x00;
             x50; x00; x7f; xa6; x1a; x31; x00; x00], t').
Proof. eexists. vm_compute. reflexivity. Qed.

(** C4 as stated fails: under a parent that is no IP layer, a segment whose
    checksum the caller set to 0x1234 serializes with 12 34 in the checksum
    field, not with zero. *)
Lemma write_serialization_keeps_preset_check :
  exists out t',
    write_serialization pseudo_header_sum ones_complement_sum
      (check 4660 (TCP_ports 80 443)) (repeat x00 20) (Some Other_layer)
    = Done (out, t')
    /\ dynamic_cast_IP (Some Other_layer) = None
    /\ check_bytes out = (x12, x34)
    /\ check_bytes out <> (x00, x00).
Proof.
  do 2 eexists. split; [vm_compute; reflexivity|].
  split; [reflexivity|]. split; [reflexivity | discriminate].
Qed.

(** ** END_OF_OPTIONS in the option scan *)

(** C3, the failing input: the options region 01 01 01 00 ends in the
    END_OF_OPTIONS octet.  The [for] loop of line 67 stops after one octet
    only for NO_OP, so it asks for a second octet of the entry, finds the
    cursor at the end of the region and throws. *)
Theorem TCP_buffer_EOL_last_octet :
  TCP_buffer (example_header x60 (x12, x34) ++ [x01; x01; x01; x00])
  = Throw err_option.
Proof. vm_compute. reflexivity. Qed.

(** With one more octet behind it, END_OF_OPTIONS ends the scan: the cursor
    jumps to the end of the region and nothing is stored. *)
Lemma scan_body_EOL (buffer : list byte) (header_end : Z) (s : scan_state) :
  u8 (args0 s) <> NOP ->
  0 <= index s -> index s + 1 < header_end -> header_end < 2 ^ 32 ->
  u8 (peek buffer (index s)) = EOL ->
  scan_body buffer header_end s =
    Done (mk_scan header_end (peek buffer (index s))
                  (peek buffer (index s + 1)) (scanned s)).
Proof.
  intros Hnop H0 Hlt Hhe Hk.
  unfold scan_body, read_args, read_arg.
  destruct (Z.eqb_spec (u8 (args0 s)) NOP) as [E|_]; [contradiction|].
  destruct (Z.eqb_spec (index s) header_end) as [E|_]; [lia|].
  cbn [bind index args0 args1 scanned Z.eqb].
  rewrite Hk. cbn [Z.eqb EOL NOP].
  rewrite u32_small by lia.
  destruct (Z.eqb_spec (index s + 1) header_end) as [E|_]; [lia|].
  cbn [bind index args0 args1 scanned Z.eqb negb andb].
  rewrite Hk. cbn. reflexivity.
Qed.

(** When END_OF_OPTIONS is the last octet of the region the scan throws,
    whatever came before. *)
Lemma scan_body_EOL_last (buffer : list byte) (header_end : Z) (s : scan_state) :
  u8 (args0 s) <> NOP ->
  0 <= index s -> index s + 1 = header_end -> header_end < 2 ^ 32 ->
  u8 (peek buffer (index s)) = EOL ->
  scan_body buffer header_end s = Throw err_option.
Proof.
  intros Hnop H0 Hlt Hhe Hk.
  unfold scan_body, read_args, read_arg.
  destruct (Z.eqb_spec (u8 (args0 s)) NOP) as [E|_]; [contradiction|].
  destruct (Z.eqb_spec (index s) header_end) as [E|_]; [lia|].
  cbn [bind index args0 args1 scanned Z.eqb].
  rewrite Hk. cbn [Z.eqb EOL NOP].
  rewrite u32_small by lia.
  destruct (Z.eqb_spec (index s + 1) header_end) as [_|E]; [|lia].
  reflexivity.
Qed.

(** ** The option scan *)

Lemma to_u8_mod (z : Z) : to_u8 (z mod 256) = to_u8 z.
Proof. unfold to_u8. rewrite Z.mod_mod by lia. reflexivity. Qed.

(** One turn of the loop, case by case, at a loop head where [args[0]] is
    not NO_OP: a NO_OP octet is skipped; any other kind needs a second octet
    inside the region, END_OF_OPTIONS included; END_OF_OPTIONS then ends the
    scan; any other kind is stored if its value fits the rest of the
    region. *)
Lemma scan_body_cases (buffer : list byte) (header_end : Z) (s : scan_state) :
  u8 (args0 s) <> NOP ->
  0 <= index s < header_end -> header_end < 2 ^ 32 ->
  scan_body buffer header_end s =
    let k := peek buffer (index s) in
    let l := peek buffer (index s + 1) in
    let a1 := to_u8 (u8 l - 2) in
    if u8 k =? NOP then
      Done (mk_scan (index s + 1) x00 (args1 s) (scanned s))
    else if index s + 1 =? header_end then Throw err_option
    else if u8 k =? EOL then Done (mk_scan header_end k l (scanned s))
    else if header_end - (index s + 2) <? u8 a1 then Throw err_option
    else
      Done (mk_scan (index s + 2 + u8 a1) k a1
              (add_option (u8 k) a1
                 (skipn (Z.to_nat (index s + 2)) buffer) (scanned s))).
Proof.
  intros Hnop Hi Hhe. cbv zeta.
  unfold scan_body, read_args, read_arg.
  destruct (Z.eqb_spec (u8 (args0 s)) NOP) as [E|_]; [contradiction|].
  destruct (Z.eqb_spec (index s) header_end) as [E|_]; [lia|].
  cbn [bind index args0 args1 scanned Z.eqb].
  rewrite (u32_small (index s + 1)) by lia.
  destruct (Z.eqb_spec (u8 (peek buffer (index s))) NOP) as [Ek|Ek].
  { cbn [bind index args0 args1 scanned]. rewrite Ek. reflexivity. }
  destruct (Z.eqb_spec (index s + 1) header_end) as [E1|E1]; [reflexivity|].
  cbn [bind index args0 args1 scanned Z.eqb].
  destruct (Z.eqb_spec (u8 (peek buffer (index s))) NOP) as [E|_];
    [contradiction|].
  rewrite (u32_small (index s + 1 + 1)) by lia.
  destruct (Z.eqb_spec (u8 (peek buffer (index s))) EOL) as [Ee|Ee];
    cbn [negb andb]; [reflexivity|].
  rewrite (u32_small (header_end - (index s + 1 + 1))) by lia.
  replace (index s + 1 + 1) with (index s + 2) by lia.
  destruct (Z.ltb_spec (header_end - (index s + 2))
                       (u8 (to_u8 (u8 (peek buffer (index s + 1)) - 2))))
    as [Hl|Hl]; [reflexivity|].
  rewrite u32_small; [reflexivity|].
  pose proof (u8_range (to_u8 (u8 (peek buffer (index s + 1)) - 2))). lia.
Qed.

Lemma firstn_add_skipn {A : Type} (n m : nat) (l : list A) :
  firstn (n + m) l = firstn n l ++ firstn m (skipn n l).
Proof.
  revert l. induction n as [|n IH]; intros l; [reflexivity|].
  destruct l as [|a l]; cbn [Nat.add firstn skipn app].
  - rewrite firstn_nil. reflexivity.
  - rewrite IH. reflexivity.
Qed.

Lemma skipn_cons_nth {A : Type} (d : A) (n : nat) (l : list A) :
  (n < length l)%nat -> skipn n l = nth n l d :: skipn (S n) l.
Proof.
  revert l. induction n as [|n IH]; intros [|a l] H; cbn [length] in H;
    try lia; [reflexivity|].
  cbn [skipn nth]. apply IH. lia.
Qed.

(** The octets of an entry in memory: kind, length, value. *)
Lemma firstn_entry (buffer : list byte) (i a : Z) :
  0 <= i -> 0 <= a -> i + 2 + a <= Z.of_nat (length buffer) ->
  firstn (Z.to_nat (i + 2 + a)) buffer
  = firstn (Z.to_nat i) buffer
    ++ [peek buffer i; peek buffer (i + 1)]
    ++ firstn (Z.to_nat a) (skipn (Z.to_nat (i + 2)) buffer).
Proof.
  intros Hi Ha Hlen.
  replace (Z.to_nat (i + 2 + a)) with (Z.to_nat i + (2 + Z.to_nat a))%nat by lia.
  rewrite firstn_add_skipn. f_equal.
  rewrite (skipn_cons_nth x00) by lia.
  rewrite (skipn_cons_nth x00 (S (Z.to_nat i))) by lia.
  cbn [Nat.add firstn app]. unfold peek.
  replace (Z.to_nat (i + 1)) with (S (Z.to_nat i)) by lia.
  replace (Z.to_nat (i + 2)) with (S (S (Z.to_nat i))) by lia.
  reflexivity.
Qed.

Lemma encode_options_app (l1 l2 : list TCPOption) :
  encode_options (l1 ++ l2) = encode_options l1 ++ encode_options l2.
Proof. unfold encode_options. apply flat_map_app. Qed.

(** The length octet [write] produces for a stored option is the one the
    decoder read. *)
Lemma length_octet_back (l : byte) : to_u8 (u8 (to_u8 (u8 l - 2)) + 2) = l.
Proof.
  rewrite u8_to_u8, <- to_u8_mod, Zplus_mod_idemp_l, to_u8_mod.
  replace (u8 l - 2 + 2) with (u8 l) by lia. apply to_u8_u8.
Qed.

Section ScanInvariant.

Variable buffer : list byte.
Variable header_end : Z.
Variable tcp : tcphdr.
Hypothesis header_end_range : 0 <= header_end <= 40.
Hypothesis buffer_holds_region : header_end <= Z.of_nat (length buffer).

Lemma scan_init_inv : scan_inv buffer header_end tcp (scan_init tcp).
Proof.
  constructor; cbn; try reflexivity; try lia.
  - discriminate.
  - split; reflexivity.
  - constructor.
Qed.

(** A turn that returns keeps the invariant and moves the cursor on. *)
Lemma scan_body_inv (s s' : scan_state) :
  scan_inv buffer header_end tcp s ->
  index s < header_end ->
  scan_body buffer header_end s = Done s' ->
  scan_inv buffer header_end tcp s' /\ index s < index s'.
Proof.
  intros [Hidx Hargs Hsz Hcons Henc Hplain Htcp Hinner] Hlt.
  rewrite scan_body_cases by (assumption || lia). cbv zeta.
  set (k := peek buffer (index s)).
  set (l := peek buffer (index s + 1)).
  set (a1 := to_u8 (u8 l - 2)).
  pose proof (u8_range a1) as Ha1.
  destruct (Z.eqb_spec (u8 k) NOP) as [Ek|Ek].
  { intros [= <-]. split; [|cbn; lia].
    constructor; cbn [index args0 args1 scanned]; try assumption; try lia.
    discriminate. }
  destruct (Z.eqb_spec (index s + 1) header_end) as [E1|E1]; [discriminate|].
  destruct (Z.eqb_spec (u8 k) EOL) as [Ee|Ee].
  { intros [= <-]. split; [|cbn; lia].
    constructor; cbn [index args0 args1 scanned]; try assumption; try lia. }
  destruct (Z.ltb_spec (header_end - (index s + 2)) (u8 a1)) as [Hl|Hl];
    [discriminate|].
  intros [= <-]. split; [|cbn; lia].
  destruct (add_option_fields (u8 k) a1
              (skipn (Z.to_nat (index s + 2)) buffer) (scanned s))
    as (E_os & E_tot & E_opts & E_tcp & E_inner).
  constructor; cbn [index args0 args1 scanned].
  - lia.
  - exact Ek.
  - apply add_option_sizes_ok. exact Hsz.
  - rewrite E_os. lia.
  - rewrite E_os, E_opts. intros Heq.
    rewrite encode_options_app, <- Henc by lia.
    rewrite firstn_entry by lia. f_equal.
    unfold encode_options, encode_option.
    cbn [flat_map opt_option opt_length opt_value app].
    rewrite to_u8_u8. fold k. fold l.
    replace (to_u8 (u8 a1 + 2)) with l
      by (unfold a1; symmetry; apply length_octet_back).
    do 2 f_equal. rewrite app_nil_r.
    destruct (Z.eqb_spec (u8 a1) 0) as [E0|E0].
    + rewrite E0. reflexivity.
    + reflexivity.
  - rewrite E_opts. apply Forall_app. split; [exact Hplain|].
    constructor; [|constructor].
    unfold plain. cbn [opt_option opt_length opt_value].
    split; [exact Ek|]. split; [lia|].
    destruct (Z.eqb_spec (u8 a1) 0) as [E0|E0]; [exact E0|].
    unfold memcpy_from. rewrite length_firstn, length_skipn. lia.
  - rewrite E_tcp. exact Htcp.
  - rewrite E_inner. exact Hinner.
Qed.

(** The scan never runs out of fuel when it is given one unit for each
    octet of the region that is still ahead. *)
Lemma scan_loop_returns (fuel : nat) (s : scan_state) :
  scan_inv buffer header_end tcp s ->
  header_end - index s <= Z.of_nat fuel ->
  scan_loop buffer header_end fuel s <> Timeout.
Proof.
  revert s. induction fuel as [|fuel IH]; intros s Hinv Hfuel;
    cbn [scan_loop].
  - destruct (Z.ltb_spec (index s) header_end); [lia | discriminate].
  - destruct (Z.ltb_spec (index s) header_end) as [Hlt|_]; [|discriminate].
    destruct (scan_body buffer header_end s) as [s'| | |] eqn:Ebody;
      cbn [bind]; try discriminate.
    + destruct (scan_body_inv s s' Hinv Hlt Ebody) as [Hinv' Hprog].
      apply IH; [exact Hinv' | lia].
    + exfalso. revert Ebody.
      rewrite scan_body_cases
        by (try apply (inv_args0 _ _ _ _ Hinv);
            pose proof (inv_index _ _ _ _ Hinv); lia).
      cbv zeta. repeat match goal with
      | |- context [if ?c then _ else _] => destruct c
      end; discriminate.
Qed.

(** The result of a scan that returns: the invariant holds and the cursor
    stands at the end of the region. *)
Lemma scan_loop_inv (fuel : nat) (s s' : scan_state) :
  scan_inv buffer header_end tcp s ->
  scan_loop buffer header_end fuel s = Done s' ->
  scan_inv buffer header_end tcp s' /\ index s' = header_end.
Proof.
  revert s. induction fuel as [|fuel IH]; intros s Hinv; cbn [scan_loop].
  - destruct (Z.ltb_spec (index s) header_end) as [Hlt|Hge]; [discriminate|].
    intros [= <-]. split; [exact Hinv|].
    pose proof (inv_index _ _ _ _ Hinv). lia.
  - destruct (Z.ltb_spec (index s) header_end) as [Hlt|Hge].
    + destruct (scan_body buffer header_end s) as [s1| | |] eqn:Ebody;
        cbn [bind]; try discriminate.
      intros H. apply (IH s1); [|exact H].
      apply (scan_body_inv s s1 Hinv Hlt Ebody).
    + intros [= <-]. split; [exact Hinv|].
      pose proof (inv_index _ _ _ _ Hinv). lia.
Qed.

(** Every loop head the scan reaches satisfies the invariant, and a scan
    that has fuel for the whole region has fuel left there. *)
Lemma scan_reaches_inv (s s' : scan_state) :
  scan_reaches buffer header_end s s' ->
  scan_inv buffer header_end tcp s ->
  scan_inv buffer header_end tcp s'.
Proof.
  induction 1 as [s|s s1 s2 Hlt Hbody _ IH]; intros Hinv; [exact Hinv|].
  apply IH. apply (scan_body_inv s s1 Hinv Hlt Hbody).
Qed.

Lemma scan_loop_reaches (s s' : scan_state) :
  scan_reaches buffer header_end s s' ->
  scan_inv buffer header_end tcp s ->
  forall fuel : nat,
    header_end - index s <= Z.of_nat fuel ->
    exists fuel' : nat,
      header_end - index s' <= Z.of_nat fuel'
      /\ scan_loop buffer header_end fuel s
         = scan_loop buffer header_end fuel' s'.
Proof.
  induction 1 as [s|s s1 s2 Hlt Hbody _ IH]; intros Hinv fuel Hfuel.
  - exists fuel. split; [exact Hfuel | reflexivity].
  - destruct (scan_body_inv s s1 Hinv Hlt Hbody) as [Hinv1 Hprog].
    destruct fuel as [|fuel]; [lia|].
    destruct (IH Hinv1 fuel ltac:(lia)) as (fuel' & Hf' & Heq).
    exists fuel'. split; [exact Hf'|].
    cbn [scan_loop].
    destruct (Z.ltb_spec (index s) header_end) as [_|Hge]; [|lia].
    rewrite Hbody. cbn [bind]. exact Heq.
Qed.

End ScanInvariant.

(** ** The decoder as a whole *)

(** When the scan is entered, the header declares at least 5 words and the
    region has at most 40 octets. *)
Lemma header_end_of_range (tcp : tcphdr) (n : Z) :
  20 <= n < 2 ^ 32 ->
  header_end_of tcp <= u32 (n - 20) ->
  header_end_of tcp = get_doff tcp * 4 - 20
  /\ 0 <= header_end_of tcp <= 40
  /\ header_end_of tcp <= n - 20.
Proof.
  intros Hn. rewrite (u32_small (n - 20)) by lia.
  unfold header_end_of, sizeof_tcphdr, u32.
  pose proof (get_doff_range tcp) as Hd.
  change (2 ^ 32) with 4294967296 in *.
  intros Hle.
  assert (Hcase : get_doff tcp < 5 \/ 5 <= get_doff tcp) by lia.
  destruct Hcase as [Hlow|Hhigh].
  - exfalso.
    replace (get_doff tcp * 4 - 20)
      with (get_doff tcp * 4 - 20 + 4294967296 + (-1) * 4294967296) in Hle
      by lia.
    rewrite Z.mod_add, Z.mod_small in Hle by lia. lia.
  - rewrite Z.mod_small in * by lia. lia.
Qed.

(** A turn of the scan returns or throws. *)
Lemma read_arg_returns (buffer : list byte) (header_end i : Z)
                       (s : scan_state) :
  (exists s', read_arg buffer header_end i s = Done s')
  \/ read_arg buffer header_end i s = Throw err_option.
Proof.
  unfold read_arg. destruct (index s =? header_end);
    [right; reflexivity | left; eexists; reflexivity].
Qed.

Lemma scan_body_returns (buffer : list byte) (header_end : Z)
                        (s : scan_state) :
  (exists s', scan_body buffer header_end s = Done s')
  \/ scan_body buffer header_end s = Throw err_option.
Proof.
  assert (Hargs : (exists s', read_args buffer header_end s = Done s')
                  \/ read_args buffer header_end s = Throw err_option).
  { unfold read_args. destruct (u8 (args0 s) =? NOP);
      [left; eexists; reflexivity|].
    destruct (read_arg_returns buffer header_end 0 s) as [[s1 ->]| ->];
      cbn [bind]; [|right; reflexivity].
    destruct (u8 (args0 s1) =? NOP); [left; eexists; reflexivity|].
    apply read_arg_returns. }
  unfold scan_body. destruct Hargs as [[s1 ->]| ->]; cbn [bind];
    [|right; reflexivity].
  destruct (negb (u8 (args0 s1) =? NOP) && negb (u8 (args0 s1) =? EOL)).
  - destruct (_ <? _); [right; reflexivity | left; eexists; reflexivity].
  - destruct (u8 (args0 s1) =? EOL); left; eexists; reflexivity.
Qed.

Lemma scan_loop_no_abort (buffer : list byte) (header_end : Z) (fuel : nat)
                         (s : scan_state) :
  scan_loop buffer header_end fuel s <> Abort.
Proof.
  revert s. induction fuel as [|fuel IH]; intros s; cbn [scan_loop];
    destruct (index s <? header_end); try discriminate.
  destruct (scan_body_returns buffer header_end s) as [[s1 ->]| ->];
    cbn [bind]; [apply IH | discriminate].
Qed.


(** What a returned segment tells about the buffer, when the scan ran. *)
Lemma TCP_buffer_scanned (buffer : list byte) (t : TCP) :
  Z.of_nat (length buffer) < 2 ^ 32 ->
  TCP_buffer buffer = Done t ->
  header_end_of (tcphdr_of_bytes buffer) <= Z.of_nat (length buffer) - 20 ->
  20 <= Z.of_nat (length buffer)
  /\ exists s,
       scan_inv (skipn 20 buffer) (header_end_of (tcphdr_of_bytes buffer))
                (tcphdr_of_bytes buffer) s
       /\ index s = header_end_of (tcphdr_of_bytes buffer)
       /\ t = set_inner_pdu
               (if Z.of_nat (length buffer) - 20 - index s =? 0 then None
                else Some (skipn (Z.to_nat (index s)) (skipn 20 buffer)))
               (scanned s).
Proof.
  intros Hn. unfold TCP_buffer.
  destruct (Z.ltb_spec (Z.of_nat (length buffer)) sizeof_tcphdr) as [|Hge];
    [discriminate|].
  unfold sizeof_tcphdr in Hge |- *. change (Z.to_nat 20) with 20%nat.
  set (tcp := tcphdr_of_bytes buffer).
  set (rest := skipn 20 buffer).
  rewrite (u32_small (Z.of_nat (length buffer) - 20)) by lia.
  intros H Hfit.
  destruct (Z.leb_spec (header_end_of tcp) (Z.of_nat (length buffer) - 20))
    as [Hle|Hgt]; [|lia].
  destruct (header_end_of_range tcp (Z.of_nat (length buffer)) ltac:(lia)
              ltac:(rewrite u32_small by lia; exact Hle)) as (_ & Hr & _).
  assert (Hrest : Z.of_nat (length rest) = Z.of_nat (length buffer) - 20).
  { unfold rest. rewrite length_skipn. lia. }
  apply bind_Done_inv in H. destruct H as ([t0 i0] & Hscan & H).
  apply bind_Done_inv in Hscan. destruct Hscan as (s & Hloop & Hs).
  injection Hs as <- <-.
  destruct (scan_loop_inv rest (header_end_of tcp) tcp Hr ltac:(lia)
              (length rest) (scan_init tcp) s
              (scan_init_inv rest (header_end_of tcp) tcp Hr) Hloop)
    as [Hinv Hidx].
  split; [lia|]. exists s. split; [exact Hinv|]. split; [exact Hidx|].
  rewrite (u32_small (Z.of_nat (length buffer) - 20 - index s)) in H by lia.
  destruct (Z.eqb_spec (Z.of_nat (length buffer) - 20 - index s) 0) as [E|E].
  - injection H as <-.
    pose proof (inv_inner _ _ _ _ Hinv) as Hi.
    destruct (scanned s) as [h o a b i]. cbn in Hi. rewrite Hi.
    reflexivity.
  - injection H as <-. unfold RawPDU, memcpy_from.
    rewrite firstn_all2; [reflexivity|].
    rewrite length_skipn. lia.
Qed.

(** ** END_OF_OPTIONS as the last octet of the region, in general *)

(** Whenever the scan of a buffer stands at an END_OF_OPTIONS octet that is
    the last octet of the options region, the decoder throws: the failing
    input of C3 is one of a family. *)
Lemma TCP_buffer_EOL_last (buffer : list byte) (s : scan_state) :
  Z.of_nat (length buffer) < 2 ^ 32 ->
  header_end_of (tcphdr_of_bytes buffer) <= Z.of_nat (length buffer) - 20 ->
  scan_reaches (skipn 20 buffer) (header_end_of (tcphdr_of_bytes buffer))
               (scan_init (tcphdr_of_bytes buffer)) s ->
  index s + 1 = header_end_of (tcphdr_of_bytes buffer) ->
  u8 (peek (skipn 20 buffer) (index s)) = EOL ->
  TCP_buffer buffer = Throw err_option.
Proof.
  set (tcp := tcphdr_of_bytes buffer).
  set (rest := skipn 20 buffer).
  intros Hn Hfit Hreach Hlast Heol.
  assert (Hn20 : 20 <= Z.of_nat (length buffer)).
  { unfold header_end_of, u32 in Hfit.
    pose proof (Z.mod_pos_bound (get_doff tcp * 4 - sizeof_tcphdr) (2 ^ 32)
                  ltac:(lia)). lia. }
  destruct (header_end_of_range tcp (Z.of_nat (length buffer)) ltac:(lia)
              ltac:(rewrite u32_small by lia; exact Hfit)) as (_ & Hr & _).
  assert (Hrest : Z.of_nat (length rest) = Z.of_nat (length buffer) - 20).
  { unfold rest. rewrite length_skipn. lia. }
  pose proof (scan_init_inv rest (header_end_of tcp) tcp Hr) as Hinit.
  pose proof (scan_reaches_inv rest _ tcp Hr ltac:(lia) _ _ Hreach Hinit)
    as Hinv.
  destruct (scan_loop_reaches rest _ tcp Hr ltac:(lia) _ _ Hreach Hinit
              (length rest) ltac:(cbn [index scan_init]; lia))
    as (fuel' & Hfuel' & Heq).
  pose proof (inv_index _ _ _ _ Hinv) as Hidx.
  assert (Hthrow : scan_loop rest (header_end_of tcp) fuel' s
                   = Throw err_option).
  { destruct fuel' as [|fuel']; [lia|]. cbn [scan_loop].
    destruct (Z.ltb_spec (index s) (header_end_of tcp)) as [_|Hge]; [|lia].
    rewrite (scan_body_EOL_last rest (header_end_of tcp) s);
      try assumption; try lia; [reflexivity|].
    apply (inv_args0 _ _ _ _ Hinv). }
  unfold TCP_buffer.
  destruct (Z.ltb_spec (Z.of_nat (length buffer)) sizeof_tcphdr) as [Hlt|_];
    [unfold sizeof_tcphdr in Hlt; lia|].
  unfold sizeof_tcphdr. change (Z.to_nat 20) with 20%nat.
  fold tcp. fold rest.
  rewrite (u32_small (Z.of_nat (length buffer) - 20)) by lia.
  destruct (Z.leb_spec (header_end_of tcp) (Z.of_nat (length buffer) - 20))
    as [_|Hgt]; [|lia].
  rewrite Heq, Hthrow. reflexivity.
Qed.

(** ** An option whose total-length octet is 0 or 1 *)

(** C10: let the scan of a buffer stand at an entry whose kind is neither
    NO_OP nor END_OF_OPTIONS and whose total-length octet, inside the
    region, is 0 or 1.  The value length the decoder computes is that octet
    minus 2 modulo 256, that is 254 or 255; the region has at most 40
    octets; and the decoder throws. *)
Theorem TCP_buffer_total_length_0_or_1 (buffer : list byte) (s : scan_state) :
  Z.of_nat (length buffer) < 2 ^ 32 ->
  header_end_of (tcphdr_of_bytes buffer) <= Z.of_nat (length buffer) - 20 ->
  scan_reaches (skipn 20 buffer) (header_end_of (tcphdr_of_bytes buffer))
               (scan_init (tcphdr_of_bytes buffer)) s ->
  index s + 1 < header_end_of (tcphdr_of_bytes buffer) ->
  u8 (peek (skipn 20 buffer) (index s)) <> NOP ->
  u8 (peek (skipn 20 buffer) (index s)) <> EOL ->
  u8 (peek (skipn 20 buffer) (index s + 1)) <= 1 ->
  u8 (to_u8 (u8 (peek (skipn 20 buffer) (index s + 1)) - 2))
    = (u8 (peek (skipn 20 buffer) (index s + 1)) - 2) mod 256
  /\ u8 (to_u8 (u8 (peek (skipn 20 buffer) (index s + 1)) - 2))
     = 254 + u8 (peek (skipn 20 buffer) (index s + 1))
  /\ header_end_of (tcphdr_of_bytes buffer) <= 40
  /\ TCP_buffer buffer = Throw err_option.
Proof.
  set (tcp := tcphdr_of_bytes buffer).
  set (rest := skipn 20 buffer).
  set (l := peek rest (index s + 1)).
  intros Hn Hfit Hreach Hin Hnop Heol Hl.
  pose proof (u8_range l) as Rl.
  assert (Hval : u8 (to_u8 (u8 l - 2)) = 254 + u8 l).
  { rewrite u8_to_u8.
    replace (u8 l - 2) with (254 + u8 l + (-1) * 256) by lia.
    rewrite Z.mod_add, Z.mod_small by lia. reflexivity. }
  split; [apply u8_to_u8|]. split; [exact Hval|].
  assert (Hn20 : 20 <= Z.of_nat (length buffer)).
  { unfold header_end_of, u32 in Hfit.
    pose proof (Z.mod_pos_bound (get_doff tcp * 4 - sizeof_tcphdr) (2 ^ 32)
                  ltac:(lia)). lia. }
  destruct (header_end_of_range tcp (Z.of_nat (length buffer)) ltac:(lia)
              ltac:(rewrite u32_small by lia; exact Hfit)) as (_ & Hr & _).
  split; [lia|].
  assert (Hrest : Z.of_nat (length rest) = Z.of_nat (length buffer) - 20).
  { unfold rest. rewrite length_skipn. lia. }
  pose proof (scan_init_inv rest (header_end_of tcp) tcp Hr) as Hinit.
  pose proof (scan_reaches_inv rest _ tcp Hr ltac:(lia) _ _ Hreach Hinit)
    as Hinv.
  destruct (scan_loop_reaches rest _ tcp Hr ltac:(lia) _ _ Hreach Hinit
              (length rest) ltac:(cbn [index scan_init]; lia))
    as (fuel' & Hfuel' & Heq).
  pose proof (inv_index _ _ _ _ Hinv) as Hidx.
  assert (Hthrow : scan_loop rest (header_end_of tcp) fuel' s
                   = Throw err_option).
  { destruct fuel' as [|fuel']; [lia|]. cbn [scan_loop].
    destruct (Z.ltb_spec (index s) (header_end_of tcp)) as [_|Hge]; [|lia].
    rewrite scan_body_cases
      by (try apply (inv_args0 _ _ _ _ Hinv); lia).
    cbv zeta. fold l.
    destruct (Z.eqb_spec (u8 (peek rest (index s))) NOP) as [E|_];
      [contradiction|].
    destruct (Z.eqb_spec (index s + 1) (header_end_of tcp)) as [E|_]; [lia|].
    destruct (Z.eqb_spec (u8 (peek rest (index s))) EOL) as [E|_];
      [contradiction|].
    destruct (Z.ltb_spec (header_end_of tcp - (index s + 2))
                         (u8 (to_u8 (u8 l - 2)))) as [_|Hge]; [reflexivity|].
    lia. }
  unfold TCP_buffer.
  destruct (Z.ltb_spec (Z.of_nat (length buffer)) sizeof_tcphdr) as [Hlt|_];
    [unfold sizeof_tcphdr in Hlt; lia|].
  unfold sizeof_tcphdr. change (Z.to_nat 20) with 20%nat.
  fold tcp. fold rest.
  rewrite (u32_small (Z.of_nat (length buffer) - 20)) by lia.
  destruct (Z.leb_spec (header_end_of tcp) (Z.of_nat (length buffer) - 20))
    as [_|Hgt]; [|lia].
  rewrite Heq, Hthrow. reflexivity.
Qed.

Lemma TCP_buffer_total_length_0_or_1_witness :
  TCP_buffer (example_header x70 (x12, x34)
              ++ [x01; x02; x04; x05; xb4; x03; x01; x07])
  = Throw err_option.
Proof.
  refine (proj2 (proj2 (proj2
    (TCP_buffer_total_length_0_or_1
       (example_header x70 (x12, x34)
        ++ [x01; x02; x04; x05; xb4; x03; x01; x07])
       (mk_scan 5 x02 x02
          (add_option MSS x02 [x05; xb4]
             (scanned (scan_init (tcphdr_of_bytes
                                    (example_header x70 (x12, x34)))))))
       _ _ _ _ _ _ _)))).
  - vm_compute. reflexivity.
  - vm_compute. discriminate.
  - eapply reaches_turn; [vm_compute; reflexivity | vm_compute; reflexivity |].
    eapply reaches_turn; [vm_compute; reflexivity | vm_compute; reflexivity |].
    apply reaches_here.
  - vm_compute. reflexivity.
  - vm_compute. discriminate.
  - vm_compute. discriminate.
  - vm_compute. discriminate.
Defined.

(** ** The fixed header, back and forth *)

Lemma tcphdr_bytes_of_bytes (buffer : list byte) :
  (20 <= length buffer)%nat ->
  tcphdr_bytes (tcphdr_of_bytes buffer) = firstn 20 buffer.
Proof.
  intros H.
  do 20 (destruct buffer as [|? buffer]; [cbn [length] in H; lia|]).
  reflexivity.
Qed.

Lemma doff_octet_back (b : byte) :
  to_u8 (Z.lor (Z.land (u8 b) 15) (Z.shiftl (Z.shiftr (u8 b) 4 mod 16) 4)) = b.
Proof. destruct b; reflexivity. Qed.

(** Writing back the data offset a header holds leaves the header as it
    is. *)
Lemma set_doff_same (h : tcphdr) (v : Z) :
  v = get_doff h -> set_doff v h = h.
Proof.
  intros ->. destruct h. unfold set_doff, get_doff.
  cbn [h_sport h_dport h_seq h_ack_seq h_doff_res1 h_flags h_window h_check
       h_urg_ptr].
  rewrite doff_octet_back. reflexivity.
Qed.

(** When the scan is skipped the segment has the header of the buffer and
    no options. *)
Lemma TCP_buffer_unscanned (buffer : list byte) (t : TCP) :
  Z.of_nat (length buffer) < 2 ^ 32 ->
  TCP_buffer buffer = Done t ->
  Z.of_nat (length buffer) - 20 < header_end_of (tcphdr_of_bytes buffer) ->
  _tcp t = tcphdr_of_bytes buffer /\ _options t = []
  /\ _options_size t = 0.
Proof.
  intros Hn. unfold TCP_buffer.
  destruct (Z.ltb_spec (Z.of_nat (length buffer)) sizeof_tcphdr) as [|Hge];
    [discriminate|].
  unfold sizeof_tcphdr in Hge |- *.
  rewrite (u32_small (Z.of_nat (length buffer) - 20)) by lia.
  intros H Hgt.
  destruct (Z.leb_spec (header_end_of (tcphdr_of_bytes buffer))
                       (Z.of_nat (length buffer) - 20)) as [Hle|_]; [lia|].
  cbn [bind scan_init scanned] in H.
  destruct (_ =? 0) in H; injection H as <-; repeat split.
Qed.

(** ** Decoding, then serializing *)

Section RoundTrip.

Variable pseudoheader_checksum : Z -> Z -> Z -> Z -> Z.
Variable do_checksum : list byte -> Z.

Local Notation "'ser'" := (serialize pseudoheader_checksum do_checksum).

(** C1, as the code has it: the decoder drops NO_OP and END_OF_OPTIONS
    filler and the serializer recomputes the data offset from the stored
    options, so the round trip needs the stored options to fill the region
    the header declares.  For every buffer (of a length a [uint32_t] holds)
    that decodes into a segment whose checksum field is not zero, whose
    padded options size equals the encoded size, and whose encoded options
    size equals the declared size of the options region, data offset times
    4 minus 20, serializing the segment under any parent gives back the
    buffer, octet for octet. *)
Theorem decode_serialize_round_trip (buffer : list byte) (t : TCP)
                                    (parent : option PDU) :
  Z.of_nat (length buffer) < 2 ^ 32 ->
  TCP_buffer buffer = Done t ->
  get_check t <> 0 ->
  _total_options_size t = _options_size t ->
  _options_size t = get_data_offset t * 4 - 20 ->
  exists t', ser t parent = Done (buffer, t').
Proof.
  intros Hn Hdec Hchk Hpad Hfill.
  set (tcp := tcphdr_of_bytes buffer).
  set (rest := skipn 20 buffer).
  assert (Hn20 : 20 <= Z.of_nat (length buffer)).
  { destruct (Z.ltb_spec (Z.of_nat (length buffer)) 20) as [Hlt|]; [|lia].
    rewrite (TCP_buffer_short buffer Hlt) in Hdec. discriminate. }
  (* the scan ran: a skipped scan leaves no options under a data offset
     that is not 5 *)
  assert (Hran : header_end_of tcp <= Z.of_nat (length buffer) - 20).
  { destruct (Z.leb_spec (header_end_of tcp) (Z.of_nat (length buffer) - 20))
      as [|Hgt]; [assumption|]. exfalso.
    pose proof (get_doff_range tcp) as Hd.
    assert (Hmiss : Z.of_nat (length buffer) - 20 < get_doff tcp * 4 - 20).
    { unfold header_end_of, sizeof_tcphdr, u32 in Hgt.
      assert (Hc : get_doff tcp < 5 \/ 5 <= get_doff tcp) by lia.
      destruct Hc as [Hlow|Hhigh].
      - exfalso. pose proof (TCP_buffer_unscanned buffer t Hn Hdec) as Hu.
        unfold header_end_of, sizeof_tcphdr, u32 in Hu.
        fold tcp in Hu. specialize (Hu ltac:(lia)).
        destruct Hu as (Ht & Ho & Hs). unfold get_data_offset in Hfill.
        rewrite Ht, Hs in Hfill. fold tcp in Hfill. lia.
      - rewrite Z.mod_small in Hgt by (change (2 ^ 32) with 4294967296; lia).
        lia. }
    pose proof (TCP_buffer_unscanned buffer t Hn Hdec) as Hu.
    fold tcp in Hu. specialize (Hu Hgt).
    destruct Hu as (Ht & Ho & Hs). unfold get_data_offset in Hfill.
    rewrite Ht, Hs in Hfill. fold tcp in Hfill. lia. }
  destruct (TCP_buffer_scanned buffer t Hn Hdec Hran)
    as (_ & s & Hinv & Hidx & Ht).
  fold tcp in Hinv, Hidx. fold rest in Hinv, Ht.
  destruct (header_end_of_range tcp (Z.of_nat (length buffer)) ltac:(lia)
              ltac:(rewrite u32_small by lia; exact Hran))
    as (Hhe & Hr & _).
  destruct Hinv as [_ _ [Hraw _] _ Henc Hplain Htcp _].
  assert (Hrest : Z.of_nat (length rest) = Z.of_nat (length buffer) - 20).
  { unfold rest. rewrite length_skipn. lia. }
  (* the fields of the decoded segment *)
  assert (Hf : _tcp t = tcp /\ _options t = _options (scanned s)
               /\ _options_size t = _options_size (scanned s)
               /\ _total_options_size t = _total_options_size (scanned s)).
  { rewrite Ht. unfold set_inner_pdu. cbn. rewrite Htcp. repeat split. }
  destruct Hf as (Ftcp & Fopts & Fos & Ftot).
  assert (Hsize : _options_size t = header_end_of tcp).
  { rewrite Hfill. unfold get_data_offset. rewrite Ftcp, Hhe. reflexivity. }
  assert (Hregion : firstn (Z.to_nat (header_end_of tcp)) rest
                    = encode_options (_options t)).
  { rewrite Fopts, <- Hidx. apply Henc. rewrite <- Fos, Hsize, Hidx.
    reflexivity. }
  assert (Hpayload : match inner_pdu t with Some p => p | None => [] end
                     = skipn (Z.to_nat (header_end_of tcp)) rest).
  { rewrite Ht, Hidx. unfold set_inner_pdu. cbn [inner_pdu].
    destruct (Z.eqb_spec (Z.of_nat (length buffer) - 20 - header_end_of tcp) 0)
      as [E|E]; [|reflexivity].
    symmetry. apply skipn_all2. lia. }
  (* the serializer *)
  unfold serialize, write_serialization. rewrite Hpayload.
  assert (Hhs : header_size t = 20 + header_end_of tcp).
  { unfold header_size, sizeof_tcphdr. rewrite Hpad, Hsize.
    apply u32_small. change (2 ^ 32) with 4294967296. lia. }
  rewrite Hhs.
  replace (Z.to_nat (20 + header_end_of tcp))
    with (20 + Z.to_nat (header_end_of tcp))%nat by lia.
  rewrite repeat_app, <- app_assoc.
  set (pre := repeat x00 20).
  set (old := repeat x00 (Z.to_nat (header_end_of tcp))).
  set (post := skipn (Z.to_nat (header_end_of tcp)) rest).
  destruct (Z.ltb_spec (Z.of_nat (length (pre ++ old ++ post)))
                       (20 + header_end_of tcp)) as [Hshort|_].
  { exfalso. revert Hshort. unfold pre, old.
    rewrite !length_app, !repeat_length. lia. }
  change (0 + sizeof_tcphdr) with (Z.of_nat (length pre)).
  rewrite write_options_plain.
  2:{ rewrite Fopts. exact Hplain. }
  2:{ unfold old. rewrite repeat_length, Fopts, <- Hraw, <- Fos, Hsize. lia. }
  cbn [bind]. rewrite Hpad, Z.ltb_irrefl. cbn [bind].
  rewrite set_doff_same.
  2:{ rewrite Hsize, Hhe, Ftcp. unfold sizeof_tcphdr.
      pose proof (get_doff_range tcp).
      replace (20 + (get_doff tcp * 4 - 20)) with (get_doff tcp * 4) by lia.
      apply Z.div_mul. lia. }
  rewrite <- Hregion, Ftcp.
  assert (Hstore : store (pre ++ firstn (Z.to_nat (header_end_of tcp)) rest
                              ++ post) 0 (tcphdr_bytes tcp)
                   = Done (tcphdr_bytes tcp
                           ++ firstn (Z.to_nat (header_end_of tcp)) rest
                           ++ post)).
  { apply (store_app [] pre _ (tcphdr_bytes tcp)). reflexivity. }
  rewrite Hstore. cbn [bind].
  assert (Hback : tcphdr_bytes tcp
                  ++ firstn (Z.to_nat (header_end_of tcp)) rest ++ post
                  = buffer).
  { unfold post. rewrite firstn_skipn. unfold tcp, rest.
    rewrite tcphdr_bytes_of_bytes by lia. apply firstn_skipn. }
  rewrite Hback.
  replace (Utils.host_s (h_check tcp) =? 0) with false.
  - destruct (dynamic_cast_IP parent); cbn [bind]; eexists; reflexivity.
  - symmetry. apply Z.eqb_neq. unfold get_check in Hchk.
    rewrite Ftcp in Hchk. exact Hchk.
Qed.

End RoundTrip.

Lemma decode_serialize_round_trip_witness :
  exists t',
    serialize pseudo_header_sum ones_complement_sum
      (mk_TCP (tcphdr_of_bytes (example_header x60 (x12, x34)))
              [mk_TCPOption MSS x02 (Some [x05; xb4])] 4 4
              (Some [xaa; xbb]))
      None
    = Done (example_header x60 (x12, x34)
            ++ [x02; x04; x05; xb4; xaa; xbb], t').
Proof.
  apply (decode_serialize_round_trip pseudo_header_sum ones_complement_sum
           (example_header x60 (x12, x34) ++ [x02; x04; x05; xb4; xaa; xbb])).
  - vm_compute. reflexivity.
  - vm_compute. reflexivity.
  - vm_compute. discriminate.
  - reflexivity.
  - vm_compute. reflexivity.
Defined.

(** C1 as stated fails.  A header with data offset 6 followed by four NO_OP
    octets decodes into a segment with a checksum that is set and with no
    options, so that its padded and its encoded options size are both 0; it
    serializes to 20 octets with data offset 5.  And a region 01 03 03 07 (a
    NO_OP, then a window scale) decodes into a segment whose padded options
    size, 4, is the size of the region; it serializes to 03 03 07 01. *)
Lemma decode_serialize_drops_filler :
  (exists t out t',
     TCP_buffer (example_header x60 (x12, x34) ++ [x01; x01; x01; x01])
     = Done t
     /\ get_check t <> 0
     /\ _total_options_size t = _options_size t
     /\ serialize pseudo_header_sum ones_complement_sum t None
        = Done (out, t')
     /\ out = example_header x50 (x12, x34)
     /\ out <> example_header x60 (x12, x34) ++ [x01; x01; x01; x01])
  /\ (exists t out t',
        TCP_buffer (example_header x60 (x12, x34) ++ [x01; x03; x03; x07])
        = Done t
        /\ get_check t <> 0
        /\ _total_options_size t = 4
        /\ serialize pseudo_header_sum ones_complement_sum t None
           = Done (out, t')
        /\ out = example_header x60 (x12, x34) ++ [x03; x03; x07; x01]
        /\ out <> example_header x60 (x12, x34) ++ [x01; x03; x03; x07]).
Proof.
  split.
  - do 3 eexists. split; [vm_compute; reflexivity|].
    split; [vm_compute; discriminate|].
    split; [reflexivity|].
    split; [vm_compute; reflexivity|].
    split; [reflexivity | discriminate].
  - do 3 eexists. split; [vm_compute; reflexivity|].
    split; [vm_compute; discriminate|].
    split; [reflexivity|].
    split; [vm_compute; reflexivity|].
    split; [reflexivity | discriminate].
Qed.

(** * Further properties of the code *)

(** ** Searching after adding *)

Lemma find_app {A : Type} (f : A -> bool) (l1 l2 : list A) :
  find f (l1 ++ l2)
  = match find f l1 with Some a => Some a | None => find f l2 end.
Proof.
  induction l1 as [|a l1 IH]; simpl; [reflexivity|].
  destruct (f a); [reflexivity | exact IH].
Qed.

(** X1: [search_option] after [add_option].  A search finds what it found
    before the insertion, if it found anything (the first option of a kind
    wins, duplicates stay behind it); otherwise it finds the new option
    when that has the kind searched for, and nothing when it has not. *)
Theorem search_option_add_option (opt tcp_option : Z) (len : byte)
                                 (data : list byte) (t : TCP) :
  search_option opt (add_option tcp_option len data t)
  = match search_option opt t with
    | Some o => Some o
    | None =>
        if tcp_option =? opt
        then Some (mk_TCPOption tcp_option len
                     (if u8 len =? 0 then None
                      else Some (memcpy_from data (u8 len))))
        else None
    end.
Proof.
  unfold search_option.
  destruct (add_option_fields tcp_option len data t) as (_ & _ & -> & _).
  rewrite find_app. destruct (find _ (_options t)); [reflexivity|].
  cbn [find opt_option]. destruct (tcp_option =? opt); reflexivity.
Qed.

(** ** SACK permitted *)

Lemma search_option_Some_In (opt : Z) (t : TCP) (o : TCPOption) :
  search_option opt t = Some o -> In o (_options t) /\ opt_option o = opt.
Proof.
  unfold search_option. intros H. apply find_some in H.
  destruct H as [Hin Hk]. split; [exact Hin|]. apply Z.eqb_eq. exact Hk.
Qed.

(** X2: [search_sack_permitted_option] is true exactly when the segment
    holds an option of kind 4, whatever its length: it is true after
    [add_sack_permitted_option] on any segment, and it stays true under
    every further insertion. *)
Theorem search_sack_permitted_option_spec (t : TCP) :
  (search_sack_permitted_option t = true
   <-> exists o, In o (_options t) /\ opt_option o = SACK_OK)
  /\ search_sack_permitted_option (add_sack_permitted_option t) = true
  /\ (forall (tcp_option : Z) (len : byte) (data : list byte),
        search_sack_permitted_option t = true ->
        search_sack_permitted_option (add_option tcp_option len data t)
        = true).
Proof.
  split; [|split].
  - unfold search_sack_permitted_option. split.
    + destruct (search_option SACK_OK t) as [o|] eqn:E; [|discriminate].
      intros _. exists o. apply search_option_Some_In. exact E.
    + intros (o & Hin & Hk). unfold search_option.
      destruct (find _ (_options t)) as [o'|] eqn:E; [reflexivity|].
      exfalso. apply (find_none _ _ E) in Hin.
      rewrite Hk, Z.eqb_refl in Hin. discriminate.
  - unfold search_sack_permitted_option, add_sack_permitted_option,
      search_option.
    destruct (add_option_fields SACK_OK x00 [] t) as (_ & _ & -> & _).
    rewrite find_app. destruct (find _ (_options t)); reflexivity.
  - intros tcp_option len data.
    unfold search_sack_permitted_option, search_option.
    destruct (add_option_fields tcp_option len data t) as (_ & _ & -> & _).
    rewrite find_app.
    destruct (find _ (_options t)); [reflexivity | discriminate].
Qed.

(** ** Timestamps *)

Lemma host_l_skipn_net_order_l (a b : Z) (rest : list byte) :
  0 <= b < 2 ^ 32 ->
  Utils.host_l (skipn 4 (Utils.net_order_l a ++ Utils.net_order_l b ++ rest))
  = b.
Proof.
  intros Hb. change (skipn 4 (Utils.net_order_l a ++ Utils.net_order_l b ++ rest))
    with (Utils.net_order_l b ++ rest).
  apply host_l_net_order_l. exact Hb.
Qed.

(** What [search_timestamp_option] returns right after
    [add_timestamp_option] on a segment without an earlier timestamp
    option. *)
Lemma search_after_add_timestamp (little_endian : bool) (value reply : Z)
                                 (t : TCP) :
  search_option TSOPT t = None ->
  0 <= value < 2 ^ 32 -> 0 <= reply < 2 ^ 32 ->
  search_timestamp_option (add_timestamp_option little_endian value reply t)
  = Some (if little_endian then (value, reply) else (reply, value)).
Proof.
  intros Hnone Hv Hr.
  unfold search_timestamp_option, add_timestamp_option, search_option.
  match goal with
  | |- context [add_option TSOPT x08 ?d t] =>
      destruct (add_option_fields TSOPT x08 d t) as (_ & _ & -> & _)
  end.
  rewrite find_app_None by exact Hnone.
  cbn [find opt_option]. rewrite Z.eqb_refl. cbn [opt_length opt_value].
  change (u8 x08) with 8. cbn [Z.eqb Pos.eqb negb].
  unfold memcpy_from. change (Z.to_nat 8) with 8%nat.
  destruct little_endian.
  - change (firstn 8 (Utils.net_order_l value ++ Utils.net_order_l reply))
      with (Utils.net_order_l value ++ Utils.net_order_l reply ++ []).
    rewrite host_l_net_order_l, host_l_skipn_net_order_l by assumption.
    reflexivity.
  - change (firstn 8 (Utils.net_order_l reply ++ Utils.net_order_l value))
      with (Utils.net_order_l reply ++ Utils.net_order_l value ++ []).
    rewrite host_l_net_order_l, host_l_skipn_net_order_l by assumption.
    reflexivity.
Qed.

(** X3: on a little-endian host, adding a timestamp option to a segment
    that holds none and searching it gives back the value and the reply,
    each in its place. *)
Theorem timestamp_round_trip_little_endian (value reply : Z) (t : TCP) :
  search_option TSOPT t = None ->
  0 <= value < 2 ^ 32 -> 0 <= reply < 2 ^ 32 ->
  search_timestamp_option (add_timestamp_option true value reply t)
  = Some (value, reply).
Proof.
  intros Hnone Hv Hr.
  exact (search_after_add_timestamp true value reply t Hnone Hv Hr).
Qed.

Lemma timestamp_round_trip_little_endian_witness :
  search_timestamp_option
    (add_timestamp_option true 305419896 2271560481 (TCP_ports 80 443))
  = Some (305419896, 2271560481).
Proof.
  apply (timestamp_round_trip_little_endian 305419896 2271560481
           (TCP_ports 80 443)); [reflexivity | lia | lia].
Defined.

(** X4: on a big-endian host the two words of the local [uint64_t] lie the
    other way round in memory: the search gives the reply as the value and
    the value as the reply. *)
Theorem timestamp_swapped_big_endian (value reply : Z) (t : TCP) :
  search_option TSOPT t = None ->
  0 <= value < 2 ^ 32 -> 0 <= reply < 2 ^ 32 ->
  search_timestamp_option (add_timestamp_option false value reply t)
  = Some (reply, value).
Proof.
  intros Hnone Hv Hr.
  exact (search_after_add_timestamp false value reply t Hnone Hv Hr).
Qed.

Lemma timestamp_swapped_big_endian_witness :
  search_timestamp_option
    (add_timestamp_option false 305419896 2271560481 (TCP_ports 80 443))
  = Some (2271560481, 305419896).
Proof.
  apply (timestamp_swapped_big_endian 305419896 2271560481
           (TCP_ports 80 443)); [reflexivity | lia | lia].
Defined.

(** X5: [search_timestamp_option] looks at the first timestamp option
    only.  When that one has a length other than 8 the search fails, and it
    keeps failing after a well-formed timestamp option is added behind
    it. *)
Theorem timestamp_first_option_decides (t : TCP) (o : TCPOption)
                                       (little_endian : bool)
                                       (value reply : Z) :
  search_option TSOPT t = Some o ->
  u8 (opt_length o) <> 8 ->
  search_timestamp_option t = None
  /\ search_timestamp_option (add_timestamp_option little_endian value reply t)
     = None.
Proof.
  intros Hfind Hlen.
  assert (Hneg : negb (u8 (opt_length o) =? 8) = true).
  { destruct (Z.eqb_spec (u8 (opt_length o)) 8); [contradiction|reflexivity]. }
  split.
  - unfold search_timestamp_option. rewrite Hfind, Hneg. reflexivity.
  - unfold search_timestamp_option, add_timestamp_option, search_option.
    match goal with
    | |- context [add_option TSOPT x08 ?d t] =>
        destruct (add_option_fields TSOPT x08 d t) as (_ & _ & -> & _)
    end.
    rewrite find_app. unfold search_option in Hfind. rewrite Hfind, Hneg.
    reflexivity.
Qed.

Lemma timestamp_first_option_decides_witness :
  search_timestamp_option
    (add_timestamp_option true 1 2
       (add_option TSOPT x04 [x00; x00; x00; x01] (TCP_ports 80 443)))
  = None.
Proof.
  refine (proj2 (timestamp_first_option_decides
           (add_option TSOPT x04 [x00; x00; x00; x01] (TCP_ports 80 443))
           (mk_TCPOption TSOPT x04 (Some [x00; x00; x00; x01]))
           true 1 2 _ _)).
  - reflexivity.
  - vm_compute. discriminate.
Defined.

(** ** Maximum segment size *)

Lemma host_s_net_order_s (v : Z) :
  Utils.host_s (Utils.net_order_s v) = v mod 65536.
Proof.
  unfold Utils.host_s, Utils.net_order_s. cbn [fst snd].
  rewrite !u8_to_u8, Z.shiftl_mul_pow2, Z.shiftr_div_pow2 by lia.
  change (2 ^ 8) with 256. Z.div_mod_to_equations. lia.
Qed.



(** ** SACK with any number of edges *)

Lemma flat_map_net_order_l_firstn (m : nat) (edges : list Z) :
  (m <= length edges)%nat ->
  firstn (4 * m) (flat_map Utils.net_order_l edges)
  = flat_map Utils.net_order_l (firstn m edges).
Proof.
  revert edges. induction m as [|m IH]; intros edges Hm; [reflexivity|].
  destruct edges as [|e edges]; cbn [length] in Hm; [lia|].
  replace (4 * S m)%nat with (4 + 4 * m)%nat by lia.
  cbn [flat_map firstn]. unfold Utils.net_order_l at 1 3.
  cbn [app Nat.add firstn]. do 4 f_equal. apply IH. lia.
Qed.

(** X7: the length octet of a SACK option is four times the number of
    edges as a [uint8_t].  On a segment without an earlier SACK option,
    adding the edges and searching them gives back the first [n mod 64] of
    the [n] edges, in order: all of them below 64 edges, none of them for
    64. *)
Theorem sack_option_keeps_n_mod_64 (edges out : list Z) (t : TCP) :
  search_option SACK t = None ->
  Forall (fun e => 0 <= e < 2 ^ 32) edges ->
  search_sack_option out (add_sack_option edges t)
  = (true, out ++ firstn (length edges mod 64) edges).
Proof.
  intros Hnone Hedges.
  set (n := length edges).
  set (m := (n mod 64)%nat).
  assert (Hm : (m <= n)%nat) by (unfold m; apply Nat.Div0.mod_le).
  assert (HL : (4 * Z.of_nat n) mod 256 = 4 * Z.of_nat m).
  { unfold m. rewrite Nat2Z.inj_mod. change (Z.of_nat 64) with 64.
    Z.div_mod_to_equations. lia. }
  unfold search_sack_option, add_sack_option, search_option. fold n.
  destruct (add_option_fields SACK (to_u8 (4 * Z.of_nat n))
              (if 0 <? Z.of_nat n
               then flat_map Utils.net_order_l edges else []) t)
    as (_ & _ & -> & _).
  rewrite find_app_None by exact Hnone.
  cbn [find opt_option]. rewrite Z.eqb_refl. cbn [opt_length opt_value].
  rewrite !u8_to_u8, !HL.
  rewrite Z.mul_comm, Z.mod_mul by lia. cbn [Z.eqb negb].
  rewrite Z.div_mul by lia. rewrite Nat2Z.id.
  destruct (Z.eqb_spec (Z.of_nat m * 4) 0) as [E0|E0].
  - assert (m = 0%nat) as -> by lia. reflexivity.
  - replace (0 <? Z.of_nat n) with true by (symmetry; apply Z.ltb_lt; lia).
    unfold memcpy_from.
    replace (Z.to_nat (Z.of_nat m * 4)) with (4 * m)%nat by lia.
    rewrite flat_map_net_order_l_firstn by exact Hm.
    rewrite <- (app_nil_r (flat_map _ _)).
    replace m with (length (firstn m edges)) at 1
      by (rewrite length_firstn; fold n; lia).
    rewrite read_edges_net_order; [reflexivity|].
    rewrite <- (firstn_skipn m edges) in Hedges.
    apply Forall_app in Hedges. apply Hedges.
Qed.

Lemma sack_option_keeps_n_mod_64_witness :
  search_sack_option [] (add_sack_option (repeat 7 64) (TCP_ports 80 443))
  = (true, []).
Proof.
  apply (sack_option_keeps_n_mod_64 (repeat 7 64) [] (TCP_ports 80 443)).
  - reflexivity.
  - apply Forall_forall. intros e He. apply repeat_spec in He. subst e. lia.
Defined.

(** ** Flags *)

Lemma get_set_bitfield (i j : Z) (value : byte) (h : tcphdr) :
  0 <= i < 8 -> 0 <= j < 8 ->
  get_bitfield j (set_bitfield i value h)
  = if i =? j then (if Z.odd (u8 value) then x01 else x00)
    else get_bitfield j h.
Proof.
  intros Hi Hj. unfold get_bitfield, set_bitfield. cbn [h_flags].
  rewrite u8_to_u8. change 256 with (2 ^ 8).
  rewrite Z.mod_pow2_bits_low by lia.
  destruct (Z.odd (u8 value)).
  - rewrite Z.setbit_eqb by lia.
    destruct (Z.eqb_spec i j); reflexivity.
  - rewrite Z.clearbit_eqb.
    destruct (Z.eqb_spec i j); cbn [negb]; [rewrite andb_false_r|rewrite andb_true_r];
      reflexivity.
Qed.

Lemma set_bitfield_bytes (i : Z) (value : byte) (h : tcphdr) (n : nat) :
  n <> 13%nat ->
  nth n (tcphdr_bytes (set_bitfield i value h)) x00
  = nth n (tcphdr_bytes h) x00.
Proof.
  intros Hn. unfold tcphdr_bytes, set_bitfield.
  cbn [h_sport h_dport h_seq h_ack_seq h_doff_res1 h_flags h_window h_check
       h_urg_ptr].
  do 13 (destruct n as [|n]; [reflexivity|]).
  destruct n as [|n]; [contradiction|]. reflexivity.
Qed.

(** X8: the flags.  After [set_flag(f, value)] on one of the eight flags,
    [get_flag(f)] is the low bit of [value] (so an even non-zero value
    clears the flag) and every other flag reads as before; on a flag value
    without a case [set_flag] changes nothing and [get_flag] is 0.
    [set_flag] touches octet 13 of the header only, and no option. *)
Theorem set_flag_get_flag (f g : Flags) (value : byte) (t : TCP) :
  (f <> Flag_other ->
   get_flag f (set_flag f value t) = if Z.odd (u8 value) then x01 else x00)
  /\ (g <> f -> get_flag g (set_flag f value t) = get_flag g t)
  /\ set_flag Flag_other value t = t
  /\ get_flag Flag_other t = x00
  /\ (forall n : nat, n <> 13%nat ->
        nth n (tcphdr_bytes (_tcp (set_flag f value t))) x00
        = nth n (tcphdr_bytes (_tcp t)) x00)
  /\ _options (set_flag f value t) = _options t
  /\ _options_size (set_flag f value t) = _options_size t
  /\ _total_options_size (set_flag f value t) = _total_options_size t
  /\ inner_pdu (set_flag f value t) = inner_pdu t.
Proof.
  split; [|split; [|split; [|split; [|split]]]].
  - intros Hf. destruct f; try contradiction;
      cbn [get_flag set_flag with_tcp _tcp];
      rewrite get_set_bitfield by lia; reflexivity.
  - intros Hg.
    destruct f; destruct g; try contradiction; try reflexivity;
      cbn [get_flag set_flag with_tcp _tcp];
      rewrite get_set_bitfield by lia; reflexivity.
  - reflexivity.
  - reflexivity.
  - intros n Hn. destruct f; cbn [set_flag with_tcp _tcp];
      try reflexivity; apply set_bitfield_bytes; exact Hn.
  - destruct f; repeat split.
Qed.

(** ** Copies that are equal *)

(** X9: for a source whose option buffers hold no more than [length]
    octets (what [add_option] and the decoder store), the copy constructor
    builds a segment equal to the source in header, options, counters and
    payload; [clone_pdu] does the same for header, options and counters;
    and the assignment to a destination (another object) with an empty
    option list leaves the destination equal to the source. *)
Theorem copies_equal_source (other : TCP) :
  Forall value_fits (_options other) ->
  TCP_copy other = other
  /\ clone_pdu other = set_inner_pdu None other
  /\ (forall this : TCP,
        _options this = [] -> operator_assign other this = other).
Proof.
  intros Hfits.
  pose proof (map_copy_option_id (_options other) Hfits) as Hmap.
  destruct other as [h opts os tot inner]. cbn [_options] in Hmap.
  split; [|split].
  - unfold TCP_copy, copy_fields, PDU_copy, set_inner_pdu, TCP_members.
    cbn. rewrite Hmap. reflexivity.
  - unfold clone_pdu, copy_fields, set_inner_pdu. cbn. rewrite Hmap.
    reflexivity.
  - intros this Hempty.
    unfold operator_assign, copy_fields, PDU_copy, set_inner_pdu.
    cbn. rewrite Hempty, Hmap. reflexivity.
Qed.

Lemma copies_equal_source_witness :
  TCP_copy (add_mss_option 1460 (TCP_ports 80 443))
  = add_mss_option 1460 (TCP_ports 80 443).
Proof.
  refine (proj1 (copies_equal_source (add_mss_option 1460 (TCP_ports 80 443))
                   _)).
  repeat constructor. vm_compute. discriminate.
Defined.

(** ** The padding counter *)

(** X10: the padding loop counts in a [uint8_t].  When the padded size is
    256 or more the counter stays below it for ever: the loop never returns,
    however many turns it is given, and [write_serialization] does not
    return for a segment whose raw options size is below such a padded
    size. *)
Theorem write_padding_never_returns (pseudoheader_checksum : Z -> Z -> Z -> Z -> Z)
                                    (do_checksum : list byte -> Z)
                                    (total : Z) :
  256 <= total ->
  (forall (fuel : nat) (padding : byte) (buffer : list byte) (pos : Z)
          (r : list byte * Z),
      write_padding fuel padding total buffer pos <> Done r)
  /\ (forall (t : TCP) (buffer : list byte) (parent : option PDU)
             (r : list byte * TCP),
        _total_options_size t = total ->
        _options_size t < total ->
        write_serialization pseudoheader_checksum do_checksum t buffer parent
        <> Done r).
Proof.
  intros Htotal.
  assert (Hloop : forall (fuel : nat) (padding : byte) (buffer : list byte)
                         (pos : Z) (r : list byte * Z),
             write_padding fuel padding total buffer pos <> Done r).
  { induction fuel as [|fuel IH]; intros padding buffer pos r;
      cbn [write_padding]; pose proof (u8_range padding) as Rp;
      destruct (Z.ltb_spec (u8 padding) total) as [_|Hge]; try lia;
      [discriminate|].
    destruct (store buffer pos [x01]) as [b| | |]; cbn [bind];
      try discriminate. apply IH. }
  split; [exact Hloop|].
  intros t buffer parent r Ht Hlt. unfold write_serialization.
  destruct (_ <? header_size t); [discriminate|].
  destruct (write_options (_options t) buffer (0 + sizeof_tcphdr))
    as [[b1 p1]| | |]; cbn [bind]; try discriminate.
  rewrite Ht. destruct (Z.ltb_spec (_options_size t) total) as [_|Hge];
    [|lia].
  destruct (write_padding 256 (to_u8 (_options_size t)) total b1 p1)
    as [r2| | |] eqn:Epad; cbn [bind]; try discriminate.
  exfalso. exact (Hloop _ _ _ _ _ Epad).
Qed.

Lemma write_padding_never_returns_witness :
  ~ (exists r,
       write_serialization pseudo_header_sum ones_complement_sum
         (add_option 253 xfd (repeat x00 253) (TCP_ports 80 443))
         (repeat x00 280) None
       = Done r).
Proof.
  intros [r Hr]. revert Hr.
  refine (proj2 (write_padding_never_returns pseudo_header_sum
                   ones_complement_sum 256 _) _ _ _ r _ _).
  - lia.
  - vm_compute. reflexivity.
  - vm_compute. reflexivity.
Defined.

(** ** The carry fold *)

(** X11: the carry fold of lines 316 and 317 ends on every 32-bit sum,
    within two turns; what it leaves fits 16 bits, is congruent to the sum
    modulo 65535 and is zero only for the sum zero. *)
Theorem fold_carries_congruent (c : Z) :
  0 <= c < 2 ^ 32 ->
  exists c',
    fold_carries 2 c = Done c'
    /\ 0 <= c' < 2 ^ 16
    /\ c' mod 65535 = c mod 65535
    /\ (c' = 0 <-> c = 0).
Proof.
  intros Hc. change (2 ^ 32) with 4294967296 in Hc.
  change (2 ^ 16) with 65536.
  assert (Hland : forall x, Z.land x 65535 = x mod 65536).
  { intros x. change 65535 with (Z.ones 16).
    rewrite Z.land_ones by lia. reflexivity. }
  assert (Hsh : forall x, Z.shiftr x 16 = x / 65536).
  { intros x. rewrite Z.shiftr_div_pow2 by lia. reflexivity. }
  assert (Hcong : forall x, (x mod 65536 + x / 65536) mod 65535 = x mod 65535).
  { intros x. rewrite (Z.div_mod x 65536) at 3 by lia.
    replace (65536 * (x / 65536) + x mod 65536)
      with (x mod 65536 + x / 65536 + (x / 65536) * 65535) by lia.
    rewrite Z.mod_add by lia. reflexivity. }
  cbn [fold_carries]. rewrite !Hsh, !Hland.
  destruct (Z.eqb_spec (c / 65536) 0) as [E0|E0].
  { exists c. split; [reflexivity|]. split; [|split; [reflexivity|tauto]].
    Z.div_mod_to_equations. lia. }
  assert (Hpos : 0 < c) by (Z.div_mod_to_equations; lia).
  set (c1 := c mod 65536 + c / 65536).
  assert (H1 : 0 < c1 <= 131070).
  { unfold c1. Z.div_mod_to_equations. lia. }
  assert (Hc1 : c1 mod 65535 = c mod 65535) by apply Hcong.
  destruct (Z.eqb_spec (c1 / 65536) 0) as [E1|E1].
  { exists c1. split; [reflexivity|]. split; [|split; [exact Hc1|lia]].
    Z.div_mod_to_equations. lia. }
  set (c2 := c1 mod 65536 + c1 / 65536).
  assert (H2 : 0 < c2 < 65536).
  { unfold c2. Z.div_mod_to_equations. lia. }
  replace (c2 / 65536 =? 0) with true
    by (symmetry; apply Z.eqb_eq; apply Z.div_small; lia).
  exists c2. split; [reflexivity|]. split; [lia|]. split; [|lia].
  unfold c2. rewrite Hcong. exact Hc1.
Qed.

Lemma fold_carries_congruent_witness :
  exists c',
    fold_carries 2 4294967295 = Done c'
    /\ 0 <= c' < 2 ^ 16
    /\ c' mod 65535 = 4294967295 mod 65535
    /\ (c' = 0 <-> 4294967295 = 0).
Proof. apply (fold_carries_congruent 4294967295). lia. Defined.

(** ** The scan over well-formed entries *)

Lemma scan_reaches_trans (buffer : list byte) (header_end : Z)
                         (s1 s2 s3 : scan_state) :
  scan_reaches buffer header_end s1 s2 ->
  scan_reaches buffer header_end s2 s3 ->
  scan_reaches buffer header_end s1 s3.
Proof.
  induction 1 as [s|s s' s'' Hlt Hbody _ IH]; intros H23; [exact H23|].
  eapply reaches_turn; [exact Hlt | exact Hbody | apply IH; exact H23].
Qed.

Lemma peek_app_at (pre post : list byte) (i : nat) :
  peek (pre ++ post) (Z.of_nat (length pre + i)) = nth i post x00.
Proof.
  unfold peek. rewrite Nat2Z.id, app_nth2 by lia.
  f_equal. lia.
Qed.

Lemma skipn_app_at (pre post : list byte) (i : nat) :
  skipn (length pre + i) (pre ++ post) = skipn i post.
Proof.
  rewrite skipn_app, skipn_all2 by lia.
  replace (length pre + i - length pre)%nat with i by lia. reflexivity.
Qed.

(** The turn of the loop at an entry in stored form: the entry is stored
    as it is and the cursor moves behind it. *)
Lemma scan_body_entry (buffer pre tail : list byte) (header_end : Z)
                      (s : scan_state) (o : TCPOption) :
  buffer = pre ++ encode_option o ++ tail ->
  index s = Z.of_nat (length pre) ->
  u8 (args0 s) <> NOP ->
  stored_form o ->
  index s + (u8 (opt_length o) + 2) <= header_end ->
  header_end <= 255 ->
  exists s',
    scan_body buffer header_end s = Done s'
    /\ index s' = index s + (u8 (opt_length o) + 2)
    /\ u8 (args0 s') <> NOP
    /\ _options (scanned s') = _options (scanned s) ++ [o].
Proof.
  intros Hbuf Hidx Hargs (Hk & Hnop & Heol & Hv) Hfit Hhe.
  pose proof (u8_range (opt_length o)) as Rl.
  assert (Hlen2 : u8 (to_u8 (u8 (opt_length o) + 2)) = u8 (opt_length o) + 2).
  { rewrite u8_to_u8. apply Z.mod_small. lia. }
  assert (Hkind : u8 (to_u8 (opt_option o)) = opt_option o).
  { rewrite u8_to_u8. apply Z.mod_small. lia. }
  assert (Hpk : peek buffer (index s) = to_u8 (opt_option o)).
  { rewrite Hbuf, Hidx. replace (length pre) with (length pre + 0)%nat by lia.
    rewrite peek_app_at. reflexivity. }
  assert (Hpl : peek buffer (index s + 1) = to_u8 (u8 (opt_length o) + 2)).
  { rewrite Hbuf, Hidx.
    replace (Z.of_nat (length pre) + 1) with (Z.of_nat (length pre + 1)) by lia.
    rewrite peek_app_at. reflexivity. }
  assert (Ha1 : to_u8 (u8 (to_u8 (u8 (opt_length o) + 2)) - 2) = opt_length o).
  { rewrite Hlen2. replace (u8 (opt_length o) + 2 - 2) with (u8 (opt_length o))
      by lia. apply to_u8_u8. }
  rewrite scan_body_cases by lia. cbv zeta.
  rewrite Hpk, Hpl, Ha1, Hkind.
  destruct (Z.eqb_spec (opt_option o) NOP) as [E|_]; [contradiction|].
  destruct (Z.eqb_spec (index s + 1) header_end) as [E|_]; [lia|].
  destruct (Z.eqb_spec (opt_option o) EOL) as [E|_]; [contradiction|].
  destruct (Z.ltb_spec (header_end - (index s + 2)) (u8 (opt_length o)))
    as [Hlt|_]; [lia|].
  eexists. split; [reflexivity|].
  cbn [index args0 scanned]. split; [lia|]. split; [rewrite Hkind; exact Hnop|].
  destruct (add_option_fields (opt_option o) (opt_length o)
              (skipn (Z.to_nat (index s + 2)) buffer) (scanned s))
    as (_ & _ & -> & _).
  do 2 f_equal. destruct o as [k l v].
  cbn [opt_option opt_length opt_value] in *. f_equal.
  rewrite Hbuf, Hidx.
  replace (Z.to_nat (Z.of_nat (length pre) + 2)) with (length pre + 2)%nat
    by lia.
  rewrite skipn_app_at. unfold encode_option.
  cbn [opt_option opt_length opt_value app skipn].
  destruct v as [v|].
  - destruct Hv as [Hvl Hnz].
    destruct (Z.eqb_spec (u8 l) 0) as [E|_]; [contradiction|].
    unfold memcpy_from. rewrite firstn_app, firstn_all2 by lia.
    replace (Z.to_nat (u8 l) - length v)%nat with 0%nat by lia.
    cbn [firstn]. rewrite app_nil_r. reflexivity.
  - rewrite Hv. reflexivity.
Qed.

Lemma encode_option_length (o : TCPOption) :
  stored_form o ->
  Z.of_nat (length (encode_option o)) = u8 (opt_length o) + 2.
Proof.
  intros (_ & _ & _ & Hv). unfold encode_option. rewrite length_app.
  cbn [length]. destruct (opt_value o); cbn [length]; lia.
Qed.

(** The scan passes over a run of entries in stored form and stores each
    one. *)
Lemma scan_reaches_entries (buffer : list byte) (header_end : Z)
                           (opts : list TCPOption) :
  header_end <= 255 ->
  Forall stored_form opts ->
  forall (pre tail : list byte) (s : scan_state),
    buffer = pre ++ encode_options opts ++ tail ->
    index s = Z.of_nat (length pre) ->
    u8 (args0 s) <> NOP ->
    index s + raw_size opts <= header_end ->
    exists s',
      scan_reaches buffer header_end s s'
      /\ index s' = index s + raw_size opts
      /\ u8 (args0 s') <> NOP
      /\ _options (scanned s') = _options (scanned s) ++ opts.
Proof.
  intros Hhe Hform.
  induction Hform as [|o opts Ho _ IH]; intros pre tail s Hbuf Hidx Hargs Hfit.
  - exists s. cbn [raw_size fold_right]. rewrite app_nil_r, Z.add_0_r.
    repeat split; [apply reaches_here | assumption].
  - cbn [raw_size fold_right encode_options flat_map] in *.
    fold (raw_size opts) in *. fold (encode_options opts) in *.
    pose proof (raw_size_nonneg opts) as Hnn.
    pose proof (u8_range (opt_length o)) as Rl.
    rewrite <- app_assoc in Hbuf.
    destruct (scan_body_entry buffer pre (encode_options opts ++ tail)
                header_end s o Hbuf Hidx Hargs Ho ltac:(lia) Hhe)
      as (s1 & Hbody & Hidx1 & Hargs1 & Hopts1).
    destruct (IH (pre ++ encode_option o) tail s1) as (s' & Hr & Hi & Ha & Ho').
    + rewrite <- app_assoc. exact Hbuf.
    + rewrite Hidx1, Hidx, length_app.
      pose proof (encode_option_length o Ho). lia.
    + exact Hargs1.
    + lia.
    + exists s'. split; [|split; [lia|split; [exact Ha|]]].
      * eapply reaches_turn; [lia | exact Hbody | exact Hr].
      * rewrite Ho', Hopts1, <- app_assoc. reflexivity.
Qed.

(** The scan passes over a run of NO_OP octets and stores nothing. *)
Lemma scan_reaches_nops (buffer : list byte) (header_end : Z) (pad : nat) :
  header_end < 2 ^ 32 ->
  forall (pre tail : list byte) (s : scan_state),
    buffer = pre ++ repeat x01 pad ++ tail ->
    index s = Z.of_nat (length pre) ->
    u8 (args0 s) <> NOP ->
    index s + Z.of_nat pad <= header_end ->
    exists s',
      scan_reaches buffer header_end s s'
      /\ index s' = index s + Z.of_nat pad
      /\ u8 (args0 s') <> NOP
      /\ scanned s' = scanned s.
Proof.
  intros Hhe. induction pad as [|pad IH]; intros pre tail s Hbuf Hidx Hargs Hfit.
  - exists s. rewrite Z.add_0_r.
    repeat split; [apply reaches_here | assumption].
  - cbn [repeat app] in Hbuf.
    assert (Hpk : peek buffer (index s) = x01).
    { rewrite Hbuf, Hidx. apply peek_app. }
    assert (Hbody : scan_body buffer header_end s
                    = Done (mk_scan (index s + 1) x00 (args1 s) (scanned s))).
    { rewrite scan_body_cases by lia. cbv zeta. rewrite Hpk. reflexivity. }
    destruct (IH (pre ++ [x01]) tail
                 (mk_scan (index s + 1) x00 (args1 s) (scanned s)))
      as (s' & Hr & Hi & Ha & Hs).
    + rewrite <- app_assoc. exact Hbuf.
    + cbn [index]. rewrite Hidx, length_app. cbn [length]. lia.
    + cbn [args0]. discriminate.
    + cbn [index]. lia.
    + exists s'. cbn [index scanned] in Hi, Hs.
      split; [|split; [lia|split; assumption]].
      eapply reaches_turn; [lia | exact Hbody | exact Hr].
Qed.

(** ** Decoding a buffer laid out entry by entry *)

Lemma tcphdr_of_bytes_bytes (h : tcphdr) (rest : list byte) :
  tcphdr_of_bytes (tcphdr_bytes h ++ rest) = h.
Proof.
  destruct h as [[s1 s2] [d1 d2] [[q1 q2] [q3 q4]] [[a1 a2] [a3 a4]] dr fl
                 [w1 w2] [c1 c2] [u1 u2]].
  reflexivity.
Qed.

Lemma skipn_tcphdr_bytes (h : tcphdr) (rest : list byte) :
  skipn 20 (tcphdr_bytes h ++ rest) = rest.
Proof. reflexivity. Qed.

Lemma length_tcphdr_bytes (h : tcphdr) : length (tcphdr_bytes h) = 20%nat.
Proof. reflexivity. Qed.

(** The segment the decoder returns once the scan has reached the end of
    the region. *)
Lemma TCP_buffer_scan_end (buffer : list byte) (s : scan_state) :
  Z.of_nat (length buffer) < 2 ^ 32 ->
  header_end_of (tcphdr_of_bytes buffer) <= Z.of_nat (length buffer) - 20 ->
  scan_reaches (skipn 20 buffer) (header_end_of (tcphdr_of_bytes buffer))
               (scan_init (tcphdr_of_bytes buffer)) s ->
  index s = header_end_of (tcphdr_of_bytes buffer) ->
  TCP_buffer buffer
  = Done (set_inner_pdu
            (if Z.of_nat (length buffer) - 20 - index s =? 0 then None
             else Some (skipn (Z.to_nat (index s)) (skipn 20 buffer)))
            (scanned s))
  /\ scan_inv (skipn 20 buffer) (header_end_of (tcphdr_of_bytes buffer))
              (tcphdr_of_bytes buffer) s.
Proof.
  set (tcp := tcphdr_of_bytes buffer).
  set (rest := skipn 20 buffer).
  intros Hn Hfit Hreach Hend.
  assert (Hn20 : 20 <= Z.of_nat (length buffer)).
  { unfold header_end_of, u32 in Hfit.
    pose proof (Z.mod_pos_bound (get_doff tcp * 4 - sizeof_tcphdr) (2 ^ 32)
                  ltac:(lia)). lia. }
  destruct (header_end_of_range tcp (Z.of_nat (length buffer)) ltac:(lia)
              ltac:(rewrite u32_small by lia; exact Hfit)) as (_ & Hr & _).
  assert (Hrest : Z.of_nat (length rest) = Z.of_nat (length buffer) - 20).
  { unfold rest. rewrite length_skipn. lia. }
  pose proof (scan_init_inv rest (header_end_of tcp) tcp Hr) as Hinit.
  pose proof (scan_reaches_inv rest _ tcp Hr ltac:(lia) _ _ Hreach Hinit)
    as Hinv.
  split; [|exact Hinv].
  destruct (scan_loop_reaches rest _ tcp Hr ltac:(lia) _ _ Hreach Hinit
              (length rest) ltac:(cbn [index scan_init]; lia))
    as (fuel' & _ & Heq).
  assert (Hdone : scan_loop rest (header_end_of tcp) fuel' s = Done s).
  { destruct fuel'; cbn [scan_loop];
      destruct (Z.ltb_spec (index s) (header_end_of tcp)); try lia;
      reflexivity. }
  unfold TCP_buffer.
  destruct (Z.ltb_spec (Z.of_nat (length buffer)) sizeof_tcphdr) as [Hlt|_];
    [unfold sizeof_tcphdr in Hlt; lia|].
  unfold sizeof_tcphdr. change (Z.to_nat 20) with 20%nat.
  fold tcp. fold rest.
  rewrite (u32_small (Z.of_nat (length buffer) - 20)) by lia.
  destruct (Z.leb_spec (header_end_of tcp) (Z.of_nat (length buffer) - 20))
    as [_|Hgt]; [|lia].
  rewrite Heq, Hdone. cbn [bind].
  rewrite (u32_small (Z.of_nat (length buffer) - 20 - index s)) by lia.
  destruct (Z.eqb_spec (Z.of_nat (length buffer) - 20 - index s) 0) as [E|E].
  - pose proof (inv_inner _ _ _ _ Hinv) as Hi.
    destruct (scanned s) as [h o a b i]. cbn in Hi. rewrite Hi. reflexivity.
  - unfold RawPDU, memcpy_from.
    rewrite firstn_all2; [reflexivity|].
    rewrite length_skipn. lia.
Qed.

(** A segment is known by its fields. *)
Lemma scan_inv_scanned (buffer : list byte) (header_end : Z) (tcp : tcphdr)
                       (s : scan_state) (opts : list TCPOption) :
  scan_inv buffer header_end tcp s ->
  _options (scanned s) = opts ->
  scanned s = mk_TCP tcp opts (raw_size opts) (round_up4 (raw_size opts)) None.
Proof.
  intros [_ _ [Hraw Htot] _ _ _ Htcp Hinner] Hopts.
  destruct (scanned s) as [h o a b i]. cbn in *. subst. reflexivity.
Qed.

(** The decoder on a buffer made of a header, entries in stored form,
    filler and payload, when the header declares entries and filler as its
    options region. *)
Lemma TCP_buffer_entries_filler (h : tcphdr) (opts : list TCPOption)
                                (fill pl : list byte) :
  Forall stored_form opts ->
  filler fill ->
  get_doff h * 4 - 20 = raw_size opts + Z.of_nat (length fill) ->
  Z.of_nat (length (tcphdr_bytes h ++ encode_options opts ++ fill ++ pl))
    < 2 ^ 32 ->
  TCP_buffer (tcphdr_bytes h ++ encode_options opts ++ fill ++ pl)
  = Done (mk_TCP h opts (raw_size opts) (round_up4 (raw_size opts))
            (match pl with [] => None | _ => Some pl end)).
Proof.
  intros Hform Hfill Hdoff Hn.
  set (buffer := tcphdr_bytes h ++ encode_options opts ++ fill ++ pl) in *.
  set (rest := encode_options opts ++ fill ++ pl).
  pose proof (raw_size_nonneg opts) as Hnn.
  pose proof (get_doff_range h) as Hd.
  assert (Hplain : Forall plain opts).
  { clear - Hform Hdoff Hd Hnn.
    assert (Hle : raw_size opts <= 40) by lia. clear Hdoff Hd.
    induction Hform as [|o opts Ho _ IH]; constructor.
    - cbn [raw_size fold_right] in Hle. fold (raw_size opts) in Hle.
      pose proof (raw_size_nonneg opts).
      destruct Ho as (_ & Hk & _ & Hv). split; [exact Hk|]. split; [lia|].
      destruct (opt_value o); [apply Hv | exact Hv].
    - apply IH; [apply raw_size_nonneg|].
      cbn [raw_size fold_right] in Hle. fold (raw_size opts) in Hle.
      pose proof (u8_range (opt_length o)). lia. }
  pose proof (encode_options_length opts Hplain) as Henc.
  assert (Htcp : tcphdr_of_bytes buffer = h) by apply tcphdr_of_bytes_bytes.
  assert (Hskip : skipn 20 buffer = rest) by reflexivity.
  assert (Hhe : header_end_of h = raw_size opts + Z.of_nat (length fill)).
  { unfold header_end_of, sizeof_tcphdr. rewrite Hdoff. apply u32_small.
    change (2 ^ 32) with 4294967296. lia. }
  assert (Hlen : Z.of_nat (length buffer)
                 = 20 + raw_size opts + Z.of_nat (length fill)
                   + Z.of_nat (length pl)).
  { unfold buffer. rewrite !length_app, length_tcphdr_bytes. lia. }
  (* the scan: the entries *)
  destruct (scan_reaches_entries rest (header_end_of h) opts ltac:(lia) Hform
              [] (fill ++ pl) (scan_init h) eq_refl eq_refl
              ltac:(cbn; discriminate) ltac:(cbn [index scan_init]; lia))
    as (s1 & Hr1 & Hi1 & Ha1 & Ho1).
  cbn [index scan_init scanned _options app] in Hi1, Ho1.
  (* the filler *)
  assert (Hfin : exists s2,
             scan_reaches rest (header_end_of h) s1 s2
             /\ index s2 = header_end_of h
             /\ scanned s2 = scanned s1).
  { destruct Hfill as (pad & [Hf | (b & junk & Hf)]).
    - destruct (scan_reaches_nops rest (header_end_of h) pad
                  ltac:(change (2 ^ 32) with 4294967296; lia)
                  (encode_options opts) pl s1) as (s2 & Hr2 & Hi2 & _ & Hs2).
      + unfold rest. rewrite Hf. reflexivity.
      + lia.
      + exact Ha1.
      + rewrite Hhe, Hf, repeat_length. lia.
      + exists s2. split; [exact Hr2|]. split; [|exact Hs2].
        rewrite Hi2, Hhe, Hf, repeat_length. lia.
    - assert (Hfl : Z.of_nat (length fill)
                    = Z.of_nat pad + 2 + Z.of_nat (length junk)).
      { rewrite Hf, length_app, repeat_length. cbn [length]. lia. }
      destruct (scan_reaches_nops rest (header_end_of h) pad
                  ltac:(change (2 ^ 32) with 4294967296; lia)
                  (encode_options opts) (x00 :: b :: junk ++ pl) s1)
        as (s2 & Hr2 & Hi2 & Ha2 & Hs2).
      + unfold rest. rewrite Hf, <- app_assoc. reflexivity.
      + lia.
      + exact Ha1.
      + lia.
      + assert (Hpk : peek rest (index s2) = x00).
        { unfold rest. rewrite Hf.
          replace (encode_options opts
                   ++ (repeat x01 pad ++ x00 :: b :: junk) ++ pl)
            with ((encode_options opts ++ repeat x01 pad)
                  ++ x00 :: (b :: junk ++ pl))
            by (rewrite <- !app_assoc; reflexivity).
          replace (index s2)
            with (Z.of_nat (length (encode_options opts ++ repeat x01 pad)))
            by (rewrite length_app, repeat_length; lia).
          apply peek_app. }
        eexists. split; [|split].
        * eapply scan_reaches_trans; [exact Hr2|].
          eapply reaches_turn; [lia| |apply reaches_here].
          apply scan_body_EOL; try assumption; try lia.
          rewrite Hpk. reflexivity.
        * reflexivity.
        * cbn [scanned]. exact Hs2. }
  destruct Hfin as (s2 & Hr2 & Hi2 & Hs2).
  destruct (TCP_buffer_scan_end buffer s2) as [Hdec Hinv].
  - exact Hn.
  - rewrite Htcp, Hhe, Hlen. lia.
  - rewrite Htcp, Hskip. eapply scan_reaches_trans; eassumption.
  - rewrite Htcp. exact Hi2.
  - rewrite Hdec. rewrite Htcp, Hskip in Hinv. rewrite Hskip.
    rewrite (scan_inv_scanned _ _ _ _ opts Hinv)
      by (rewrite Hs2; exact Ho1).
    unfold set_inner_pdu. cbn [_tcp _options _options_size
                               _total_options_size].
    do 2 f_equal.
    assert (Hsk : skipn (Z.to_nat (index s2)) rest = pl).
    { unfold rest. rewrite app_assoc.
      replace (Z.to_nat (index s2))
        with (length (encode_options opts ++ fill) + 0)%nat
        by (rewrite length_app; lia).
      rewrite skipn_app_at. reflexivity. }
    rewrite Hsk, Hlen, Hi2, Hhe.
    destruct pl as [|p pl'].
    + replace (_ =? 0) with true
        by (symmetry; apply Z.eqb_eq; cbn [length]; lia).
      reflexivity.
    + replace (_ =? 0) with false
        by (symmetry; apply Z.eqb_neq; cbn [length]; lia).
      reflexivity.
Qed.

(** X12: the decoder on a buffer laid out entry by entry.  Let a buffer
    consist of a fixed header, entries in stored form (kind, total length,
    value), filler (NO_OP octets, then possibly an END_OF_OPTIONS with at
    least one octet behind it) and payload, and let the header declare
    entries and filler as its options region.  The decoder returns the
    segment with that header, exactly these options in order, their raw and
    padded size, and the payload; of the filler nothing is kept. *)
Theorem TCP_buffer_of_entries (h : tcphdr) (opts : list TCPOption)
                              (fill pl : list byte) :
  Forall stored_form opts ->
  filler fill ->
  get_doff h * 4 - 20 = raw_size opts + Z.of_nat (length fill) ->
  Z.of_nat (length (tcphdr_bytes h ++ encode_options opts ++ fill ++ pl))
    < 2 ^ 32 ->
  TCP_buffer (tcphdr_bytes h ++ encode_options opts ++ fill ++ pl)
  = Done (mk_TCP h opts (raw_size opts) (round_up4 (raw_size opts))
            (match pl with [] => None | _ => Some pl end)).
Proof.
  intros Hform Hfill Hdoff Hn.
  exact (TCP_buffer_entries_filler h opts fill pl Hform Hfill Hdoff Hn).
Qed.

Lemma TCP_buffer_of_entries_witness :
  TCP_buffer (example_header x80 (x12, x34)
              ++ [x02; x04; x05; xb4; x04; x02; x01; x01; x00; xff; xff; xff]
              ++ [xaa; xbb])
  = Done (mk_TCP (tcphdr_of_bytes (example_header x80 (x12, x34)))
            [mk_TCPOption MSS x02 (Some [x05; xb4]);
             mk_TCPOption SACK_OK x00 None]
            6 8 (Some [xaa; xbb])).
Proof.
  refine (TCP_buffer_of_entries
            (tcphdr_of_bytes (example_header x80 (x12, x34)))
            [mk_TCPOption MSS x02 (Some [x05; xb4]);
             mk_TCPOption SACK_OK x00 None]
            [x01; x01; x00; xff; xff; xff] [xaa; xbb] _ _ _ _).
  - repeat constructor; vm_compute; discriminate.
  - exists 2%nat. right. exists xff, [xff; xff]. reflexivity.
  - vm_compute. reflexivity.
  - vm_compute. reflexivity.
Defined.

(** X13: END_OF_OPTIONS as the last octet of the region.  Let a buffer
    consist of a fixed header, entries in stored form, NO_OP octets, one
    END_OF_OPTIONS octet and payload, and let the header declare the
    region to end with that END_OF_OPTIONS octet.  The decoder throws: the
    loop of line 67 wants a second octet of the entry. *)
Theorem TCP_buffer_of_entries_EOL_last (h : tcphdr) (opts : list TCPOption)
                                       (pad : nat) (pl : list byte) :
  Forall stored_form opts ->
  get_doff h * 4 - 20 = raw_size opts + Z.of_nat pad + 1 ->
  Z.of_nat (length (tcphdr_bytes h ++ encode_options opts
                    ++ repeat x01 pad ++ x00 :: pl)) < 2 ^ 32 ->
  TCP_buffer (tcphdr_bytes h ++ encode_options opts
              ++ repeat x01 pad ++ x00 :: pl)
  = Throw err_option.
Proof.
  intros Hform Hdoff Hn.
  set (rest := encode_options opts ++ repeat x01 pad ++ x00 :: pl).
  set (buffer := tcphdr_bytes h ++ rest) in *.
  pose proof (raw_size_nonneg opts) as Hnn.
  pose proof (get_doff_range h) as Hd.
  assert (Htcp : tcphdr_of_bytes buffer = h) by apply tcphdr_of_bytes_bytes.
  assert (Hskip : skipn 20 buffer = rest) by reflexivity.
  assert (Hhe : header_end_of h = raw_size opts + Z.of_nat pad + 1).
  { unfold header_end_of, sizeof_tcphdr. rewrite Hdoff. apply u32_small.
    change (2 ^ 32) with 4294967296. lia. }
  assert (Hraw : Z.of_nat (length (encode_options opts)) = raw_size opts).
  { clear - Hform. induction Hform as [|o opts Ho _ IH];
      cbn [encode_options flat_map raw_size fold_right length]; [reflexivity|].
    fold (encode_options opts). fold (raw_size opts).
    rewrite length_app. pose proof (encode_option_length o Ho). lia. }
  assert (Hlen : Z.of_nat (length buffer)
                 = 20 + raw_size opts + Z.of_nat pad + 1
                   + Z.of_nat (length pl)).
  { unfold buffer, rest.
    rewrite !length_app, length_tcphdr_bytes, repeat_length.
    cbn [length]. lia. }
  destruct (scan_reaches_entries rest (header_end_of h) opts ltac:(lia) Hform
              [] (repeat x01 pad ++ x00 :: pl) (scan_init h) eq_refl eq_refl
              ltac:(cbn; discriminate) ltac:(cbn [index scan_init]; lia))
    as (s1 & Hr1 & Hi1 & Ha1 & _).
  cbn [index scan_init] in Hi1.
  destruct (scan_reaches_nops rest (header_end_of h) pad
              ltac:(change (2 ^ 32) with 4294967296; lia)
              (encode_options opts) (x00 :: pl) s1 eq_refl ltac:(lia) Ha1
              ltac:(lia)) as (s2 & Hr2 & Hi2 & _ & _).
  apply (TCP_buffer_EOL_last buffer s2).
  - exact Hn.
  - rewrite Htcp, Hhe, Hlen. lia.
  - rewrite Htcp, Hskip. eapply scan_reaches_trans; eassumption.
  - rewrite Htcp, Hhe. lia.
  - rewrite Hskip. unfold rest. rewrite app_assoc.
    replace (index s2)
      with (Z.of_nat (length (encode_options opts ++ repeat x01 pad)))
      by (rewrite length_app, repeat_length; lia).
    rewrite peek_app. reflexivity.
Qed.

Lemma TCP_buffer_of_entries_EOL_last_witness :
  TCP_buffer (example_header x70 (x12, x34)
              ++ [x02; x04; x05; xb4; x01; x01; x01; x00])
  = Throw err_option.
Proof.
  refine (TCP_buffer_of_entries_EOL_last
            (tcphdr_of_bytes (example_header x70 (x12, x34)))
            [mk_TCPOption MSS x02 (Some [x05; xb4])] 3 [] _ _ _).
  - repeat constructor; vm_compute; discriminate.
  - vm_compute. reflexivity.
  - vm_compute. reflexivity.
Defined.

(** ** What every decoded segment satisfies *)

Lemma read_args_scanned (buffer : list byte) (header_end : Z)
                        (s s1 : scan_state) :
  read_args buffer header_end s = Done s1 -> scanned s1 = scanned s.
Proof.
  unfold read_args, read_arg.
  destruct (u8 (args0 s) =? NOP); [intros [= <-]; reflexivity|].
  destruct (index s =? header_end); cbn [bind]; [discriminate|].
  cbn [args0 index Z.eqb].
  destruct (u8 (peek buffer (index s)) =? NOP);
    [intros [= <-]; reflexivity|].
  destruct (_ =? header_end); [discriminate|].
  intros [= <-]. reflexivity.
Qed.

(** A turn of the scan stores nothing, or one option whose kind is an
    octet other than NO_OP and END_OF_OPTIONS. *)
Lemma scan_body_stores (buffer : list byte) (header_end : Z)
                       (s s' : scan_state) :
  scan_body buffer header_end s = Done s' ->
  _options (scanned s') = _options (scanned s)
  \/ exists (k len : byte) (data : list byte),
       u8 k <> NOP /\ u8 k <> EOL
       /\ _options (scanned s')
          = _options (scanned s)
            ++ [mk_TCPOption (u8 k) len
                  (if u8 len =? 0 then None
                   else Some (memcpy_from data (u8 len)))].
Proof.
  unfold scan_body.
  destruct (read_args buffer header_end s) as [s1| | |] eqn:Eargs;
    cbn [bind]; try discriminate.
  rewrite <- (read_args_scanned _ _ _ _ Eargs).
  destruct (Z.eqb_spec (u8 (args0 s1)) NOP) as [En|En]; cbn [negb andb].
  - destruct (u8 (args0 s1) =? EOL); intros [= <-]; left; reflexivity.
  - destruct (Z.eqb_spec (u8 (args0 s1)) EOL) as [Ee|Ee]; cbn [negb].
    + intros [= <-]. left. reflexivity.
    + destruct (_ <? _); [discriminate|]. intros [= <-]. right.
      cbn [scanned].
      match goal with
      | |- context [add_option ?k ?l ?d ?t] =>
          destruct (add_option_fields k l d t) as (_ & _ & -> & _);
          exists (args0 s1), l, d
      end.
      repeat split; assumption.
Qed.

Lemma scan_loop_stores (P : TCPOption -> Prop) (buffer : list byte)
                       (header_end : Z) :
  (forall (k len : byte) (data : list byte),
      u8 k <> NOP -> u8 k <> EOL ->
      P (mk_TCPOption (u8 k) len
           (if u8 len =? 0 then None else Some (memcpy_from data (u8 len))))) ->
  forall (fuel : nat) (s s' : scan_state),
    Forall P (_options (scanned s)) ->
    scan_loop buffer header_end fuel s = Done s' ->
    Forall P (_options (scanned s')).
Proof.
  intros HP. induction fuel as [|fuel IH]; intros s s' Hs; cbn [scan_loop];
    destruct (index s <? header_end); try discriminate;
    try (intros [= <-]; exact Hs).
  destruct (scan_body buffer header_end s) as [s1| | |] eqn:Ebody;
    cbn [bind]; try discriminate.
  apply IH.
  destruct (scan_body_stores _ _ _ _ Ebody)
    as [-> | (k & len & data & Hk & He & ->)]; [exact Hs|].
  apply Forall_app. split; [exact Hs|].
  constructor; [apply HP; assumption | constructor].
Qed.

Lemma TCP_buffer_scan_result (buffer : list byte) (t : TCP) :
  Z.of_nat (length buffer) < 2 ^ 32 ->
  TCP_buffer buffer = Done t ->
  20 <= Z.of_nat (length buffer)
  /\ ((Z.of_nat (length buffer) - 20 < header_end_of (tcphdr_of_bytes buffer)
       /\ exists p, t = set_inner_pdu p (scanned (scan_init
                                                    (tcphdr_of_bytes buffer))))
      \/ (header_end_of (tcphdr_of_bytes buffer)
            <= Z.of_nat (length buffer) - 20
          /\ exists s p,
               scan_loop (skipn 20 buffer)
                         (header_end_of (tcphdr_of_bytes buffer))
                         (length (skipn 20 buffer))
                         (scan_init (tcphdr_of_bytes buffer)) = Done s
               /\ t = set_inner_pdu p (scanned s))).
Proof.
  intros Hn. unfold TCP_buffer.
  destruct (Z.ltb_spec (Z.of_nat (length buffer)) sizeof_tcphdr) as [|Hge];
    [discriminate|].
  unfold sizeof_tcphdr in Hge |- *. change (Z.to_nat 20) with 20%nat.
  rewrite (u32_small (Z.of_nat (length buffer) - 20)) by lia.
  intros H. split; [exact Hge|].
  destruct (Z.leb_spec (header_end_of (tcphdr_of_bytes buffer))
                       (Z.of_nat (length buffer) - 20)) as [Hle|Hgt].
  - right. split; [exact Hle|].
    apply bind_Done_inv in H. destruct H as ([t0 i0] & Hscan & H).
    apply bind_Done_inv in Hscan. destruct Hscan as (s & Hloop & Hs).
    injection Hs as <- <-. exists s.
    destruct (_ =? 0) in H; injection H as <-.
    + exists (inner_pdu (scanned s)). split; [exact Hloop|].
      destruct (scanned s); reflexivity.
    + eexists. split; [exact Hloop | reflexivity].
  - left. split; [exact Hgt|]. cbn [bind] in H.
    destruct (_ =? 0) in H; injection H as <-.
    + exists None. reflexivity.
    + eexists. reflexivity.
Qed.

(** X14: what every decoded segment satisfies.  Its header is the first
    20 octets of the buffer; its counters agree with its options; every
    option is in stored form (a kind octet that is neither NO_OP nor
    END_OF_OPTIONS, a value of exactly [length] octets, the null pointer
    for length zero); the options take at most 40 octets and
    [header_size()] is at most 60. *)
Theorem TCP_buffer_decoded_form (buffer : list byte) (t : TCP) :
  Z.of_nat (length buffer) < 2 ^ 32 ->
  TCP_buffer buffer = Done t ->
  tcphdr_bytes (_tcp t) = firstn 20 buffer
  /\ sizes_ok t
  /\ Forall stored_form (_options t)
  /\ raw_size (_options t) <= 40
  /\ _total_options_size t <= 40
  /\ header_size t <= 60.
Proof.
  intros Hn Hdec.
  destruct (TCP_buffer_scan_result buffer t Hn Hdec) as (Hn20 & Hcase).
  assert (Hcore : _tcp t = tcphdr_of_bytes buffer /\ sizes_ok t
                  /\ Forall stored_form (_options t)
                  /\ raw_size (_options t) <= 40).
  { destruct Hcase as [(_ & p & ->) | (Hle & s & p & Hloop & ->)].
    - cbn. repeat split; [constructor | lia].
    - set (tcp := tcphdr_of_bytes buffer) in *.
      set (rest := skipn 20 buffer) in *.
      destruct (header_end_of_range tcp (Z.of_nat (length buffer)) ltac:(lia)
                  ltac:(rewrite u32_small by lia; exact Hle)) as (_ & Hr & _).
      assert (Hrest : Z.of_nat (length rest) = Z.of_nat (length buffer) - 20).
      { unfold rest. rewrite length_skipn. lia. }
      destruct (scan_loop_inv rest (header_end_of tcp) tcp Hr ltac:(lia)
                  _ _ _ (scan_init_inv rest _ tcp Hr) Hloop) as [Hinv Hidx].
      pose proof (scan_loop_stores
                    (fun o => 0 <= opt_option o < 256 /\ opt_option o <> EOL
                              /\ (opt_value o = None -> u8 (opt_length o) = 0)
                              /\ (opt_value o <> None
                                  -> u8 (opt_length o) <> 0))
                    rest (header_end_of tcp)) as Hst.
      specialize (Hst ltac:(intros k len data Hk He;
                            cbn [opt_option opt_value opt_length];
                            split; [apply u8_range|]; split; [exact He|];
                            destruct (Z.eqb_spec (u8 len) 0);
                            split; congruence)).
      specialize (Hst (length rest) (scan_init tcp) s (Forall_nil _) Hloop).
      destruct Hinv as [Hidx' _ Hsz Hcons _ Hplain Htcp _].
      unfold set_inner_pdu. cbn [_tcp _options _options_size
                                 _total_options_size].
      split; [exact Htcp|]. split; [exact Hsz|]. split.
      + clear - Hplain Hst. induction Hplain as [|o opts Ho _ IH];
          [constructor|].
        inversion Hst as [|? ? Hq Hst']; subst.
        constructor; [|apply IH; exact Hst'].
        destruct Ho as (Hnop & _ & Hv).
        destruct Hq as (Hk & He & Hnone & Hsome).
        unfold stored_form.
        split; [exact Hk|]. split; [exact Hnop|]. split; [exact He|].
        destruct (opt_value o) as [v|]; [|exact Hv].
        split; [exact Hv | apply Hsome; discriminate].
      + destruct Hsz as [Hraw _]. rewrite <- Hraw. lia. }
  destruct Hcore as (Htcp & Hsz & Hform & Hraw).
  split; [rewrite Htcp; apply tcphdr_bytes_of_bytes; lia|].
  split; [exact Hsz|]. split; [exact Hform|]. split; [exact Hraw|].
  assert (Htot : _total_options_size t <= 40).
  { destruct Hsz as [_ ->]. unfold round_up4.
    pose proof (raw_size_nonneg (_options t)).
    Z.div_mod_to_equations. lia. }
  split; [exact Htot|].
  unfold header_size, sizeof_tcphdr, u32.
  destruct Hsz as [_ Hp]. pose proof (raw_size_nonneg (_options t)).
  pose proof (round_up4_spec (raw_size (_options t))) as [Hb _].
  rewrite Z.mod_small by (change (2 ^ 32) with 4294967296; lia). lia.
Qed.

Lemma TCP_buffer_decoded_form_witness :
  sizes_ok (mk_TCP (tcphdr_of_bytes (example_header x60 (x12, x34)))
                   [mk_TCPOption WSCALE x01 (Some [x07])] 3 4 None).
Proof.
  refine (proj1 (proj2 (TCP_buffer_decoded_form
           (example_header x60 (x12, x34) ++ [x01; x03; x03; x07])
           _ _ _))).
  - vm_compute. reflexivity.
  - vm_compute. reflexivity.
Defined.

(** X15: where the payload begins.  For a buffer whose header declares at
    least 5 words and no more than the buffer holds, a returned segment has
    as payload the octets from offset [data offset * 4] on, whatever the
    options region contains, and no payload when there are none. *)
Theorem TCP_buffer_payload (buffer : list byte) (t : TCP) :
  Z.of_nat (length buffer) < 2 ^ 32 ->
  TCP_buffer buffer = Done t ->
  5 <= get_doff (tcphdr_of_bytes buffer) ->
  get_doff (tcphdr_of_bytes buffer) * 4 <= Z.of_nat (length buffer) ->
  inner_pdu t
  = if Z.of_nat (length buffer) =? get_doff (tcphdr_of_bytes buffer) * 4
    then None
    else Some (skipn (Z.to_nat (get_doff (tcphdr_of_bytes buffer) * 4))
                     buffer).
Proof.
  intros Hn Hdec Hd5 Hfit.
  pose proof (get_doff_range (tcphdr_of_bytes buffer)) as Hd.
  assert (Hhe : header_end_of (tcphdr_of_bytes buffer)
                = get_doff (tcphdr_of_bytes buffer) * 4 - 20).
  { unfold header_end_of, sizeof_tcphdr. apply u32_small.
    change (2 ^ 32) with 4294967296. lia. }
  destruct (TCP_buffer_scanned buffer t Hn Hdec ltac:(lia))
    as (_ & s & _ & Hidx & ->).
  unfold set_inner_pdu. cbn [inner_pdu]. rewrite Hidx, Hhe.
  destruct (Z.eqb_spec
              (Z.of_nat (length buffer) - 20
               - (get_doff (tcphdr_of_bytes buffer) * 4 - 20)) 0) as [E|E].
  - replace (_ =? _) with true by (symmetry; apply Z.eqb_eq; lia).
    reflexivity.
  - replace (Z.of_nat (length buffer)
             =? get_doff (tcphdr_of_bytes buffer) * 4) with false
      by (symmetry; apply Z.eqb_neq; lia).
    rewrite skipn_skipn. do 2 f_equal. lia.
Qed.

Lemma TCP_buffer_payload_witness :
  inner_pdu (mk_TCP (tcphdr_of_bytes (example_header x60 (x12, x34)))
                    [] 0 0 (Some [xaa; xbb]))
  = Some [xaa; xbb].
Proof.
  refine (TCP_buffer_payload
            (example_header x60 (x12, x34) ++ [x01; x01; x01; x01; xaa; xbb])
            _ _ _ _ _); vm_compute; try reflexivity; discriminate.
Defined.

(** X16: a data offset below 5.  The size of the options region is
    computed in unsigned arithmetic, so a data offset of 0 to 4 gives a
    size no buffer holds: the decoder does not reject the buffer, it skips
    the scan and returns a segment without options whose payload is
    everything behind the first 20 octets. *)
Theorem TCP_buffer_doff_below_5 (buffer : list byte) :
  20 <= Z.of_nat (length buffer) < 2 ^ 32 ->
  get_doff (tcphdr_of_bytes buffer) < 5 ->
  TCP_buffer buffer
  = Done (mk_TCP (tcphdr_of_bytes buffer) [] 0 0
            (if Z.of_nat (length buffer) =? 20 then None
             else Some (skipn 20 buffer))).
Proof.
  intros Hn Hd.
  pose proof (get_doff_range (tcphdr_of_bytes buffer)) as Hr.
  change (2 ^ 32) with 4294967296 in Hn.
  unfold TCP_buffer, sizeof_tcphdr, header_end_of, sizeof_tcphdr.
  destruct (Z.ltb_spec (Z.of_nat (length buffer)) 20) as [Hc|_]; [lia|].
  rewrite (u32_small (Z.of_nat (length buffer) - 20))
    by (change (2 ^ 32) with 4294967296; lia).
  assert (Hwrap : u32 (get_doff (tcphdr_of_bytes buffer) * 4 - 20)
                  = get_doff (tcphdr_of_bytes buffer) * 4 - 20 + 4294967296).
  { unfold u32. change (2 ^ 32) with 4294967296.
    replace (get_doff (tcphdr_of_bytes buffer) * 4 - 20)
      with (get_doff (tcphdr_of_bytes buffer) * 4 - 20 + 4294967296
            + (-1) * 4294967296) at 1 by lia.
    rewrite Z.mod_add by lia. apply Z.mod_small. lia. }
  rewrite Hwrap.
  destruct (Z.leb_spec
              (get_doff (tcphdr_of_bytes buffer) * 4 - 20 + 4294967296)
              (Z.of_nat (length buffer) - 20)) as [Hc|_]; [lia|].
  cbn [bind scan_init scanned]. rewrite Z.sub_0_r.
  rewrite (u32_small (Z.of_nat (length buffer) - 20))
    by (change (2 ^ 32) with 4294967296; lia).
  destruct (Z.eqb_spec (Z.of_nat (length buffer) - 20) 0) as [E|E].
  - replace (Z.of_nat (length buffer) =? 20) with true
      by (symmetry; apply Z.eqb_eq; lia).
    reflexivity.
  - replace (Z.of_nat (length buffer) =? 20) with false
      by (symmetry; apply Z.eqb_neq; lia).
    unfold set_inner_pdu, RawPDU, memcpy_from. cbn.
    rewrite firstn_all2; [reflexivity|].
    rewrite length_skipn. lia.
Qed.

Lemma TCP_buffer_doff_below_5_witness :
  TCP_buffer (example_header x00 (x12, x34) ++ [x02; x04])
  = Done (mk_TCP (tcphdr_of_bytes (example_header x00 (x12, x34)))
                 [] 0 0 (Some [x02; x04])).
Proof.
  apply (TCP_buffer_doff_below_5
           (example_header x00 (x12, x34) ++ [x02; x04]));
    vm_compute; [split; [discriminate | reflexivity] | reflexivity].
Defined.

(** ** The layout of the serialized octets *)

Lemma write_padding_layout (old : list byte) :
  forall (fuel : nat) (padding : byte) (total : Z) (pre post : list byte),
    total < 256 ->
    total - u8 padding = Z.of_nat (length old) ->
    (length old <= fuel)%nat ->
    write_padding fuel padding total (pre ++ old ++ post)
                  (Z.of_nat (length pre))
    = Done (pre ++ repeat x01 (length old) ++ post,
            Z.of_nat (length pre) + Z.of_nat (length old)).
Proof.
  induction old as [|b old IH]; intros fuel padding total pre post Ht Hk Hf.
  - cbn [length] in Hk. destruct fuel; cbn [write_padding];
      destruct (Z.ltb_spec (u8 padding) total); try lia;
      cbn [length repeat app]; rewrite Z.add_0_r; reflexivity.
  - cbn [length] in Hk, Hf. destruct fuel as [|fuel]; [lia|].
    cbn [write_padding].
    destruct (Z.ltb_spec (u8 padding) total) as [_|Hge]; [|lia].
    change (pre ++ (b :: old) ++ post) with (pre ++ [b] ++ (old ++ post)).
    rewrite store_app by reflexivity. cbn [bind].
    pose proof (u8_range padding) as Rp.
    assert (Hnext : u8 (to_u8 (u8 padding + 1)) = u8 padding + 1).
    { rewrite u8_to_u8. apply Z.mod_small. lia. }
    replace (pre ++ [x01] ++ old ++ post)
      with ((pre ++ [x01]) ++ old ++ post)
      by (rewrite <- app_assoc; reflexivity).
    replace (Z.of_nat (length pre) + 1)
      with (Z.of_nat (length (pre ++ [x01])))
      by (rewrite length_app; cbn [length]; lia).
    rewrite IH by (rewrite ?Hnext; lia).
    rewrite <- app_assoc, length_app. cbn [length repeat app].
    do 2 f_equal. lia.
Qed.

Lemma get_doff_set_doff (v : Z) (h : tcphdr) :
  0 <= v < 16 -> get_doff (set_doff v h) = v.
Proof.
  intros Hv. unfold get_doff, set_doff. cbn [h_doff_res1].
  rewrite Z.mod_small by lia.
  assert (Hcases : v = 0 \/ v = 1 \/ v = 2 \/ v = 3 \/ v = 4 \/ v = 5
                   \/ v = 6 \/ v = 7 \/ v = 8 \/ v = 9 \/ v = 10 \/ v = 11
                   \/ v = 12 \/ v = 13 \/ v = 14 \/ v = 15) by lia.
  destruct (h_doff_res1 h);
    repeat (destruct Hcases as [->|Hcases]; [vm_compute; reflexivity|]);
    subst v; vm_compute; reflexivity.
Qed.

Section Layout.

Variable pseudoheader_checksum : Z -> Z -> Z -> Z -> Z.
Variable do_checksum : list byte -> Z.

Local Notation "'checksum_of'" :=
  (computed_check pseudoheader_checksum do_checksum).
Local Notation "'write_ser'" :=
  (write_serialization pseudoheader_checksum do_checksum).
Local Notation "'ser'" := (serialize pseudoheader_checksum do_checksum).

(** What [write_serialization] leaves in a region whose first
    [header_size()] octets are [scratch]. *)
Lemma write_serialization_layout (t : TCP) (scratch pl : list byte)
                                 (parent : option PDU) :
  Forall plain (_options t) ->
  sizes_ok t ->
  _total_options_size t < 256 ->
  Z.of_nat (length scratch) = 20 + _total_options_size t ->
  exists c,
    write_ser t (scratch ++ pl) parent
    = Done (tcphdr_bytes
              (set_check c
                 (set_doff ((20 + _total_options_size t) / 4) (_tcp t)))
            ++ encode_options (_options t)
            ++ repeat x01 (Z.to_nat (_total_options_size t
                                     - _options_size t))
            ++ pl,
            with_tcp
              (set_check (x00, x00)
                 (set_doff ((20 + _total_options_size t) / 4) (_tcp t))) t)
    /\ match dynamic_cast_IP parent with
       | Some ip =>
           if get_check t =? 0
           then checksum_of ip t
                  (tcphdr_bytes
                     (set_doff ((20 + _total_options_size t) / 4) (_tcp t))
                   ++ encode_options (_options t)
                   ++ repeat x01 (Z.to_nat (_total_options_size t
                                            - _options_size t))
                   ++ pl)
                = Done c
           else c = h_check (_tcp t)
       | None => c = h_check (_tcp t)
       end.
Proof.
  intros Hplain [Hraw Htot] Hsmall Hscratch.
  pose proof (raw_size_nonneg (_options t)) as Hnn.
  pose proof (round_up4_spec (raw_size (_options t))) as [Hround _].
  rewrite <- Htot, <- Hraw in Hround. rewrite <- Hraw in Hnn.
  set (tot := _total_options_size t) in *.
  set (raw := _options_size t) in *.
  set (tcp := set_doff ((20 + tot) / 4) (_tcp t)).
  (* the three parts of the scratch region *)
  set (s20 := firstn 20 scratch).
  set (sopts := firstn (Z.to_nat raw) (skipn 20 scratch)).
  set (spad := skipn (Z.to_nat raw) (skipn 20 scratch)).
  assert (Hsplit : scratch = s20 ++ sopts ++ spad).
  { unfold s20, sopts, spad. rewrite !firstn_skipn. reflexivity. }
  assert (H20 : length s20 = 20%nat).
  { unfold s20. rewrite length_firstn. lia. }
  assert (Hso : Z.of_nat (length sopts) = raw).
  { unfold sopts. rewrite length_firstn, length_skipn. lia. }
  assert (Hsp : Z.of_nat (length spad) = tot - raw).
  { unfold spad. rewrite !length_skipn. lia. }
  clearbody s20 sopts spad. subst scratch.
  pose proof (encode_options_length (_options t) Hplain) as Henc.
  unfold write_serialization. fold tot. fold raw.
  assert (Hhs : header_size t = 20 + tot).
  { unfold header_size, sizeof_tcphdr. fold tot. apply u32_small.
    change (2 ^ 32) with 4294967296. lia. }
  rewrite Hhs.
  destruct (Z.ltb_spec (Z.of_nat (length ((s20 ++ sopts ++ spad) ++ pl)))
                       (20 + tot)) as [Hshort|_].
  { exfalso. revert Hshort. rewrite !length_app. lia. }
  change (0 + sizeof_tcphdr) with 20. change (sizeof_tcphdr + tot)
    with (20 + tot). fold tcp.
  assert (Hwo : write_options (_options t) ((s20 ++ sopts ++ spad) ++ pl) 20
                = Done (s20 ++ encode_options (_options t) ++ spad ++ pl,
                        20 + raw)).
  { replace ((s20 ++ sopts ++ spad) ++ pl)
      with (s20 ++ sopts ++ (spad ++ pl))
      by (rewrite <- !app_assoc; reflexivity).
    replace 20 with (Z.of_nat (length s20)) by lia.
    rewrite Hraw. apply write_options_plain; [assumption | lia]. }
  rewrite Hwo. cbn [bind].
  assert (Hpad : (if raw <? tot
                  then write_padding 256 (to_u8 raw) tot
                         (s20 ++ encode_options (_options t) ++ spad ++ pl)
                         (20 + raw)
                  else Done (s20 ++ encode_options (_options t) ++ spad ++ pl,
                             20 + raw))
                 = Done (s20 ++ encode_options (_options t)
                         ++ repeat x01 (Z.to_nat (tot - raw)) ++ pl,
                         20 + tot)).
  { destruct (Z.ltb_spec raw tot) as [Hlt|Hge].
    - assert (Hu : u8 (to_u8 raw) = raw).
      { rewrite u8_to_u8. apply Z.mod_small. lia. }
      replace (s20 ++ encode_options (_options t) ++ spad ++ pl)
        with ((s20 ++ encode_options (_options t)) ++ spad ++ pl)
        by (rewrite <- app_assoc; reflexivity).
      replace (20 + raw)
        with (Z.of_nat (length (s20 ++ encode_options (_options t))))
        by (rewrite length_app; lia).
      rewrite write_padding_layout by (rewrite ?Hu; lia).
      rewrite <- app_assoc, length_app.
      replace (Z.to_nat (tot - raw)) with (length spad) by lia.
      do 2 f_equal. lia.
    - assert (spad = []) as -> by (destruct spad; [reflexivity|cbn [length] in Hsp; lia]).
      replace (Z.to_nat (tot - raw)) with 0%nat by lia.
      cbn [repeat app]. do 2 f_equal. lia. }
  rewrite Hpad. cbn [bind].
  set (body := encode_options (_options t)
               ++ repeat x01 (Z.to_nat (tot - raw)) ++ pl).
  assert (Hst : store (s20 ++ body) 0 (tcphdr_bytes tcp)
                = Done (tcphdr_bytes tcp ++ body)).
  { apply (store_app [] s20 body (tcphdr_bytes tcp)). exact H20. }
  rewrite Hst. cbn [bind].
  assert (Hchk : h_check tcp = h_check (_tcp t)) by reflexivity.
  assert (Hsame : set_check (h_check (_tcp t)) tcp = tcp).
  { rewrite <- Hchk. destruct tcp. reflexivity. }
  unfold get_check. rewrite Hchk.
  destruct (dynamic_cast_IP parent) as [ip|].
  - destruct (Z.eqb_spec (Utils.host_s (h_check (_tcp t))) 0) as [E|E].
    + destruct (computed_check_returns pseudoheader_checksum do_checksum
                  ip t (tcphdr_bytes tcp ++ body)) as [[c1 c2] Hc].
      exists (c1, c2). rewrite Hc. cbn [bind fst snd].
      split; [|reflexivity].
      rewrite store_in_range
        by (rewrite ?length_app, ?length_tcphdr_bytes; cbn [length]; lia).
      cbn [bind]. reflexivity.
    + exists (h_check (_tcp t)). cbn [bind]. rewrite Hsame.
      split; reflexivity.
  - exists (h_check (_tcp t)). cbn [bind]. rewrite Hsame. split; reflexivity.
Qed.

End Layout.

Lemma TCPOption_write_length (o : TCPOption) (buffer out : list byte)
                             (pos p : Z) :
  TCPOption_write o buffer pos = Done (out, p) -> length out = length buffer.
Proof.
  unfold TCPOption_write. destruct (opt_option o =? 1).
  - intros H. apply bind_Done_inv in H. destruct H as (b & Hs & [= <- _]).
    apply (store_length _ _ _ _ Hs).
  - intros H. apply bind_Done_inv in H. destruct H as (b1 & Hs1 & H).
    apply bind_Done_inv in H. destruct H as (b2 & Hs2 & H).
    apply bind_Done_inv in H. destruct H as (b3 & Hs3 & [= <- _]).
    apply store_length in Hs1. apply store_length in Hs2.
    destruct (opt_value o).
    + apply store_length in Hs3. congruence.
    + injection Hs3 as <-. congruence.
Qed.

Lemma write_options_length (opts : list TCPOption) (buffer out : list byte)
                           (pos p : Z) :
  write_options opts buffer pos = Done (out, p) -> length out = length buffer.
Proof.
  revert buffer pos. induction opts as [|o opts IH]; intros buffer pos;
    cbn [write_options].
  - intros [= <- _]. reflexivity.
  - intros H. apply bind_Done_inv in H. destruct H as ([b1 p1] & Hw & H).
    apply TCPOption_write_length in Hw. apply IH in H. congruence.
Qed.

Lemma write_padding_length (fuel : nat) (padding : byte) (total : Z)
                           (buffer out : list byte) (pos p : Z) :
  write_padding fuel padding total buffer pos = Done (out, p) ->
  length out = length buffer.
Proof.
  revert padding buffer pos. induction fuel as [|fuel IH];
    intros padding buffer pos; cbn [write_padding];
    destruct (u8 padding <? total); try discriminate;
    try (intros [= <- _]; reflexivity).
  intros H. apply bind_Done_inv in H. destruct H as (b & Hs & H).
  apply store_length in Hs. apply IH in H. congruence.
Qed.

Section SerializerExtras.

Variable pseudoheader_checksum : Z -> Z -> Z -> Z -> Z.
Variable do_checksum : list byte -> Z.

Local Notation "'write_ser'" :=
  (write_serialization pseudoheader_checksum do_checksum).
Local Notation "'ser'" := (serialize pseudoheader_checksum do_checksum).

(** X17: what [write_serialization] changes.  Whenever it returns, for any
    segment and any region, the region has the length it had, and the
    object has its options, its counters and its payload unchanged; of the
    header only the data offset, set to [(20 + padded size) / 4], and the
    checksum field, set to zero, are changed. *)
Theorem write_serialization_frame (t : TCP) (buffer : list byte)
                                  (parent : option PDU)
                                  (out : list byte) (t' : TCP) :
  write_ser t buffer parent = Done (out, t') ->
  length out = length buffer
  /\ t' = with_tcp
            (set_check (x00, x00)
               (set_doff ((20 + _total_options_size t) / 4) (_tcp t))) t.
Proof.
  unfold write_serialization.
  destruct (Z.of_nat (length buffer) <? header_size t); [discriminate|].
  intros H.
  apply bind_Done_inv in H. destruct H as ([b1 p1] & H1 & H).
  apply bind_Done_inv in H. destruct H as ([b2 p2] & H2 & H).
  apply bind_Done_inv in H. destruct H as (b3 & H3 & H).
  apply bind_Done_inv in H. destruct H as (b4 & H4 & H).
  injection H as <- <-. split; [|reflexivity].
  apply write_options_length in H1.
  assert (L2 : length b2 = length b1).
  { destruct (_options_size t <? _total_options_size t).
    - apply (write_padding_length _ _ _ _ _ _ _ H2).
    - injection H2 as <- _. reflexivity. }
  apply store_length in H3.
  assert (L4 : length b4 = length b3).
  { destruct (dynamic_cast_IP parent); [|injection H4 as <-; reflexivity].
    destruct (Utils.host_s _ =? 0); [|injection H4 as <-; reflexivity].
    apply bind_Done_inv in H4. destruct H4 as (c & _ & Hs).
    apply (store_length _ _ _ _ Hs). }
  congruence.
Qed.

(** X18: the layout of a serialized segment.  For a segment whose counters
    agree with its options, each of them laid out by [write] as an entry,
    with fewer than 256 option octets, [serialize] returns the 20 octets of
    the header (with the data offset of the padded size, and the checksum
    field [c]), the entries in order, NO_OP octets up to the padded size,
    and the payload; [c] is the stored checksum field unless the parent is
    an IP layer and the stored field is zero. *)
Theorem serialize_layout (t : TCP) (parent : option PDU) :
  Forall plain (_options t) ->
  sizes_ok t ->
  _total_options_size t < 256 ->
  exists c t',
    ser t parent
    = Done (tcphdr_bytes
              (set_check c
                 (set_doff ((20 + _total_options_size t) / 4) (_tcp t)))
            ++ encode_options (_options t)
            ++ repeat x01 (Z.to_nat (_total_options_size t
                                     - _options_size t))
            ++ match inner_pdu t with Some p => p | None => [] end,
            t')
    /\ (dynamic_cast_IP parent = None \/ get_check t <> 0 ->
        c = h_check (_tcp t)).
Proof.
  intros Hplain Hsizes Hsmall.
  assert (Hhs : header_size t = 20 + _total_options_size t).
  { destruct Hsizes as [Hraw Htot].
    pose proof (raw_size_nonneg (_options t)).
    pose proof (round_up4_spec (raw_size (_options t))) as [Hb _].
    unfold header_size, sizeof_tcphdr. apply u32_small.
    change (2 ^ 32) with 4294967296. lia. }
  unfold serialize.
  destruct (write_serialization_layout pseudoheader_checksum do_checksum
              t (repeat x00 (Z.to_nat (header_size t)))
              (match inner_pdu t with Some p => p | None => [] end)
              parent Hplain Hsizes Hsmall) as (c & Hser & Hc).
  { rewrite repeat_length, Hhs.
    destruct Hsizes as [Hraw Htot].
    pose proof (raw_size_nonneg (_options t)).
    pose proof (round_up4_spec (raw_size (_options t))) as [Hb _]. lia. }
  exists c. eexists. split; [exact Hser|].
  intros Hcase. destruct (dynamic_cast_IP parent) as [ip|].
  - destruct Hcase as [Hcase|Hcase]; [discriminate|].
    destruct (Z.eqb_spec (get_check t) 0); [contradiction | exact Hc].
  - exact Hc.
Qed.

(** X19: serializing, then decoding.  Take a segment whose counters agree
    with its options, all of them in stored form and taking at most 40
    octets together, whose payload is not an empty buffer, of a size a
    [uint32_t] holds.  [serialize] returns, and the decoder turns the
    octets back into a segment with the same options, the same counters and
    the same payload; its header is the serialized header. *)
Theorem serialize_decode_round_trip (t : TCP) (parent : option PDU) :
  Forall stored_form (_options t) ->
  sizes_ok t ->
  _total_options_size t <= 40 ->
  inner_pdu t <> Some [] ->
  60 + Z.of_nat (length (match inner_pdu t with Some p => p | None => [] end))
    < 2 ^ 32 ->
  exists out t',
    ser t parent = Done (out, t')
    /\ TCP_buffer out = Done (with_tcp (tcphdr_of_bytes out) t).
Proof.
  intros Hform Hsizes Hsmall Hinner Hlen.
  pose proof (raw_size_nonneg (_options t)) as Hnn.
  pose proof (round_up4_spec (raw_size (_options t))) as [Hround Hmod].
  assert (Hraw := proj1 Hsizes). assert (Htot := proj2 Hsizes).
  rewrite <- Htot in Hround, Hmod.
  assert (Hplain : Forall plain (_options t)).
  { assert (Hle : raw_size (_options t) <= 40) by lia.
    clear - Hform Hle. induction Hform as [|o opts Ho _ IH]; constructor.
    - cbn [raw_size fold_right] in Hle. fold (raw_size opts) in Hle.
      pose proof (raw_size_nonneg opts).
      destruct Ho as (_ & Hk & _ & Hv). split; [exact Hk|]. split; [lia|].
      destruct (opt_value o); [apply Hv | exact Hv].
    - apply IH. cbn [raw_size fold_right] in Hle. fold (raw_size opts) in Hle.
      pose proof (u8_range (opt_length o)). lia. }
  assert (Hhs : header_size t = 20 + _total_options_size t).
  { unfold header_size, sizeof_tcphdr. apply u32_small.
    change (2 ^ 32) with 4294967296. lia. }
  unfold serialize.
  destruct (write_serialization_layout pseudoheader_checksum do_checksum
              t (repeat x00 (Z.to_nat (header_size t)))
              (match inner_pdu t with Some p => p | None => [] end)
              parent Hplain Hsizes ltac:(lia)) as (c & Hser & _).
  { rewrite repeat_length, Hhs. lia. }
  rewrite Hser. do 2 eexists. split; [reflexivity|].
  set (h' := set_check c
               (set_doff ((20 + _total_options_size t) / 4) (_tcp t))).
  set (pl := match inner_pdu t with Some p => p | None => [] end) in *.
  rewrite tcphdr_of_bytes_bytes.
  assert (Hdoff : get_doff h' = (20 + _total_options_size t) / 4).
  { unfold h'.
    change (get_doff (set_check c ?x)) with (get_doff x).
    apply get_doff_set_doff. Z.div_mod_to_equations. lia. }
  rewrite (TCP_buffer_entries_filler h' (_options t)
             (repeat x01 (Z.to_nat (_total_options_size t - _options_size t)))
             pl Hform).
  - unfold with_tcp. rewrite <- Htot, <- Hraw. do 2 f_equal.
    unfold pl. destruct (inner_pdu t) as [[|p q]|]; try reflexivity.
    contradiction Hinner. reflexivity.
  - eexists. left. reflexivity.
  - rewrite Hdoff, repeat_length. rewrite <- Hraw.
    Z.div_mod_to_equations. lia.
  - rewrite !length_app, length_tcphdr_bytes, repeat_length.
    pose proof (encode_options_length (_options t) Hplain).
    change (2 ^ 32) with 4294967296 in *. lia.
Qed.

End SerializerExtras.

Lemma write_serialization_frame_witness :
  length [x01; xbb; x00; x50; x00; x00; x00; x00; x00; x00; x00; x00;
          x50; x00; x7f; xa6; x12; x34; x00; x00]
  = length (repeat x00 20).
Proof.
  refine (proj1 (write_serialization_frame pseudo_header_sum
                   ones_complement_sum (check 4660 (TCP_ports 80 443))
                   (repeat x00 20) None _
                   (with_tcp (set_check (x00, x00)
                                (_tcp (check 4660 (TCP_ports 80 443))))
                             (check 4660 (TCP_ports 80 443))) _)).
  vm_compute. reflexivity.
Defined.

Lemma serialize_layout_witness :
  exists c t',
    serialize pseudo_header_sum ones_complement_sum
      (add_winscale_option x07 (TCP_ports 80 443)) None
    = Done (tcphdr_bytes
              (set_check c (set_doff 6 (_tcp (TCP_ports 80 443))))
            ++ [x03; x03; x07] ++ [x01] ++ [], t')
    /\ (dynamic_cast_IP None = None \/ 0 <> 0 -> c = (x00, x00)).
Proof.
  apply (serialize_layout pseudo_header_sum ones_complement_sum
           (add_winscale_option x07 (TCP_ports 80 443)) None).
  - repeat constructor; vm_compute; discriminate.
  - apply add_option_sizes_ok, TCP_ports_sizes_ok.
  - vm_compute. reflexivity.
Defined.

Lemma serialize_decode_round_trip_witness :
  exists out t',
    serialize pseudo_header_sum ones_complement_sum
      (payload [xaa; xbb] 2 (add_mss_option 1460 (TCP_ports 80 443)))
      (Some (IP_layer (mk_IP 167772161 167772162)))
    = Done (out, t')
    /\ TCP_buffer out
       = Done (with_tcp (tcphdr_of_bytes out)
                 (payload [xaa; xbb] 2
                    (add_mss_option 1460 (TCP_ports 80 443)))).
Proof.
  apply (serialize_decode_round_trip pseudo_header_sum ones_complement_sum
           (payload [xaa; xbb] 2 (add_mss_option 1460 (TCP_ports 80 443)))
           (Some (IP_layer (mk_IP 167772161 167772162)))).
  - repeat constructor; vm_compute; try discriminate; reflexivity.
  - split; vm_compute; reflexivity.
  - vm_compute. discriminate.
  - discriminate.
  - vm_compute. reflexivity.
Defined.

(** ** An entry that does not fit the region *)

(** The decoder throws what a turn of the scan throws. *)
Lemma TCP_buffer_scan_throw (buffer : list byte) (s : scan_state)
                            (what : string) :
  Z.of_nat (length buffer) < 2 ^ 32 ->
  header_end_of (tcphdr_of_bytes buffer) <= Z.of_nat (length buffer) - 20 ->
  scan_reaches (skipn 20 buffer) (header_end_of (tcphdr_of_bytes buffer))
               (scan_init (tcphdr_of_bytes buffer)) s ->
  index s < header_end_of (tcphdr_of_bytes buffer) ->
  scan_body (skipn 20 buffer) (header_end_of (tcphdr_of_bytes buffer)) s
  = Throw what ->
  TCP_buffer buffer = Throw what.
Proof.
  set (tcp := tcphdr_of_bytes buffer).
  set (rest := skipn 20 buffer).
  intros Hn Hfit Hreach Hlt Hbody.
  assert (Hn20 : 20 <= Z.of_nat (length buffer)).
  { unfold header_end_of, u32 in Hfit.
    pose proof (Z.mod_pos_bound (get_doff tcp * 4 - sizeof_tcphdr) (2 ^ 32)
                  ltac:(lia)). lia. }
  destruct (header_end_of_range tcp (Z.of_nat (length buffer)) ltac:(lia)
              ltac:(rewrite u32_small by lia; exact Hfit)) as (_ & Hr & _).
  assert (Hrest : Z.of_nat (length rest) = Z.of_nat (length buffer) - 20).
  { unfold rest. rewrite length_skipn. lia. }
  pose proof (scan_init_inv rest (header_end_of tcp) tcp Hr) as Hinit.
  destruct (scan_loop_reaches rest _ tcp Hr ltac:(lia) _ _ Hreach Hinit
              (length rest) ltac:(cbn [index scan_init]; lia))
    as (fuel' & Hfuel' & Heq).
  assert (Hthrow : scan_loop rest (header_end_of tcp) fuel' s = Throw what).
  { destruct fuel' as [|fuel']; [lia|]. cbn [scan_loop].
    destruct (Z.ltb_spec (index s) (header_end_of tcp)) as [_|Hge]; [|lia].
    rewrite Hbody. reflexivity. }
  unfold TCP_buffer.
  destruct (Z.ltb_spec (Z.of_nat (length buffer)) sizeof_tcphdr) as [Hc|_];
    [unfold sizeof_tcphdr in Hc; lia|].
  unfold sizeof_tcphdr. change (Z.to_nat 20) with 20%nat.
  fold tcp. fold rest.
  rewrite (u32_small (Z.of_nat (length buffer) - 20)) by lia.
  destruct (Z.leb_spec (header_end_of tcp) (Z.of_nat (length buffer) - 20))
    as [_|Hgt]; [|lia].
  rewrite Heq, Hthrow. reflexivity.
Qed.

(** X20: an entry cut short by the end of the region.  Let the options
    region of a buffer consist of entries in stored form, NO_OP octets and
    one more entry, of a kind other than NO_OP and END_OF_OPTIONS, that the
    region ends in: either its kind octet is the last octet of the region,
    or its length octet asks (modulo 256, after the subtraction of 2) for
    more value octets than the region has left.  The decoder throws,
    however many octets follow the region. *)
Theorem TCP_buffer_entry_cut_short (h : tcphdr) (opts : list TCPOption)
                                   (pad : nat) (k : byte)
                                   (last pl : list byte) :
  Forall stored_form opts ->
  u8 k <> NOP -> u8 k <> EOL ->
  match last with
  | [] => True
  | l :: v => Z.of_nat (length v) < (u8 l - 2) mod 256
  end ->
  get_doff h * 4 - 20
    = raw_size opts + Z.of_nat pad + 1 + Z.of_nat (length last) ->
  Z.of_nat (length (tcphdr_bytes h ++ encode_options opts
                    ++ repeat x01 pad ++ k :: last ++ pl)) < 2 ^ 32 ->
  TCP_buffer (tcphdr_bytes h ++ encode_options opts
              ++ repeat x01 pad ++ k :: last ++ pl)
  = Throw err_option.
Proof.
  intros Hform Hnop Heol Hcut Hdoff Hn.
  set (rest := encode_options opts ++ repeat x01 pad ++ k :: last ++ pl).
  set (buffer := tcphdr_bytes h ++ rest) in *.
  pose proof (raw_size_nonneg opts) as Hnn.
  pose proof (get_doff_range h) as Hd.
  assert (Htcp : tcphdr_of_bytes buffer = h) by apply tcphdr_of_bytes_bytes.
  assert (Hskip : skipn 20 buffer = rest) by reflexivity.
  assert (Hhe : header_end_of h
                = raw_size opts + Z.of_nat pad + 1 + Z.of_nat (length last)).
  { unfold header_end_of, sizeof_tcphdr. rewrite Hdoff. apply u32_small.
    change (2 ^ 32) with 4294967296. lia. }
  assert (Hraw : Z.of_nat (length (encode_options opts)) = raw_size opts).
  { clear - Hform. induction Hform as [|o opts Ho _ IH];
      cbn [encode_options flat_map raw_size fold_right length]; [reflexivity|].
    fold (encode_options opts). fold (raw_size opts).
    rewrite length_app. pose proof (encode_option_length o Ho). lia. }
  assert (Hlen : Z.of_nat (length buffer)
                 = 20 + raw_size opts + Z.of_nat pad + 1
                   + Z.of_nat (length last) + Z.of_nat (length pl)).
  { unfold buffer, rest.
    rewrite !length_app, length_tcphdr_bytes, repeat_length.
    cbn [length]. rewrite length_app. lia. }
  destruct (scan_reaches_entries rest (header_end_of h) opts ltac:(lia) Hform
              [] (repeat x01 pad ++ k :: last ++ pl) (scan_init h)
              eq_refl eq_refl
              ltac:(cbn; discriminate) ltac:(cbn [index scan_init]; lia))
    as (s1 & Hr1 & Hi1 & Ha1 & _).
  cbn [index scan_init] in Hi1.
  destruct (scan_reaches_nops rest (header_end_of h) pad
              ltac:(change (2 ^ 32) with 4294967296; lia)
              (encode_options opts) (k :: last ++ pl) s1 eq_refl
              ltac:(lia) Ha1 ltac:(lia)) as (s2 & Hr2 & Hi2 & Ha2 & _).
  assert (Hrest : rest = (encode_options opts ++ repeat x01 pad)
                         ++ k :: last ++ pl)
    by (unfold rest; rewrite <- app_assoc; reflexivity).
  assert (Hi2' : index s2
                 = Z.of_nat (length (encode_options opts ++ repeat x01 pad)))
    by (rewrite length_app, repeat_length; lia).
  assert (Hpk : peek rest (index s2) = k).
  { rewrite Hrest, Hi2'. apply peek_app. }
  apply (TCP_buffer_scan_throw buffer s2).
  - exact Hn.
  - rewrite Htcp, Hhe, Hlen. lia.
  - rewrite Htcp, Hskip. eapply scan_reaches_trans; eassumption.
  - rewrite Htcp, Hhe. lia.
  - rewrite Htcp, Hskip.
    rewrite scan_body_cases
      by (try exact Ha2; change (2 ^ 32) with 4294967296; lia).
    cbv zeta. rewrite Hpk.
    destruct (Z.eqb_spec (u8 k) NOP) as [E|_]; [contradiction|].
    destruct (Z.eqb_spec (index s2 + 1) (header_end_of h)) as [_|Hmore];
      [reflexivity|].
    destruct (Z.eqb_spec (u8 k) EOL) as [E|_]; [contradiction|].
    destruct last as [|l v]; [cbn [length] in Hhe; lia|].
    assert (Hpl : peek rest (index s2 + 1) = l).
    { rewrite Hrest, Hi2'.
      replace (Z.of_nat (length (encode_options opts ++ repeat x01 pad)) + 1)
        with (Z.of_nat (length (encode_options opts ++ repeat x01 pad) + 1))
        by lia.
      rewrite peek_app_at. reflexivity. }
    rewrite Hpl, u8_to_u8.
    destruct (Z.ltb_spec (header_end_of h - (index s2 + 2))
                         ((u8 l - 2) mod 256)) as [_|Hge]; [reflexivity|].
    cbn [length] in Hhe. lia.
Qed.

Lemma TCP_buffer_entry_cut_short_witness :
  TCP_buffer (example_header x70 (x12, x34)
              ++ [x02; x04; x05; xb4; x01; x08; x0a; x00]
              ++ [x00; x00; x00; x00; x00; x00; x00; x00])
  = Throw err_option.
Proof.
  refine (TCP_buffer_entry_cut_short
            (tcphdr_of_bytes (example_header x70 (x12, x34)))
            [mk_TCPOption MSS x02 (Some [x05; xb4])] 1 x08 [x0a; x00]
            [x00; x00; x00; x00; x00; x00; x00; x00] _ _ _ _ _ _).
  - repeat constructor; vm_compute; discriminate.
  - vm_compute. discriminate.
  - vm_compute. discriminate.
  - vm_compute. reflexivity.
  - vm_compute. reflexivity.
  - vm_compute. reflexivity.
Defined.

(** ** The decoder terminates *)


(** ** Serializing what was decoded *)

Lemma TCP_buffer_skipped (buffer : list byte) (t : TCP) :
  Z.of_nat (length buffer) < 2 ^ 32 ->
  TCP_buffer buffer = Done t ->
  Z.of_nat (length buffer) - 20 < header_end_of (tcphdr_of_bytes buffer) ->
  t = mk_TCP (tcphdr_of_bytes buffer) [] 0 0
        (if Z.of_nat (length buffer) =? 20 then None
         else Some (skipn 20 buffer)).
Proof.
  intros Hn. unfold TCP_buffer.
  destruct (Z.ltb_spec (Z.of_nat (length buffer)) sizeof_tcphdr) as [|Hge];
    [discriminate|].
  unfold sizeof_tcphdr in Hge |- *. change (Z.to_nat 20) with 20%nat.
  rewrite (u32_small (Z.of_nat (length buffer) - 20)) by lia.
  intros H Hgt.
  destruct (Z.leb_spec (header_end_of (tcphdr_of_bytes buffer))
                       (Z.of_nat (length buffer) - 20)) as [Hle|_]; [lia|].
  remember (skipn 20 buffer) as rest eqn:Hrest.
  cbn [bind scan_init scanned] in H. rewrite Z.sub_0_r in H.
  rewrite (u32_small (Z.of_nat (length buffer) - 20)) in H by lia.
  destruct (Z.eqb_spec (Z.of_nat (length buffer) - 20) 0) as [E|E];
    injection H as <-.
  - replace (Z.of_nat (length buffer) =? 20) with true
      by (symmetry; apply Z.eqb_eq; lia).
    reflexivity.
  - replace (Z.of_nat (length buffer) =? 20) with false
      by (symmetry; apply Z.eqb_neq; lia).
    unfold set_inner_pdu, RawPDU, memcpy_from.
    cbn [_tcp _options _options_size _total_options_size Z.to_nat skipn].
    rewrite firstn_all2; [reflexivity|].
    rewrite Hrest, length_skipn. lia.
Qed.

Section DecodedSerializes.

Variable pseudoheader_checksum : Z -> Z -> Z -> Z -> Z.
Variable do_checksum : list byte -> Z.

Local Notation "'ser'" := (serialize pseudoheader_checksum do_checksum).

(** X22: every decoded segment serializes.  For a segment the decoder
    returned, [serialize] returns under any parent, and the octets it
    produces are the header size plus the payload, never more than the
    buffer had: filler the decoder dropped, and option octets a data offset
    claimed in vain, are not written back. *)
Theorem decoded_segment_serializes (buffer : list byte) (t : TCP)
                                   (parent : option PDU) :
  Z.of_nat (length buffer) < 2 ^ 32 ->
  TCP_buffer buffer = Done t ->
  exists out t',
    ser t parent = Done (out, t')
    /\ Z.of_nat (length out) = size t
    /\ Z.of_nat (length out) <= Z.of_nat (length buffer).
Proof.
  intros Hn Hdec.
  set (tcp := tcphdr_of_bytes buffer).
  set (rest := skipn 20 buffer).
  assert (Hfacts : 20 <= Z.of_nat (length buffer)
            /\ Forall plain (_options t) /\ sizes_ok t
            /\ 20 + _total_options_size t
               + Z.of_nat (length (match inner_pdu t with
                                   | Some p => p | None => [] end))
               <= Z.of_nat (length buffer)
            /\ 0 <= _total_options_size t <= 40).
  { destruct (Z.leb_spec (header_end_of tcp) (Z.of_nat (length buffer) - 20))
      as [Hran|Hskip].
    - destruct (TCP_buffer_scanned buffer t Hn Hdec Hran)
        as (Hn20 & s & Hinv & Hidx & Ht).
      fold tcp in Hinv, Hidx. fold rest in Hinv, Ht.
      destruct (header_end_of_range tcp (Z.of_nat (length buffer))
                  ltac:(lia) ltac:(rewrite u32_small by lia; exact Hran))
        as (Hhe & Hr & _).
      destruct Hinv as [_ _ Hsz Hcons _ Hplain _ _].
      assert (Hrest : Z.of_nat (length rest) = Z.of_nat (length buffer) - 20).
      { unfold rest. rewrite length_skipn. lia. }
      assert (Htot : 0 <= _total_options_size (scanned s)
                     <= header_end_of tcp).
      { destruct Hsz as [Hraw ->]. rewrite <- Hraw.
        pose proof (raw_size_nonneg (_options (scanned s))) as Hnn.
        rewrite <- Hraw in Hnn. pose proof (get_doff_range tcp).
        unfold round_up4. Z.div_mod_to_equations. lia. }
      rewrite Ht. unfold set_inner_pdu.
      cbn [_options _options_size _total_options_size inner_pdu].
      split; [exact Hn20|]. split; [exact Hplain|]. split; [exact Hsz|].
      split; [|lia].
      destruct (_ =? 0); cbn [length]; [lia|].
      rewrite length_skipn. lia.
    - pose proof (TCP_buffer_skipped buffer t Hn Hdec Hskip) as Ht.
      assert (Hn20 : 20 <= Z.of_nat (length buffer)).
      { destruct (Z.ltb_spec (Z.of_nat (length buffer)) 20) as [Hlt|]; [|lia].
        rewrite (TCP_buffer_short buffer Hlt) in Hdec. discriminate. }
      rewrite Ht. cbn [_options _options_size _total_options_size inner_pdu].
      split; [exact Hn20|]. split; [constructor|].
      split; [split; reflexivity|]. split; [|lia].
      destruct (_ =? 20); cbn [length]; [lia|].
      rewrite length_skipn. lia. }
  destruct Hfacts as (Hn20 & Hplain & Hsizes & Hfit & Htot).
  assert (Hhs : header_size t = 20 + _total_options_size t).
  { unfold header_size, sizeof_tcphdr. apply u32_small.
    change (2 ^ 32) with 4294967296. lia. }
  unfold serialize.
  destruct (write_serialization_layout pseudoheader_checksum do_checksum
              t (repeat x00 (Z.to_nat (header_size t)))
              (match inner_pdu t with Some p => p | None => [] end)
              parent Hplain Hsizes ltac:(lia)) as (c & Hser & _).
  { rewrite repeat_length, Hhs. lia. }
  rewrite Hser. do 2 eexists. split; [reflexivity|].
  assert (Hout : forall body pl' : list byte,
            Z.of_nat (length (tcphdr_bytes
                                (set_check c
                                   (set_doff ((20 + _total_options_size t) / 4)
                                             (_tcp t)))
                              ++ encode_options (_options t)
                              ++ repeat x01 (Z.to_nat (_total_options_size t
                                                       - _options_size t))
                              ++ pl'))
            = 20 + _total_options_size t + Z.of_nat (length pl')).
  { intros _ pl'.
    rewrite !length_app, length_tcphdr_bytes, repeat_length.
    pose proof (encode_options_length (_options t) Hplain) as Henc.
    destruct Hsizes as [Hraw Hp].
    pose proof (round_up4_spec (raw_size (_options t))) as [Hb _].
    lia. }
  rewrite (Hout []). split; [|exact Hfit].
  unfold size. rewrite Hhs.
  destruct (inner_pdu t); cbn [length] in *;
    (rewrite u32_small; [lia | change (2 ^ 32) with 4294967296; lia]).
Qed.

End DecodedSerializes.

Lemma decoded_segment_serializes_witness :
  exists out t',
    serialize pseudo_header_sum ones_complement_sum
      (mk_TCP (tcphdr_of_bytes (example_header x60 (x12, x34)))
              [] 0 0 (Some [xaa; xbb]))
      None
    = Done (out, t')
    /\ Z.of_nat (length out)
       = size (mk_TCP (tcphdr_of_bytes (example_header x60 (x12, x34)))
                      [] 0 0 (Some [xaa; xbb]))
    /\ Z.of_nat (length out)
       <= Z.of_nat (length (example_header x60 (x12, x34)
                            ++ [x01; x01; x01; x01; xaa; xbb])).
Proof.
  apply (decoded_segment_serializes pseudo_header_sum ones_complement_sum
           (example_header x60 (x12, x34)
            ++ [x01; x01; x01; x01; xaa; xbb])).
  - vm_compute. reflexivity.
  - vm_compute. reflexivity.
Defined.
